(** * moosestats: the stat scraper and the per-server cache of the dashboard API

    A shallow embedding of [scripts/moose_scraper.js] (retry envelope, stat
    extraction, the two traversal strategies of [scrapePlayers]) and of the
    Express server (server-name normalisation, cache merge, removal and
    response reconciliation), with the properties the specification states
    about them.

    JavaScript values are embedded as follows.
    - a scalar is a [jsval]; truthiness, [String(v)] and [a || b] are
      [truthy], [toStr] and [jsOr];
    - a flat object (a profile, a roster player) is a [gmap string jsval]:
      reading an absent property gives [JUndef], [{...a, ...b}] is [b ∪ a];
    - an object used as a dictionary (stats by label, tabs by key, servers by
      name) is a [gmap string _];
    - a number read from the stats table is an IEEE 754 binary64 value
      ([spec_float] with [prec = 53], [emax = 1024]);
    - [Date.now()] is an argument [now];
    - a function that can throw returns a [completion]. *)

From Stdlib Require Import ZArith Bool List Ascii.
From Stdlib Require Import Floats.SpecFloat.
From stdpp Require Import base option list gmap strings pretty fin_maps.

Open Scope string_scope.
Open Scope list_scope.

(** ** JavaScript scalars *)

Inductive jsval :=
  | JUndef
  | JNull
  | JBool (b : bool)
  | JNum (n : Z)
  | JStr (s : string).

#[global] Instance jsval_eq_dec : EqDecision jsval.
Proof. solve_decision. Defined.

#[global] Instance jsval_inhabited : Inhabited jsval := populate JUndef.

(** [ToBoolean]. *)
Definition truthy (v : jsval) : bool :=
  match v with
  | JUndef | JNull => false
  | JBool b => b
  | JNum n => negb (n =? 0)%Z
  | JStr s => negb (String.eqb s "")
  end.

(** [String(v)]; a [JNum] is an integer-valued number, printed in decimal. *)
Definition toStr (v : jsval) : string :=
  match v with
  | JUndef => "undefined"
  | JNull => "null"
  | JBool true => "true"
  | JBool false => "false"
  | JNum n => pretty n
  | JStr s => s
  end.

(** [a || b] *)
Definition jsOr (a b : jsval) : jsval := if truthy a then a else b.

(** [a && b] *)
Definition jsAnd (a b : jsval) : jsval := if truthy a then b else a.

(** A flat JavaScript object. *)
Abbreviation jsobj := (gmap string jsval).

(** [o.k]: an absent property reads as [undefined]. *)
Definition field (o : jsobj) (k : string) : jsval := default JUndef (o !! k).

(** [{ ...a, ...b }]: the properties of [b] win. *)
Definition spread (a b : jsobj) : jsobj := b ∪ a.

(** A thrown [Error]. *)
Record JsError := { err_name : string; err_message : string }.

Inductive completion (A : Type) :=
  | Return (a : A)
  | Throw (e : JsError).
Arguments Return {A} a.
Arguments Throw {A} e.

(** [arr.findIndex(p)], [None] standing for [-1]. *)
Fixpoint findIndex {A} (p : A -> bool) (l : list A) : option nat :=
  match l with
  | [] => None
  | x :: l' => if p x then Some 0 else S <$> findIndex p l'
  end.

(** ** Strings *)

(** [hay.includes(needle)] *)
Fixpoint includes (needle hay : string) : bool :=
  String.prefix needle hay ||
  match hay with
  | EmptyString => false
  | String _ hay' => includes needle hay'
  end.

Definition isDigit (c : ascii) : bool :=
  let n := nat_of_ascii c in ((48 <=? n) && (n <=? 57))%nat.

Fixpoint allDigits (s : string) : bool :=
  match s with
  | EmptyString => true
  | String c s' => isDigit c && allDigits s'
  end.

(** [/^\d{17}$/.test(s)] *)
Definition isDigits17 (s : string) : bool :=
  (String.length s =? 17)%nat && allDigits s.

(** ** JavaScript numbers read from the table: binary64 *)

Abbreviation num := spec_float.
Definition fmul : num -> num -> num := SFmul 53 1024.
Definition fdiv : num -> num -> num := SFdiv 53 1024.
Definition fltb : num -> num -> bool := SFltb.
Definition fleb : num -> num -> bool := SFleb.
Definition fzero : num := S754_zero false.

(** The number an integer literal denotes. *)
Definition ofZ (z : Z) : num := binary_normalize 53 1024 z 0 false.

(** * Part I: the programs *)

(** ** Server: data model (spec section 3) *)

(** Metric label to value, for one (tab, player label) pair. *)
Abbreviation PlayerStats := (gmap string num).

(** A tab object [{ metrics, stats, columnMap }]; [None] is an absent
    property.  [{}] is [emptyTab]. *)
Record Tab := mkTab {
  metrics : option (list string);
  stats : option (gmap string PlayerStats);
  columnMap : option (gmap string nat)
}.

Definition emptyTab : Tab := mkTab None None None.

Record MissingEntry := mkMissing {
  m_label : jsval;
  m_steamId : jsval;
  m_steamUrl : jsval;
  m_reason : string
}.

Record ServerInfo := mkServerInfo {
  selectionLabel : string;
  itemsText : list string;
  targetFound : bool
}.

Record ServerCache := mkCache {
  c_serverName : jsval;
  c_profiles : option (list jsobj);
  c_tabs : option (gmap string Tab);
  c_missing : option (list MissingEntry);
  c_serverInfo : option ServerInfo;
  c_updatedAt : option Z
}.

(** The second argument of [mergePlayerStats]. *)
Record PlayerResult := mkResult {
  r_serverName : jsval;
  r_profiles : option (list jsobj);
  r_tabs : option (gmap string Tab);
  r_missing : option (list MissingEntry);
  r_serverInfo : option ServerInfo
}.

Definition SERVER_NAME : string := "US Monthly (Premium)".
Definition ALLOWED_SERVERS : list string :=
  ["US Monthly (Premium)"; "US Biweekly (Premium)"].

Definition FALLBACK_AVATAR : string :=
  "https://steamcommunity-a.akamaihd.net/public/shared/images/responsive/share_steam_logo.png".

(** [isValidSteamId]: [/^\d{17}$/.test(String(steamId || ''))] *)
Definition isValidSteamId (steamId : jsval) : bool :=
  isDigits17 (toStr (jsOr steamId (JStr ""))).

(** ** Server: [normalizeServerName] and the store *)

Section ServerNames.
(** [String.prototype.trim] and [String.prototype.toLowerCase] are the
    platform's. *)
Variable trim : string -> string.
Variable toLowerCase : string -> string.

Definition normalizeServerName (serverName : jsval) : string :=
  if negb (truthy serverName) then SERVER_NAME
  else
    let trimmed := trim (toStr serverName) in
    let match_ :=
      find (fun name => String.eqb (toLowerCase name) (toLowerCase trimmed))
           ALLOWED_SERVERS in
    match match_ with
    | Some name => if truthy (JStr name) then name else SERVER_NAME
    | None => SERVER_NAME
    end.
End ServerNames.

(** [getServerCache]: [store.servers[serverName] || null]; the store is its
    [servers] dictionary, [None] when the property is absent. *)
Definition getServerCache (store : option (gmap string ServerCache))
    (serverName : string) : option ServerCache :=
  match store with
  | None => None
  | Some servers => servers !! serverName
  end.

(** [setServerCache], up to the write of the file. *)
Definition setServerCache (store : option (gmap string ServerCache))
    (serverName : string) (cache : ServerCache) : gmap string ServerCache :=
  <[serverName := cache]> (default ∅ store).

(** ** Server: [mergePlayerStats] *)

(** The predicate of the [findIndex] in [mergePlayerStats]. *)
Definition sameIdentity (profile p : jsobj) : bool :=
  (truthy (field profile "steamId") && truthy (field p "steamId") &&
   String.eqb (toStr (field profile "steamId")) (toStr (field p "steamId")))
  ||
  (truthy (field profile "steamUrl") && truthy (field p "steamUrl") &&
   String.eqb (toStr (field profile "steamUrl")) (toStr (field p "steamUrl"))).

(** One turn of [newProfiles.forEach]. *)
Definition upsertProfile (mergedProfiles : list jsobj) (profile : jsobj)
    : list jsobj :=
  match findIndex (sameIdentity profile) mergedProfiles with
  | Some matchIndex =>
      alter (fun existing => spread existing profile) matchIndex mergedProfiles
  | None => mergedProfiles ++ [profile]
  end.

(** One turn of [Object.entries(playerResult.tabs).forEach]: the new value of
    [next.tabs[tabKey]]. *)
Definition mergeTab (existingTab tabData : Tab) : Tab :=
  let mergedStats :=
    map_fold (fun statKey values acc => <[statKey := values]> acc)
             (default ∅ (stats existingTab)) (default ∅ (stats tabData)) in
  {| metrics :=
       Some (match metrics tabData with
             | Some (label :: rest) => label :: rest
             | _ => default [] (metrics existingTab)
             end);
     stats := Some mergedStats;
     columnMap :=
       match columnMap tabData with
       | Some cm => Some cm
       | None => columnMap existingTab
       end |}.

Definition mergeTabs (nextTabs incoming : gmap string Tab) : gmap string Tab :=
  map_fold
    (fun tabKey tabData acc =>
       <[tabKey := mergeTab (default emptyTab (acc !! tabKey)) tabData]> acc)
    nextTabs incoming.

Definition undefinedRead : JsError :=
  {| err_name := "TypeError";
     err_message := "Cannot read properties of undefined" |}.

(** [mergePlayerStats(cache, playerResult)] at clock reading [now].
    [next] is a shallow copy, so [next.tabs] is the cache's own [tabs] object
    (or a fresh [{}] when there is no cache); when the cache has no [tabs]
    property the first [next.tabs[tabKey]] throws.  [playerResult.missing] is
    not read. *)
Definition mergePlayerStats (now : Z) (cache : option ServerCache)
    (playerResult : PlayerResult) : completion ServerCache :=
  let serverName :=
    jsOr (jsOr (r_serverName playerResult)
               (from_option c_serverName JUndef cache))
         (JStr SERVER_NAME) in
  let serverInfo :=
    match r_serverInfo playerResult with
    | Some info => Some info
    | None => cache ≫= c_serverInfo
    end in
  let missing := default [] (cache ≫= c_missing) in
  let newProfiles := default [] (r_profiles playerResult) in
  let existingProfiles := default [] (cache ≫= c_profiles) in
  let mergedProfiles := foldl upsertProfile existingProfiles newProfiles in
  let incoming := default ∅ (r_tabs playerResult) in
  let finish tabs :=
    {| c_serverName := serverName;
       c_profiles := Some mergedProfiles;
       c_tabs := tabs;
       c_missing := Some missing;
       c_serverInfo := serverInfo;
       c_updatedAt := Some now |} in
  match from_option c_tabs (Some ∅) cache with
  | Some nextTabs => Return (finish (Some (mergeTabs nextTabs incoming)))
  | None =>
      if decide (incoming = ∅) then Return (finish None)
      else Throw undefinedRead
  end.

(** ** Server: [removePlayerFromCache] and the removal over the store *)

(** [v ? String(v) : null] *)
Definition strOrNull (v : jsval) : jsval :=
  if truthy v then JStr (toStr v) else JNull.

(** [if (k && stats[k]) delete stats[k]]; a stats body is an object, hence
    truthy when present. *)
Definition purgeKey (k : jsval) (stats : gmap string PlayerStats)
    : gmap string PlayerStats :=
  if truthy k then
    match stats !! toStr k with
    | Some _ => delete (toStr k) stats
    | None => stats
    end
  else stats.

Definition removePlayerFromCache (now : Z) (cache : option ServerCache)
    (player : option jsobj) : option ServerCache :=
  match cache with
  | None => None
  | Some cache =>
      let id := strOrNull (from_option (fun p => field p "steamId") JUndef player) in
      let url := strOrNull (from_option (fun p => field p "steamUrl") JUndef player) in
      let displayName :=
        jsOr (from_option (fun p => field p "displayName") JUndef player) JNull in
      let keepProfile (p : jsobj) : bool :=
        if truthy id && truthy (field p "steamId") &&
           String.eqb (toStr (field p "steamId")) (toStr id) then false
        else if truthy url && truthy (field p "steamUrl") &&
           String.eqb (toStr (field p "steamUrl")) (toStr url) then false
        else true in
      let purgeTab (tabData : Tab) : Tab :=
        {| metrics := metrics tabData;
           stats := Some (purgeKey url (purgeKey id (purgeKey displayName
                      (default ∅ (stats tabData)))));
           columnMap := columnMap tabData |} in
      let keepMissing (item : MissingEntry) : bool :=
        let itemId := strOrNull (m_steamId item) in
        let itemUrl := strOrNull (m_steamUrl item) in
        if truthy id && truthy itemId && String.eqb (toStr itemId) (toStr id)
        then false
        else if truthy url && truthy itemUrl &&
                String.eqb (toStr itemUrl) (toStr url) then false
        else true in
      Some {| c_serverName := c_serverName cache;
              c_profiles := Some (List.filter keepProfile (default [] (c_profiles cache)));
              c_tabs := fmap (M := gmap string) purgeTab <$> c_tabs cache;
              c_missing := Some (List.filter keepMissing (default [] (c_missing cache)));
              c_serverInfo := c_serverInfo cache;
              c_updatedAt := Some now |}
  end.

(** The loop of [app.delete('/api/players/:id')] over
    [Object.keys(store.servers)]; [clock name] is the reading of [Date.now()]
    while server [name] is processed. *)
Definition removeFromStore (clock : string -> Z)
    (servers : gmap string ServerCache) (removed : jsobj)
    : gmap string ServerCache :=
  map_imap
    (fun name cache =>
       Some (default cache (removePlayerFromCache (clock name) (Some cache) (Some removed))))
    servers.

(** ** Server: reconciliation of the cache with the roster *)

(** The two [Map]s of [mergeCachedProfiles]: a later player with the same
    key replaces an earlier one. *)
Definition indexPlayers (key : string) (players : list jsobj)
    : gmap string jsobj :=
  foldl (fun acc player =>
           if truthy (field player key)
           then <[toStr (field player key) := player]> acc
           else acc)
        ∅ players.

(** [(profile.steamId && bySteamId.get(String(profile.steamId))) ||
     (profile.steamUrl && bySteamUrl.get(String(profile.steamUrl))) || null] *)
Definition lookupBoth {V} (bySteamId bySteamUrl : gmap string V)
    (profile : jsobj) : option V :=
  match (if truthy (field profile "steamId")
         then bySteamId !! toStr (field profile "steamId") else None) with
  | Some m => Some m
  | None =>
      if truthy (field profile "steamUrl")
      then bySteamUrl !! toStr (field profile "steamUrl") else None
  end.

Definition mergeCachedProfiles (profiles : option (list jsobj))
    (players : list jsobj) : list jsobj :=
  let bySteamId := indexPlayers "steamId" players in
  let bySteamUrl := indexPlayers "steamUrl" players in
  let merged :=
    map (fun profile =>
           match lookupBoth bySteamId bySteamUrl profile with
           | None => profile
           | Some match_ =>
               <["avatarUrl" := jsOr (field match_ "avatarUrl") (field profile "avatarUrl")]>
               (<["displayName" := jsOr (field match_ "displayName") (field profile "displayName")]>
               (<["steamId" := jsOr (field match_ "steamId") (field profile "steamId")]>
               (<["steamUrl" := jsOr (field match_ "steamUrl") (field profile "steamUrl")]>
                profile)))
           end)
        (default [] profiles) in
  List.filter
    (fun profile =>
       let id := strOrNull (field profile "steamId") in
       let url := strOrNull (field profile "steamUrl") in
       (truthy id && bool_decide (is_Some (bySteamId !! toStr id))) ||
       (truthy url && bool_decide (is_Some (bySteamUrl !! toStr url))))
    merged.

(** The [Map]s of [attachPlayerIds], holding [{ index, player }]. *)
Definition indexPlayersAt (key : string) (players : list jsobj)
    : gmap string (nat * jsobj) :=
  foldl (fun acc ip =>
           if truthy (field ip.2 key)
           then <[toStr (field ip.2 key) := ip]> acc
           else acc)
        ∅ (imap (fun index player => (index, player)) players).

Definition attachPlayerIds (profiles players : list jsobj) : list jsobj :=
  let bySteamId := indexPlayersAt "steamId" players in
  let bySteamUrl := indexPlayersAt "steamUrl" players in
  map (fun profile =>
         match lookupBoth bySteamId bySteamUrl profile with
         | None => profile
         | Some (index, player) =>
             <["storedSteamId" := jsOr (field player "steamId") JNull]>
             (<["storedSteamUrl" := jsOr (field player "steamUrl") JNull]>
             (<["playerId" := JNum (Z.of_nat index)]> profile))
         end)
      profiles.

(** [filterStatsToProfiles]: [keys] is a [Set] of values, and a stat key, a
    string, is a member only of a string equal to it. *)
Definition filterStatsToProfiles (tabs : gmap string Tab)
    (profiles : list jsobj) : gmap string Tab :=
  let keys :=
    List.filter truthy
      (map (fun p => jsOr (jsOr (jsOr (field p "displayName") (field p "fallbackName"))
                                (field p "steamId"))
                          (field p "steamUrl"))
           profiles) in
  (fun tabData =>
     {| metrics := metrics tabData;
        stats := Some (filter (fun kv => JStr kv.1 ∈ keys)
                              (default ∅ (stats tabData)));
        columnMap := columnMap tabData |}) <$> tabs.

(** [String.prototype.split('/')] followed by [.filter(Boolean)]: the
    non-empty segments between slashes. *)
Fixpoint segments (cur : string) (s : string) : list string :=
  match s with
  | EmptyString => if String.eqb cur "" then [] else [cur]
  | String c s' =>
      if Ascii.eqb c "/"%char
      then (if String.eqb cur "" then [] else [cur]) ++ segments "" s'
      else segments (cur +:+ String c EmptyString) s'
  end.

Definition lowerAscii (c : ascii) : ascii :=
  let n := nat_of_ascii c in
  if ((65 <=? n) && (n <=? 90))%nat then ascii_of_nat (n + 32) else c.

(** [needle] is a prefix of [s], letters compared without case. *)
Fixpoint prefixNoCase (needle s : string) : bool :=
  match needle, s with
  | EmptyString, _ => true
  | String a needle', String b s' =>
      Ascii.eqb (lowerAscii a) (lowerAscii b) && prefixNoCase needle' s'
  | String _ _, EmptyString => false
  end.

(** What follows a prefix of the given length. *)
Fixpoint dropChars (n : nat) (s : string) : string :=
  match n, s with
  | S n', String _ s' => dropChars n' s'
  | _, _ => s
  end.

(** [/steamcommunity\.com\/id\/[^/]+/i.test(s)] *)
Fixpoint isVanityUrl (s : string) : bool :=
  (let pat := "steamcommunity.com/id/" in
   prefixNoCase pat s &&
   match dropChars (String.length pat) s with
   | String c _ => negb (Ascii.eqb c "/"%char)
   | EmptyString => false
   end)
  ||
  match s with
  | EmptyString => false
  | String _ s' => isVanityUrl s'
  end.

(** What [buildResponseFromCache] returns. *)
Record Response := mkResponse {
  resp_serverName : jsval;
  resp_metrics : list string;
  resp_stats : gmap string PlayerStats;
  resp_profiles : list jsobj;
  resp_tabs : gmap string Tab;
  resp_missing : list MissingEntry;
  resp_serverInfo : option ServerInfo;
  resp_updatedAt : option Z
}.

Section Reconcile.
(** [new URL(s).pathname], [None] when the constructor throws: the
    platform's URL parser. *)
Variable urlPathname : string -> option string.

(** [steamIdFromUrl]: the last non-empty path segment, or [null]; a value
    that is no string stringifies to a word without a scheme, on which
    [new URL] throws. *)
Definition steamIdFromUrl (steamUrl : jsval) : jsval :=
  match steamUrl with
  | JStr s =>
      match urlPathname s with
      | Some pathname =>
          match last (segments "" pathname) with
          | Some part => jsOr (JStr part) JNull
          | None => JNull
          end
      | None => JNull
      end
  | _ => JNull
  end.

(** [p.steamId || steamIdFromUrl(p.steamUrl)] *)
Definition derivedId (p : jsobj) : jsval :=
  jsOr (field p "steamId") (steamIdFromUrl (field p "steamUrl")).

(** The placeholder of a roster player absent from the merged profiles. *)
Definition placeholder (player : jsobj) : jsobj :=
  let name :=
    jsOr (jsOr (field player "displayName") (field player "steamId"))
         (field player "steamUrl") in
  {[ "steamUrl" := field player "steamUrl";
     "steamId" := field player "steamId";
     "displayName" := name;
     "fallbackName" := name;
     "avatarUrl" := jsOr (field player "avatarUrl") (JStr FALLBACK_AVATAR) ]}.

(** The [needsSteam64] property added to each profile of the response. *)
Definition withNeedsSteam64 (profile : jsobj) : jsobj :=
  let candidateId :=
    jsOr (jsOr (field profile "steamId") (field profile "storedSteamId")) JNull in
  let needsSteam64 :=
    jsAnd (JBool (negb (isValidSteamId candidateId)))
          (jsOr candidateId
                (JBool (isVanityUrl
                          (toStr (jsOr (jsOr (field profile "steamUrl")
                                             (field profile "storedSteamUrl"))
                                       (JStr "")))))) in
  <["needsSteam64" := needsSteam64]> profile.

Definition missingProfiles (mergedProfiles players : list jsobj)
    : list jsobj :=
  let mergedIds :=
    map toStr (List.filter truthy (map derivedId mergedProfiles)) in
  map placeholder
      (List.filter
         (fun player =>
            let id := derivedId player in
            truthy id && negb (bool_decide (toStr id ∈ mergedIds)))
         players).

Definition buildResponseFromCache (cache : option ServerCache)
    (players : list jsobj) : option Response :=
  match cache with
  | None => None
  | Some cache =>
      let mergedProfiles :=
        mergeCachedProfiles (Some (default [] (c_profiles cache))) players in
      let combinedProfiles :=
        mergedProfiles ++ missingProfiles mergedProfiles players in
      let profilesWithIds :=
        map withNeedsSteam64 (attachPlayerIds combinedProfiles players) in
      let tabs :=
        filterStatsToProfiles (default ∅ (c_tabs cache)) combinedProfiles in
      Some {| resp_serverName := jsOr (c_serverName cache) (JStr SERVER_NAME);
              resp_metrics := default [] (tabs !! "pvp" ≫= metrics);
              resp_stats := default ∅ (tabs !! "pvp" ≫= stats);
              resp_profiles := profilesWithIds;
              resp_tabs := tabs;
              resp_missing := default [] (c_missing cache);
              resp_serverInfo := c_serverInfo cache;
              resp_updatedAt :=
                match c_updatedAt cache with
                | Some t => if (t =? 0)%Z then None else Some t
                | None => None
                end |}
  end.
End Reconcile.

(** ** Scraper: the retry envelope *)

Definition RETRY_BACKOFFS_MS : list Z := [250; 500; 750]%Z.

(** [String(err && err.message ? err.message : err)] for a thrown [Error]:
    its message, or what [Error.prototype.toString] gives for an empty
    message, the name. *)
Definition errorText (err : JsError) : string :=
  if negb (String.eqb (err_message err) "") then err_message err
  else err_name err.

Definition isRetryableDetachError (err : JsError) : bool :=
  includes "not attached to the DOM" (errorText err) ||
  includes "Target closed" (errorText err).

Record RetryOptions := mkRetryOptions {
  playerName : string;
  actionLabel : string;
  attempts : nat;
  backoffs : list Z
}.

(** The defaults of the destructuring in [withDetachRetry]. *)
Definition defaultRetryOptions : RetryOptions :=
  {| playerName := "Unknown player";
     actionLabel := "action";
     attempts := 3;
     backoffs := RETRY_BACKOFFS_MS |}.

(** [a || b] on numbers that may be absent: [0] and [undefined] are falsy. *)
Definition orMs (a : option Z) (b : option Z) : option Z :=
  match a with
  | Some ms => if (ms =? 0)%Z then b else Some ms
  | None => b
  end.

(** [backoffs[attempt - 1] || backoffs[backoffs.length - 1] || 250] *)
Definition waitMsFor (backoffs : list Z) (attempt : nat) : Z :=
  default 250%Z
    (orMs (orMs (backoffs !! (attempt - 1)) (last backoffs)) (Some 250%Z)).

Definition retryMessage (options : RetryOptions) (attempt : nat) : string :=
  "Retry " +:+ pretty attempt +:+ "/" +:+ pretty (attempts options) +:+
  " for " +:+ playerName options +:+ " (" +:+ actionLabel options +:+ ")".

Section Retry.
(** The page and everything else the action acts on. *)
Context {W A : Type}.
(** [await delayMs(ms)]: what happens to the world while the timer runs. *)
Variable delayMs : Z -> W -> W.
(** [log(message)], or [console.warn(message)] without a [log]. *)
Variable warn : string -> W -> W.

(** What a call of [withDetachRetry] did: the world it left, how often it
    called the action, the delays it awaited in order, and how it
    completed ([Return None] is the [undefined] of a loop that ends). *)
Record RetryRun := mkRun {
  run_world : W;
  run_calls : nat;
  run_waits : list Z;
  run_result : completion (option A)
}.

(** The [for] loop from [attempt] on; [fuel] is the number of turns left,
    [attempts - attempt + 1]. *)
Fixpoint retryLoop (action : W -> W * completion A) (options : RetryOptions)
    (fuel attempt : nat) (w : W) : RetryRun :=
  match fuel with
  | 0 => mkRun w 0 [] (Return None)
  | S fuel' =>
      let '(w1, r) := action w in
      match r with
      | Return a => mkRun w1 1 [] (Return (Some a))
      | Throw err =>
          if negb (isRetryableDetachError err) || (attempt =? attempts options)%nat
          then mkRun w1 1 [] (Throw err)
          else
            let waitMs := waitMsFor (backoffs options) attempt in
            let w2 := delayMs waitMs (warn (retryMessage options attempt) w1) in
            let rest := retryLoop action options fuel' (S attempt) w2 in
            mkRun (run_world rest) (S (run_calls rest))
                  (waitMs :: run_waits rest) (run_result rest)
      end
  end.

Definition withDetachRetry (action : W -> W * completion A)
    (options : RetryOptions) (w : W) : RetryRun :=
  retryLoop action options (attempts options) 1 w.
End Retry.

(** ** Scraper: [extractStatsFromRow] *)

(** A column map in the order of its keys. *)
Abbreviation ColumnMap := (list (string * nat)).

Definition colIndex (columnMap : ColumnMap) (label : string) : option nat :=
  snd <$> find (fun kv => String.eqb kv.1 label) columnMap.

(** The integer [n] for which [n / 100 - x] is closest to zero, the larger
    one of two, for [x = m * 2^e]. *)
Definition hundredths (m : positive) (e : Z) : Z :=
  if (0 <=? e)%Z then (Z.pos m * 2 ^ e * 100)%Z
  else ((200 * Z.pos m + 2 ^ (- e)) / 2 ^ (1 - e))%Z.

(** [Number(x.toFixed(2))].  [toFixed] prints a number of magnitude at least
    [1e21], or one that is not finite, as [String] does, which [Number] reads
    back; otherwise it prints [n / 100] with two decimals, whose nearest
    binary64 value is the correctly rounded quotient of [n] by [100]. *)
Definition toFixed2 (x : num) : num :=
  match x with
  | S754_nan => S754_nan
  | S754_infinity s => S754_infinity s
  | S754_zero _ => S754_zero false
  | S754_finite s m e =>
      if ((0 <=? e) && (10 ^ 21 <=? Z.pos m * 2 ^ e))%Z then x
      else
        match hundredths m e with
        | Z.pos n => SFdiv 53 1024 (S754_finite s n 0) (S754_finite false 100 0)
        | _ => S754_zero s
        end
  end.

(** [Number(((headshots / shotsHit) * 100).toFixed(2))] *)
Definition headshotPercent (headshots shotsHit : num) : num :=
  toFixed2 (fmul (fdiv headshots shotsHit) (ofZ 100)).

(** [v > 0] and [v >= 0] for a property that may be absent. *)
Definition gtZero (v : option num) : bool :=
  match v with Some x => fltb fzero x | None => false end.
Definition geZero (v : option num) : bool :=
  match v with Some x => fleb fzero x | None => false end.

(** The recomputation after the loop over the labels. *)
Definition recomputeHeadshotPercent (labels : list string) (stats : PlayerStats)
    : PlayerStats :=
  if bool_decide ("Headshot %" ∈ labels) &&
     gtZero (stats !! "Shots Hit") && geZero (stats !! "Headshots")
  then
    match stats !! "Headshots", stats !! "Shots Hit" with
    | Some headshots, Some shotsHit =>
        <["Headshot %" := headshotPercent headshots shotsHit]> stats
    | _, _ => stats
    end
  else stats.

Section Extract.
Variable Page : Type.
(** [getNumeric] on the cell of a column: the number in its text;
    [innerText] can throw. *)
Variable getNumeric : nat -> Page -> Page * completion num.
(** [getTooltipNumber] on the cell of a column: it catches every error and
    then returns [null]. *)
Variable getTooltipNumber : nat -> string -> Page -> Page * option num.

Definition getCol (columnMap : ColumnMap) (label : string) (page : Page)
    : Page * completion num :=
  match colIndex columnMap label with
  | None =>
      match (if String.eqb label "Headshot %"
             then colIndex columnMap "Headshots" else None) with
      | Some headshotsIdx =>
          let '(page1, tooltip) := getTooltipNumber headshotsIdx label page in
          (page1, Return (default fzero tooltip))
      | None => (page, Return fzero)
      end
  | Some idx =>
      if String.eqb label "Headshot %" then
        let '(page1, tooltip) := getTooltipNumber idx label page in
        match tooltip with
        | Some v => (page1, Return v)
        | None => getNumeric idx page1
        end
      else getNumeric idx page
  end.

(** [for (const label of labels) stats[label] = await getCol(label)] *)
Fixpoint readLabels (columnMap : ColumnMap) (labels : list string)
    (stats : PlayerStats) (page : Page) : Page * completion PlayerStats :=
  match labels with
  | [] => (page, Return stats)
  | label :: rest =>
      let '(page1, r) := getCol columnMap label page in
      match r with
      | Throw err => (page1, Throw err)
      | Return v => readLabels columnMap rest (<[label := v]> stats) page1
      end
  end.

Definition extractStatsFromRow (columnMap : ColumnMap)
    (metricLabels : option (list string)) (page : Page)
    : Page * completion PlayerStats :=
  let labels :=
    match metricLabels with
    | Some (label :: rest) => label :: rest
    | _ => map fst columnMap
    end in
  let '(page1, r) := readLabels columnMap labels ∅ page in
  match r with
  | Throw err => (page1, Throw err)
  | Return stats => (page1, Return (recomputeHeadshotPercent labels stats))
  end.
End Extract.

(** ** Scraper: the two traversals of [scrapePlayers] *)

(** The keys of [TAB_DEFS], in the order of the object. *)
Definition TAB_KEYS : list string :=
  ["pvp"; "pve"; "resources"; "farming"; "building"].

Inductive Strategy := PerPlayer | PerTab.

(** [options.strategy === 'perPlayer' ? 'perPlayer' : 'perTab'] *)
Definition strategyOf (strategy : jsval) : Strategy :=
  if decide (strategy = JStr "perPlayer") then PerPlayer else PerTab.

(** [Object.entries(TAB_DEFS).filter(([key]) => !tabsToScrape ||
    tabsToScrape.includes(key))], where [tabsToScrape] is [options.tabs] when
    that is a non-empty array, the keys only. *)
Definition tabEntriesOf (tabsOption : option (list string)) : list string :=
  match tabsOption with
  | Some (t :: ts) => List.filter (fun key => bool_decide (key ∈ t :: ts)) TAB_KEYS
  | _ => TAB_KEYS
  end.

(** [profile.displayName || profile.fallbackName] *)
Definition labelOf (profile : jsobj) : jsval :=
  jsOr (field profile "displayName") (field profile "fallbackName").

(** The entry pushed to [missing] in the [catch] of the pvp tab. *)
Definition missingEntryOf (profile : jsobj) (err : JsError) : MissingEntry :=
  {| m_label := labelOf profile;
     m_steamId := field profile "steamId";
     m_steamUrl := field profile "steamUrl";
     m_reason := if negb (String.eqb (err_message err) "")
                 then err_message err else "Missing player stats" |}.

(** One call of [getPlayerStats] in a pass, with how it completed. *)
Record Lookup := mkLookup {
  l_tab : string;
  l_index : nat;
  l_outcome : completion PlayerStats
}.

(** What a pass returns ([serverInfo] and [timings] apart). *)
Record ScrapeResult := mkScrapeResult {
  res_profiles : list jsobj;
  res_tabs : gmap string Tab;
  res_missing : list MissingEntry
}.

Section Scrape.
Variable Page : Type.
(** [ensureTabReady] past its cache check: select the tab, wait for its
    headers, reset the search, map the columns (with the ladder of
    section 4.1).  Any of its waits can throw. *)
Variable prepareTab : string -> Page -> Page * completion (ColumnMap * list string).
(** [resetTableSearch(page)] and the wait for a visible row. *)
Variable resetTable : Page -> Page * completion unit.
(** [getPlayerStats(page, profile, columnMap, metrics)] *)
Variable getPlayerStats :
  jsobj -> ColumnMap -> list string -> Page -> Page * completion PlayerStats.

(** The variables of a pass: the page, [tabs], [missing],
    [missingIndexes], [tabCache], and the calls of [getPlayerStats] made
    so far. *)
Record ScrapeState := mkState {
  page : Page;
  tabs : gmap string Tab;
  missing : list MissingEntry;
  missingIndexes : gset nat;
  tabCache : gmap string (ColumnMap * list string);
  lookups : list Lookup
}.

Definition initialState (p : Page) : ScrapeState :=
  mkState p ∅ [] ∅ ∅ [].

(** State and exceptions. *)
Definition M (A : Type) : Type := ScrapeState -> ScrapeState * completion A.
Definition ret {A} (a : A) : M A := fun st => (st, Return a).
Definition bind {A B} (m : M A) (k : A -> M B) : M B :=
  fun st =>
    let '(st1, r) := m st in
    match r with
    | Return a => k a st1
    | Throw err => (st1, Throw err)
    end.

Notation "x <~ m ;; k" := (bind m (fun x => k))
  (at level 100, m at level 99, k at level 100, right associativity).

Fixpoint forEach {X} (l : list X) (body : X -> M unit) : M unit :=
  match l with
  | [] => ret tt
  | x :: l' => _ <~ body x ;; forEach l' body
  end.

(** A page operation as a step of the pass. *)
Definition onPage {A} (op : Page -> Page * completion A) : M A :=
  fun st =>
    let '(p, r) := op (page st) in
    (mkState p (tabs st) (missing st) (missingIndexes st) (tabCache st) (lookups st), r).

Definition ensureTabReady (tabKey : string) : M (ColumnMap * list string) :=
  fun st =>
    match tabCache st !! tabKey with
    | Some ready => (st, Return ready)
    | None =>
        let '(p, r) := prepareTab tabKey (page st) in
        match r with
        | Throw err =>
            (mkState p (tabs st) (missing st) (missingIndexes st) (tabCache st) (lookups st),
             Throw err)
        | Return (columnMap, metrics) =>
            (mkState p
               (<[tabKey := mkTab (Some metrics) (Some ∅) (Some (list_to_map columnMap))]>
                  (tabs st))
               (missing st) (missingIndexes st)
               (<[tabKey := (columnMap, metrics)]> (tabCache st))
               (lookups st),
             Return (columnMap, metrics))
        end
    end.

(** [scrapePvp && missingIndexes.has(profileIndex) && tabKey !== 'pvp'] *)
Definition skipped (scrapePvp : bool) (profileIndex : nat) (tabKey : string)
    (st : ScrapeState) : bool :=
  scrapePvp && bool_decide (profileIndex ∈ missingIndexes st) &&
  negb (String.eqb tabKey "pvp").

(** The [try] around [getPlayerStats]: the call, then [onStats] on
    success; in the [catch], the pvp tab records the player as missing and
    any other tab only reports. *)
Definition tryPlayer {A} (tabKey : string) (profileIndex : nat)
    (profile : jsobj) (columnMap : ColumnMap) (metrics : list string)
    (onStats : PlayerStats -> ScrapeState -> ScrapeState * A)
    (otherwise : A) : ScrapeState -> ScrapeState * A :=
  fun st =>
    let '(p, r) := getPlayerStats profile columnMap metrics (page st) in
    let seen := lookups st ++ [mkLookup tabKey profileIndex r] in
    match r with
    | Return stats =>
        onStats stats
          (mkState p (tabs st) (missing st) (missingIndexes st) (tabCache st) seen)
    | Throw err =>
        if String.eqb tabKey "pvp" then
          (mkState p (tabs st)
             (missing st ++ [missingEntryOf profile err])
             ({[profileIndex]} ∪ missingIndexes st)
             (tabCache st) seen,
           otherwise)
        else
          (mkState p (tabs st) (missing st) (missingIndexes st) (tabCache st) seen,
           otherwise)
    end.

(** [tabs[tabKey].stats[label] = stats] *)
Definition setStat (tabKey : string) (label : jsval) (found : PlayerStats)
    (st : ScrapeState) : ScrapeState :=
  mkState (page st)
    (alter (fun tab =>
              mkTab (metrics tab)
                    (Some (<[toStr label := found]> (default ∅ (stats tab))))
                    (columnMap tab))
           tabKey (tabs st))
    (missing st) (missingIndexes st) (tabCache st) (lookups st).

(** The body of the inner loop of the per-player traversal. *)
Definition perPlayerStep (scrapePvp : bool) (profileIndex : nat)
    (profile : jsobj) (tabKey : string) : M unit :=
  fun st =>
    if skipped scrapePvp profileIndex tabKey st then (st, Return tt)
    else
      (ready <~ ensureTabReady tabKey ;;
       _ <~ onPage resetTable ;;
       fun st1 =>
         let '(st2, _) :=
           tryPlayer tabKey profileIndex profile ready.1 ready.2
             (fun found st' => (setStat tabKey (labelOf profile) found st', tt))
             tt st1 in
         (st2, Return tt)) st.

Definition perPlayer (scrapePvp : bool) (profiles : list jsobj)
    (tabEntries : list string) : M unit :=
  forEach (imap (fun i p => (i, p)) profiles)
    (fun ip => forEach tabEntries (perPlayerStep scrapePvp ip.1 ip.2)).

(** The inner loop of the per-tab traversal, over the local [stats]. *)
Fixpoint perTabPlayers (scrapePvp : bool) (tabKey : string)
    (columnMap : ColumnMap) (metrics : list string)
    (indexed : list (nat * jsobj)) (stats : gmap string PlayerStats)
    (st : ScrapeState) : ScrapeState * gmap string PlayerStats :=
  match indexed with
  | [] => (st, stats)
  | (profileIndex, profile) :: rest =>
      if skipped scrapePvp profileIndex tabKey st
      then perTabPlayers scrapePvp tabKey columnMap metrics rest stats st
      else
        let '(st1, stats1) :=
          tryPlayer tabKey profileIndex profile columnMap metrics
            (fun found st' => (st', <[toStr (labelOf profile) := found]> stats))
            stats st in
        perTabPlayers scrapePvp tabKey columnMap metrics rest stats1 st1
  end.

(** The body of the outer loop of the per-tab traversal. *)
Definition perTabStep (scrapePvp : bool) (profiles : list jsobj)
    (tabKey : string) : M unit :=
  ready <~ ensureTabReady tabKey ;;
  fun st =>
    let '(st1, stats) :=
      perTabPlayers scrapePvp tabKey ready.1 ready.2
        (imap (fun i p => (i, p)) profiles) ∅ st in
    (mkState (page st1)
       (<[tabKey := mkTab (Some ready.2) (Some stats) (Some (list_to_map ready.1))]>
          (tabs st1))
       (missing st1) (missingIndexes st1) (tabCache st1) (lookups st1),
     Return tt).

Definition perTab (scrapePvp : bool) (profiles : list jsobj)
    (tabEntries : list string) : M unit :=
  forEach tabEntries (perTabStep scrapePvp profiles).

(** [scrapePlayers] from [const tabsToScrape] to its [return], for the
    profiles its first loop has loaded: the page it leaves, the calls of
    [getPlayerStats] it made, and its result.  The status callbacks are
    left out. *)
Definition scrapePlayers (strategy : jsval) (tabsOption : option (list string))
    (profiles : list jsobj) (p : Page)
    : Page * list Lookup * completion ScrapeResult :=
  let tabEntries := tabEntriesOf tabsOption in
  let scrapePvp := bool_decide ("pvp" ∈ tabEntries) in
  let '(st, r) :=
    match strategyOf strategy with
    | PerPlayer => perPlayer scrapePvp profiles tabEntries (initialState p)
    | PerTab => perTab scrapePvp profiles tabEntries (initialState p)
    end in
  (page st, lookups st,
   match r with
   | Throw err => Throw err
   | Return _ =>
       Return {| res_profiles :=
                   imap (fun index profile =>
                           <["missing" :=
                               JBool (scrapePvp && bool_decide (index ∈ missingIndexes st))]>
                             profile)
                        profiles;
                 res_tabs := tabs st;
                 res_missing := missing st |}
   end).
End Scrape.

(** ** Server: [buildFallbackResponse] *)

(** One profile of the fallback response. *)
Definition fallbackProfile (player : jsobj) : jsobj :=
  let name :=
    jsOr (jsOr (field player "displayName") (field player "steamId"))
         (field player "steamUrl") in
  {[ "steamUrl" := field player "steamUrl";
     "steamId" := field player "steamId";
     "displayName" := name;
     "fallbackName" := name;
     "avatarUrl" := jsOr (field player "avatarUrl") (JStr FALLBACK_AVATAR);
     "needsSteam64" :=
       JBool (truthy
         (jsAnd (JBool (negb (isValidSteamId (field player "steamId"))))
                (jsOr (field player "steamId")
                      (JBool (isVanityUrl
                                (toStr (jsOr (field player "steamUrl") (JStr ""))))))))
  ]}.

(** What [buildFallbackResponse] returns: a response and [cached: false]. *)
Record FallbackResponse := mkFallback {
  fb_response : Response;
  fb_cached : bool
}.

(** [buildFallbackResponse(serverName, players)] for an array [players]. *)
Definition buildFallbackResponse (serverName : string) (players : list jsobj)
    : FallbackResponse :=
  {| fb_response :=
       {| resp_serverName := JStr serverName;
          resp_metrics := [];
          resp_stats := ∅;
          resp_profiles := attachPlayerIds (map fallbackProfile players) players;
          resp_tabs := ∅;
          resp_missing := [];
          resp_serverInfo := None;
          resp_updatedAt := None |};
     fb_cached := false |}.


(** ** Server: [loadCacheStore] *)

(** What [loadCache] read from [data.json], as far as [loadCacheStore] looks
    at it: the [servers] dictionary when the document has one, and the
    properties of a cache that the document has itself, as it was laid out
    before there were per-server caches. *)
Record CacheFile := mkCacheFile {
  file_servers : option (gmap string ServerCache);
  file_cache : ServerCache
}.

Section Store.
Variable trim : string -> string.
Variable toLowerCase : string -> string.

(** [loadCacheStore], given what [loadCache] returned ([None] for the
    [null] of a file that cannot be read or parsed): the [servers]
    dictionary of the store. *)
Definition loadCacheStore (raw : option CacheFile) : gmap string ServerCache :=
  match raw with
  | None => ∅
  | Some file =>
      match file_servers file with
      | Some servers => servers
      | None =>
          if truthy (c_serverName (file_cache file))
          then {[ normalizeServerName trim toLowerCase (c_serverName (file_cache file))
                  := file_cache file ]}
          else ∅
      end
  end.
End Store.

(** ** Server: Steam profile URLs and ids *)

(** [/^https?:\/\//i.test(s)] *)
Definition isHttpUrl (s : string) : bool :=
  prefixNoCase "http://" s || prefixNoCase "https://" s.

Definition buildSteamUrl (steamUrl steamId : jsval) : jsval :=
  if truthy steamUrl && isHttpUrl (toStr steamUrl) then steamUrl
  else if truthy steamId && isDigits17 (toStr steamId)
  then JStr ("https://steamcommunity.com/profiles/" +:+ toStr steamId)
  else JNull.

(** [s.replace(/\/$/, '')] *)
Fixpoint stripTrailingSlash (s : string) : string :=
  match s with
  | EmptyString => EmptyString
  | String c s' =>
      match s' with
      | EmptyString => if Ascii.eqb c "/"%char then EmptyString else s
      | String _ _ => String c (stripTrailingSlash s')
      end
  end.

(** [txt.match(/<steamID64>(\d{17})<\/steamID64>/)?.[1]] *)
Fixpoint matchSteamID64 (txt : string) : option string :=
  let here :=
    if String.prefix "<steamID64>" txt then
      let rest := dropChars 11 txt in
      let digits := String.substring 0 17 rest in
      if isDigits17 digits && String.prefix "</steamID64>" (dropChars 17 rest)
      then Some digits else None
    else None in
  match here with
  | Some digits => Some digits
  | None =>
      match txt with
      | EmptyString => None
      | String _ txt' => matchSteamID64 txt'
      end
  end.

(** What [fetch] resolves to: [ok] and what [text()] gives. *)
Record FetchResponse := mkFetchResponse {
  fetch_ok : bool;
  fetch_text : completion string
}.

(** [lookupResp.ok()]: [ok] is a boolean, and the call of a boolean throws. *)
Definition callOk (resp : FetchResponse) : completion bool :=
  Throw {| err_name := "TypeError"; err_message := "lookupResp.ok is not a function" |}.

Section SteamLookup.
(** The network and its state. *)
Variable W : Type.
Variable fetch : string -> W -> W * completion FetchResponse.
Variable urlPathname : string -> option string.
Variable encodeURIComponent : string -> completion string.
(** [html.match(/SteamID64<\/td>\s*<td[^>]*>(\d{17})/i)?.[1]] and
    [html.match(/\b(\d{17})\b/)?.[1]] *)
Variable tableMatch : string -> option string.
Variable looseMatch : string -> option string.

(** The last request of [resolveSteamId64]: the profile as XML. *)
Definition resolveByXml (normalized : string) (w : W) : W * completion jsval :=
  let xmlUrl := normalized +:+ "/?xml=1" in
  let '(w1, r) := fetch xmlUrl w in
  match r with
  | Throw err => (w1, Throw err)
  | Return resp =>
      if negb (fetch_ok resp) then (w1, Return JNull)
      else
        match fetch_text resp with
        | Throw err => (w1, Throw err)
        | Return txt =>
            (w1, Return (match matchSteamID64 txt with
                         | Some id => jsOr (JStr id) JNull
                         | None => JNull
                         end))
        end
  end.

(** The body of the [try] of [resolveSteamId64]. *)
Definition resolveSteamId64Try (steamUrl : jsval) (w : W) : W * completion jsval :=
  let normalized := stripTrailingSlash (toStr steamUrl) in
  let vanity := steamIdFromUrl urlPathname (JStr normalized) in
  if truthy vanity && isDigits17 (toStr vanity) then (w, Return vanity)
  else if truthy vanity then
    match encodeURIComponent (toStr vanity) with
    | Throw err => (w, Throw err)
    | Return encoded =>
        let lookupUrl := "https://steamid.io/lookup/" +:+ encoded in
        let '(w1, r) := fetch lookupUrl w in
        match r with
        | Throw err => (w1, Throw err)
        | Return lookupResp =>
            match callOk lookupResp with
            | Throw err => (w1, Throw err)
            | Return true =>
                match fetch_text lookupResp with
                | Throw err => (w1, Throw err)
                | Return lookupHtml =>
                    match (match tableMatch lookupHtml with
                           | Some id => Some id
                           | None => looseMatch lookupHtml
                           end) with
                    | Some resolved =>
                        if truthy (JStr resolved) then (w1, Return (JStr resolved))
                        else resolveByXml normalized w1
                    | None => resolveByXml normalized w1
                    end
                end
            | Return false => resolveByXml normalized w1
            end
        end
    end
  else resolveByXml normalized w.

(** [resolveSteamId64(steamUrl)] of the server: [null] for a falsy
    argument and whenever the [try] throws. *)
Definition resolveSteamId64 (steamUrl : jsval) (w : W) : W * jsval :=
  if negb (truthy steamUrl) then (w, JNull)
  else
    let '(w1, r) := resolveSteamId64Try steamUrl w in
    (w1, match r with Return v => v | Throw _ => JNull end).

(** The [try] of [fetchSteamProfileSummaryFromUrl]: the page is fetched and
    searched for a name and an avatar; [{}] when anything fails. *)
Variable scrapeSummary : string -> W -> W * jsobj.

Definition fetchSteamProfileSummaryFromUrl (steamUrl : jsval) (w : W) : W * jsobj :=
  if negb (truthy steamUrl) then (w, ∅) else scrapeSummary (toStr steamUrl) w.

Definition fetchSteamProfileSummary (steamUrl steamId : jsval) (w : W) : W * jsobj :=
  let primaryUrl := buildSteamUrl steamUrl JNull in
  let fallbackUrl := buildSteamUrl JNull steamId in
  let '(w1, primary) := fetchSteamProfileSummaryFromUrl primaryUrl w in
  if truthy (field primary "displayName") && truthy (field primary "avatarUrl")
  then (w1, primary)
  else if truthy fallbackUrl && negb (bool_decide (fallbackUrl = primaryUrl)) then
    let '(w2, fallback) := fetchSteamProfileSummaryFromUrl fallbackUrl w1 in
    (w2, {[ "displayName" :=
              jsOr (jsOr (field primary "displayName") (field fallback "displayName")) JNull;
            "avatarUrl" :=
              jsOr (jsOr (field primary "avatarUrl") (field fallback "avatarUrl")) JNull ]})
  else (w1, primary).

(** [normalizePlayer(steamUrl)] *)
Definition normalizePlayer (steamUrl : jsval) (w : W) : W * jsobj :=
  let '(w1, resolved) := resolveSteamId64 steamUrl w in
  let normalizedUrl := buildSteamUrl steamUrl resolved in
  let '(w2, profile) :=
    fetchSteamProfileSummary (jsOr normalizedUrl steamUrl) resolved w1 in
  (w2, {[ "steamUrl" := jsOr normalizedUrl steamUrl;
          "steamId" := jsOr resolved (steamIdFromUrl urlPathname steamUrl);
          "displayName" := jsOr (field profile "displayName") JNull;
          "avatarUrl" := jsOr (field profile "avatarUrl") JNull ]}).

(** The callback of [players.map] in [hydratePlayers]: the player it
    resolves to, and whether it sets [changed]. *)
Definition hydratePlayer (player : jsobj) (w : W) : W * (jsobj * bool) :=
  let validId :=
    truthy (field player "steamId") && isDigits17 (toStr (field player "steamId")) in
  let needsId := negb validId in
  let needsProfile :=
    negb (truthy (field player "displayName")) ||
    negb (truthy (field player "avatarUrl")) in
  if negb needsId && negb needsProfile then (w, (player, false))
  else
    let normalizedUrl := buildSteamUrl (field player "steamUrl") (field player "steamId") in
    let '(w1, resolvedId) :=
      if needsId then resolveSteamId64 (jsOr normalizedUrl (field player "steamUrl")) w
      else (w, JNull) in
    let '(w2, profile) :=
      if needsProfile
      then fetchSteamProfileSummary (jsOr normalizedUrl (field player "steamUrl"))
             (jsOr resolvedId (field player "steamId")) w1
      else (w1, ∅) in
    let next : jsobj :=
      <["avatarUrl" :=
          jsOr (jsOr (field player "avatarUrl") (field profile "avatarUrl")) JNull]>
      (<["displayName" :=
          jsOr (jsOr (field player "displayName") (field profile "displayName")) JNull]>
      (<["steamId" :=
          if validId then field player "steamId"
          else jsOr resolvedId (field player "steamId")]>
      (<["steamUrl" := jsOr normalizedUrl (field player "steamUrl")]> player))) in
    (w2, (next,
          negb (bool_decide (field next "displayName" = field player "displayName")) ||
          negb (bool_decide (field next "avatarUrl" = field player "avatarUrl")) ||
          negb (bool_decide (field next "steamId" = field player "steamId")))).
End SteamLookup.


(** ** Server: the roster in [app.delete('/api/players/:id')] and
    [app.post('/api/players/reorder')] *)

(** What the DELETE route does to the roster: it answers with the roster
    untouched, or goes on with the new roster and [removed]. *)
Inductive RosterRemoval :=
  | NothingRemoved (players : list jsobj)
  | PlayerRemoved (players : list jsobj) (removed : option jsobj).

Section Roster.
Variable urlPathname : string -> option string.
(** [Number(s)] when [Number.isInteger(Number(s))]. *)
Variable integerOf : string -> option Z.

(** The roster part of the DELETE route, from [const targets] to the
    [savePlayers] call: [steamId] is [req.params.id], [steamUrl] is
    [req.query.steamUrl], and [byIndex] says whether [req.query.byIndex]
    is ['1']. *)
Definition removeFromRoster (steamId : string) (steamUrl : jsval) (byIndex : bool)
    (players : list jsobj) : RosterRemoval :=
  let targets :=
    List.filter truthy [JStr steamId; steamIdFromUrl urlPathname steamUrl] in
  let atIndex : option (nat * jsobj) :=
    if byIndex then
      match integerOf steamId with
      | Some index =>
          if ((0 <=? index) && (index <? Z.of_nat (length players)))%Z
          then (fun removed => (Z.to_nat index, removed)) <$> players !! Z.to_nat index
          else None
      | None => None
      end
    else None in
  match atIndex with
  | Some (index, removed) => PlayerRemoved (delete index players) (Some removed)
  | None =>
      let targeted (p : jsobj) := bool_decide (derivedId urlPathname p ∈ targets) in
      let next := List.filter (fun p => negb (targeted p)) players in
      if (length next =? length players)%nat then NothingRemoved players
      else PlayerRemoved next (find targeted players)
  end.

(** [player.steamId ? String(player.steamId) : steamIdFromUrl(player.steamUrl)] *)
Definition orderId (player : jsobj) : jsval :=
  if truthy (field player "steamId") then JStr (toStr (field player "steamId"))
  else steamIdFromUrl urlPathname (field player "steamUrl").

(** The [Map] of the reorder route: a later entry with the same id replaces
    an earlier one. *)
Definition indexByOrderId (items : list jsobj) : gmap string jsobj :=
  foldl (fun acc item =>
           if truthy (orderId item) then <[toStr (orderId item) := item]> acc
           else acc)
        ∅ items.

(** [[...ordered, ...remainder]] of the reorder route, which it computes
    for the roster and again for the profiles of every cache; [order] is
    [req.body.order.map(String)]. *)
Definition reorderByIds (order : list string) (items : list jsobj) : list jsobj :=
  let byId := indexByOrderId items in
  let ordered := omap (fun id => byId !! id) order in
  let remainder :=
    List.filter (fun item => negb (bool_decide (toStr (orderId item) ∈ order))) items in
  ordered ++ remainder.
End Roster.


(** ** Scraper: [escapeForAttrContains] *)

Definition backslashChar : ascii := "\"%char.
Definition quoteChar : ascii := "034"%char.

(** [s.replace(/c/g, by)] for a single character [c]. *)
Fixpoint replaceEach (c : ascii) (by_ : string) (s : string) : string :=
  match s with
  | EmptyString => EmptyString
  | String a s' =>
      (if Ascii.eqb a c then by_ else String a EmptyString) +:+ replaceEach c by_ s'
  end.

(** [String(value).replace(/\\/g, '\\\\').replace(/"/g, '\\"')] *)
Definition escapeForAttrContains (value : jsval) : string :=
  replaceEach quoteChar (String backslashChar (String quoteChar EmptyString))
    (replaceEach backslashChar
       (String backslashChar (String backslashChar EmptyString))
       (toStr value)).


(** ** Scraper: the tabs and their columns *)

(** The pattern objects: every label with the source text of its regular
    expressions, all of them used with the flag [i]. *)
Definition COLUMN_PATTERNS : list (string * list string) :=
  [ ("KDR", ["^kdr$"]);
    ("PvP Kills", ["pvp\s*kills"]);
    ("PvP Deaths", ["pvp\s*deaths"]);
    ("Suicides", ["suicides?"]);
    ("Shots Fired", ["shots?\s*fired"]);
    ("Shots Hit", ["shots?\s*hit"]);
    ("Headshots", ["headshots?"]);
    ("Headshot %", ["(headshot|hs)\s*%"]) ].

Definition RESOURCE_COLUMN_PATTERNS : list (string * list string) :=
  [ ("Wood", ["^wood$"]);
    ("Stone", ["^stone$"]);
    ("Metal Ore", ["metal\s*ore"]);
    ("Sulfur Ore", ["sulfur\s*ore"; "sufur\s*ore"]);
    ("HQM Ore", ["hqm\s*ore"; "high\s*quality\s*metal\s*ore"]) ].

Definition PVE_COLUMN_PATTERNS : list (string * list string) :=
  [ ("Scientist", ["scientist"]);
    ("Tunnel Dweller", ["tunnel\s*dweller"]);
    ("Bear", ["^bear$"]);
    ("Polar Bear", ["polar\s*bear"]);
    ("Boar", ["^boar$"]);
    ("Wolf", ["^wolf$"]);
    ("Stag", ["^stag$"]);
    ("Shark", ["^shark$"]);
    ("Crocodile", ["^crocodile$"]);
    ("Tiger", ["^tiger$"]);
    ("Panther", ["^panther$"]);
    ("Snake", ["^snake$"]);
    ("Bradley APC", ["bradley\s*apc"]) ].

Record TabDef := mkTabDef {
  tab_label : string;
  tab_patterns : option (list (string * list string))
}.

Definition TAB_DEFS : list (string * TabDef) :=
  [ ("pvp", mkTabDef "PvP" (Some COLUMN_PATTERNS));
    ("pve", mkTabDef "PvE" (Some PVE_COLUMN_PATTERNS));
    ("resources", mkTabDef "Resources" (Some RESOURCE_COLUMN_PATTERNS));
    ("farming", mkTabDef "Farming" None);
    ("building", mkTabDef "Building" None) ].

Definition TAB_HEADER_MARKERS : list (string * list string) :=
  [ ("pvp", ["KDR"; "PvP Kills"]);
    ("pve", ["Scientist"; "Tunnel Dweller"; "Bradley"]);
    ("resources", ["Wood"; "Stone"; "Sulfur Ore"]);
    ("farming", ["Cloth"; "Animal Fat"; "Leather"]);
    ("building", ["Building"]) ].

(** [obj[key]] for an object given by its entries. *)
Definition entryOf {V} (entries : list (string * V)) (key : string) : option V :=
  snd <$> find (fun kv => String.eqb kv.1 key) entries.

(** [columnMap[label] = idx]: a new key goes last, a key there already
    keeps its place. *)
Fixpoint assignColumn (label : string) (idx : nat) (columnMap : ColumnMap)
    : ColumnMap :=
  match columnMap with
  | [] => [(label, idx)]
  | (k, v) :: rest =>
      if String.eqb k label then (k, idx) :: rest
      else (k, v) :: assignColumn label idx rest
  end.

(** The lower-case names the generic mapping leaves out. *)
Definition SKIPPED_HEADERS : list string := ["player"; "name"; "steamid"; "steam id"].

Section Columns.
Variable Page : Type.
(** The wait for the first header cell, which can time out, and then the
    trimmed text of every header cell. *)
Variable tableHeaders : Page -> Page * completion (list string).
(** [s.replace(/\s+/g, ' ').trim()] and [toLowerCase]. *)
Variable norm : string -> string.
Variable toLowerCase : string -> string.
(** [new RegExp(source, 'i').test(s)] *)
Variable test : string -> string -> bool.

(** [mapTableColumns] past the reading of the headers. *)
Definition columnsOfHeaders (headers : list string)
    (columnPatterns : option (list (string * list string)))
    : ColumnMap * list string :=
  match columnPatterns with
  | None =>
      let metrics :=
        List.filter
          (fun h => negb (String.eqb h.1 "") &&
                    negb (bool_decide (toLowerCase h.1 ∈ SKIPPED_HEADERS)))
          (imap (fun idx h => (norm h, idx)) headers) in
      (foldl (fun columnMap m => assignColumn m.1 m.2 columnMap) [] metrics,
       map fst metrics)
  | Some patterns =>
      (foldl (fun columnMap entry =>
                match findIndex
                        (fun h => existsb (fun re => test re (norm h)) entry.2)
                        headers with
                | Some idx => assignColumn entry.1 idx columnMap
                | None => columnMap
                end)
             [] patterns,
       map fst patterns)
  end.

Definition mapTableColumns (columnPatterns : option (list (string * list string)))
    (page : Page) : Page * completion (ColumnMap * list string) :=
  let '(page1, r) := tableHeaders page in
  match r with
  | Throw err => (page1, Throw err)
  | Return headers => (page1, Return (columnsOfHeaders headers columnPatterns))
  end.

(** [mapColumnsByLabel]: a header is found by its normalised lower-case
    text, the last one of several with the same text. *)
Definition mapColumnsByLabel (labels : list string) (page : Page)
    : Page * completion (ColumnMap * list string) :=
  match labels with
  | [] => (page, Return ([], []))
  | _ :: _ =>
      let '(page1, r) := tableHeaders page in
      match r with
      | Throw err => (page1, Throw err)
      | Return headers =>
          let headerMap : gmap string nat :=
            foldl (fun acc h => <[toLowerCase (norm h.2) := h.1]> acc) ∅
                  (imap (fun idx h => (idx, h)) headers) in
          (page1,
           Return (foldl (fun columnMap label =>
                            match headerMap !! toLowerCase (norm label) with
                            | Some idx => assignColumn label idx columnMap
                            | None => columnMap
                            end)
                         [] labels,
                   labels))
      end
  end.

(** [selectStatsTab], [resetTableSearch] and the wait for a first row can
    throw; the wait for the header markers catches and says whether they
    came. *)
Variable selectStatsTab : string -> Page -> Page * completion unit.
Variable headersAppear : list string -> Page -> Page * bool.
Variable resetTableSearch : Page -> Page * completion unit.
Variable waitForRow : Page -> Page * completion unit.

(** [if (markers && markers.length) await waitForHeaders(page, markers, 8000)] *)
Definition waitForMarkers (tabKey : string) (page : Page) : Page :=
  match entryOf TAB_HEADER_MARKERS tabKey with
  | Some (marker :: markers) =>
      (headersAppear (map toLowerCase (marker :: markers)) page).1
  | _ => page
  end.

(** One page operation after another, up to the first that throws. *)
Definition andThen {A B} (op : Page -> Page * completion A)
    (next : A -> Page -> Page * completion B) (page : Page)
    : Page * completion B :=
  let '(page1, r) := op page in
  match r with
  | Return a => next a page1
  | Throw err => (page1, Throw err)
  end.

(** [ensureTabReady] past the look into [tabCache]: what it files in the
    cache and returns, for a key of [TAB_DEFS]. *)
Definition prepareTab (tabKey : string) : Page -> Page * completion (ColumnMap * list string) :=
  let patterns := entryOf TAB_DEFS tabKey ≫= tab_patterns in
  let noColumn (mapped : ColumnMap * list string) : bool :=
    match patterns, mapped.1 with
    | Some _, [] => true
    | _, _ => false
    end in
  andThen (selectStatsTab tabKey) (fun _ page =>
  andThen resetTableSearch (fun _ =>
  andThen waitForRow (fun _ =>
  andThen (mapTableColumns patterns) (fun first =>
  andThen
    (if noColumn first then
       andThen (selectStatsTab tabKey) (fun _ page' =>
       andThen waitForRow (fun _ => mapTableColumns patterns)
               (waitForMarkers tabKey page'))
     else fun page' => (page', Return first))
    (fun second =>
       if noColumn second
       then mapColumnsByLabel (map fst (default [] patterns))
       else fun page' => (page', Return second)))))
    (waitForMarkers tabKey page)).
End Columns.

(** ** Loading the profiles of a pass (scripts/moose_scraper.js) *)

(** [v && /^\d{17}$/.test(String(v)) ? String(v) : null] *)
Definition numericId (v : jsval) : jsval :=
  if truthy v && isDigits17 (toStr v) then JStr (toStr v) else JNull.

(** [a === b], on scalars. *)
Definition strictEq (a b : jsval) : bool := bool_decide (a = b).

Definition DEFAULT_COLOR : string := "#66c0f4".

(** [needsProfile] in the first loop of [scrapePlayers]. *)
Definition needsProfile (p : jsobj) : bool :=
  negb (truthy (field p "displayName")) ||
  negb (truthy (field p "avatarUrl")) ||
  negb (truthy (field p "steamId")) ||
  negb (isDigits17 (toStr (field p "steamId"))) ||
  negb (truthy (field p "color")).

(** The object that stands for the Steam profile of a player that needs
    none. *)
Definition storedProfile (p : jsobj) : jsobj :=
  <["color" := jsOr (field p "color") (JStr DEFAULT_COLOR)]>
  (<["avatarUrl" := field p "avatarUrl"]>
  (<["displayName" := field p "displayName"]>
  (<["steamId" := field p "steamId"]>
  (<["steamUrl" := field p "steamUrl"]> ∅)))).

Section Profiles.
Variable Page : Type.
Variable urlPathname : string -> option string.
(** [fetchSteamProfile(page, steamUrl, steamId)], which catches what its
    requests throw. *)
Variable fetchSteamProfile : jsval -> jsval -> Page -> Page * jsobj.

(** The body of the first loop of [scrapePlayers]: the profile pushed for
    the player [p]. *)
Definition loadProfile (p : jsobj) (page : Page) : Page * jsobj :=
  let '(page1, steamProfile) :=
    if needsProfile p
    then fetchSteamProfile (field p "steamUrl") (field p "steamId") page
    else (page, storedProfile p) in
  let numericStoredId := numericId (field p "steamId") in
  let numericFetchedId := numericId (field steamProfile "steamId") in
  let resolvedSteamId :=
    jsOr (jsOr numericFetchedId numericStoredId) (field steamProfile "steamId") in
  let displayName :=
    if truthy (field p "displayName") &&
       (strictEq (field steamProfile "displayName") (field steamProfile "steamId") ||
        strictEq (field steamProfile "displayName") (field p "steamId") ||
        strictEq (field steamProfile "displayName") (field p "steamUrl"))
    then field p "displayName"
    else field steamProfile "displayName" in
  let avatarUrl :=
    if strictEq (field steamProfile "avatarUrl") (JStr FALLBACK_AVATAR) &&
       truthy (field p "avatarUrl")
    then field p "avatarUrl"
    else field steamProfile "avatarUrl" in
  (page1,
   <["color" := jsOr (jsOr (field steamProfile "color") (field p "color"))
                     (JStr DEFAULT_COLOR)]>
   (<["searchKey" := jsOr (jsOr resolvedSteamId
                                (steamIdFromUrl urlPathname (field p "steamUrl")))
                          (field p "steamUrl")]>
   (<["fallbackName" := jsOr (jsOr (jsOr (field p "fallbackName") displayName)
                                   (field p "steamId"))
                             (field p "steamUrl")]>
   (<["avatarUrl" := avatarUrl]>
   (<["displayName" := displayName]>
   (<["steamId" := resolvedSteamId]> steamProfile)))))).
End Profiles.

(** ** Scraper: [scrapePlayers] from the launch of the browser to its close *)

Section ScrapeRun.
Variable Page : Type.
(** [chromium.launch] and [browser.newPage], [page.goto(MOOSE_URL)],
    [selectServer] up to its [return], and [browser.close]. *)
Variable launch : Page -> Page * completion unit.
Variable goto : Page -> Page * completion unit.
Variable selectServer : string -> Page -> Page * completion unit.
Variable closeBrowser : Page -> Page * completion unit.
Variable urlPathname : string -> option string.
Variable fetchSteamProfile : jsval -> jsval -> Page -> Page * jsobj.
Variable prepareTab : string -> Page -> Page * completion (ColumnMap * list string).
Variable resetTable : Page -> Page * completion unit.
Variable getPlayerStats :
  jsobj -> ColumnMap -> list string -> Page -> Page * completion PlayerStats.



End ScrapeRun.

(** ** Server: the per-server caches in the routes *)







Section Routes.
Variable trim : string -> string.
Variable toLowerCase : string -> string.
Variable urlPathname : string -> option string.
Variable integerOf : string -> option Z.
(** What [loadCache] and [loadPlayers] read when the request arrives, and the
    reading of [Date.now()] while server [name] is processed. *)
Variable raw : option CacheFile.
Variable players : list jsobj.
Variable clock : string -> Z.

Definition serverOf (serverName : jsval) : string :=
  normalizeServerName trim toLowerCase serverName.

Definition loadedStore : gmap string ServerCache :=
  loadCacheStore trim toLowerCase raw.








End Routes.

(** ** Vocabulary of the statements *)

(** The hypothesis of the frame property of the merge: the steamId of [c]
    equals, as a string, the steamId of no incoming profile, and likewise its
    steamUrl. *)
Definition unrelatedTo (c : jsobj) (incoming : list jsobj) : bool :=
  forallb
    (fun r =>
       negb (String.eqb (toStr (field c "steamId")) (toStr (field r "steamId"))) &&
       negb (String.eqb (toStr (field c "steamUrl")) (toStr (field r "steamUrl"))))
    incoming.

(** [existingTab.stats] overwritten pointwise by [tabData.stats]. *)
Definition overwritten (existing incoming : option (gmap string PlayerStats))
    (label : string) : option PlayerStats :=
  match default ∅ incoming !! label with
  | Some values => Some values
  | None => default ∅ existing !! label
  end.

(** [tabs?.[key]] *)
Definition tabOf (tabs : option (gmap string Tab)) (key : string) : option Tab :=
  tabs ≫= (fun t => t !! key).

(** A profile that defines both identity properties and has a truthy one. *)
Definition keyed (r : jsobj) : bool :=
  bool_decide (is_Some (r !! "steamId")) &&
  bool_decide (is_Some (r !! "steamUrl")) &&
  (truthy (field r "steamId") || truthy (field r "steamUrl")).

(** No two profiles of the list are the same player to [mergePlayerStats]. *)
Fixpoint pairwiseApart (l : list jsobj) : bool :=
  match l with
  | [] => true
  | r :: l' => forallb (fun r' => negb (sameIdentity r r')) l' && pairwiseApart l'
  end.

Definition wellKeyed (l : list jsobj) : bool :=
  forallb keyed l && pairwiseApart l.

(** [{ ...cache, updatedAt: now }] *)
Definition stampedAt (now : Z) (cache : ServerCache) : ServerCache :=
  {| c_serverName := c_serverName cache;
     c_profiles := c_profiles cache;
     c_tabs := c_tabs cache;
     c_missing := c_missing cache;
     c_serverInfo := c_serverInfo cache;
     c_updatedAt := Some now |}.

(** The keys under which [removePlayerFromCache] deletes stat entries: the
    player's display name, steamId and steamUrl, those that are truthy. *)
Definition removalKeys (player : jsobj) : list string :=
  map toStr (List.filter truthy
    [field player "displayName"; field player "steamId"; field player "steamUrl"]).

(** A missing entry is the removed player's: same steamId or same steamUrl. *)
Definition sameMissing (player : jsobj) (item : MissingEntry) : bool :=
  (truthy (field player "steamId") && truthy (m_steamId item) &&
   String.eqb (toStr (m_steamId item)) (toStr (field player "steamId")))
  ||
  (truthy (field player "steamUrl") && truthy (m_steamUrl item) &&
   String.eqb (toStr (m_steamUrl item)) (toStr (field player "steamUrl"))).

(** Every cache of the store is filed under an allow-listed server name. *)
Definition allowListed (servers : gmap string ServerCache) : Prop :=
  forall name, name ∈ dom servers -> name ∈ ALLOWED_SERVERS.

(** [trim] and [toLowerCase] restricted to ASCII text, for the examples. *)
Definition isSpaceAscii (c : ascii) : bool :=
  let n := nat_of_ascii c in ((n =? 32) || ((9 <=? n) && (n <=? 13)))%nat.

Fixpoint trimStartAscii (s : string) : string :=
  match s with
  | String c s' => if isSpaceAscii c then trimStartAscii s' else s
  | EmptyString => EmptyString
  end.

Fixpoint trimEndAscii (s : string) : string :=
  match s with
  | EmptyString => EmptyString
  | String c s' =>
      match trimEndAscii s' with
      | EmptyString => if isSpaceAscii c then EmptyString else String c EmptyString
      | rest => String c rest
      end
  end.

Definition trimAscii (s : string) : string := trimEndAscii (trimStartAscii s).

Fixpoint toLowerAscii (s : string) : string :=
  match s with
  | EmptyString => EmptyString
  | String c s' => String (lowerAscii c) (toLowerAscii s')
  end.

(** A stand-in for [new URL(s).pathname] on plain [http://] and [https://]
    URLs, for the examples: the text from the first slash after the host up
    to [?] or [#]; any other string is rejected. *)
Fixpoint takeUntil (stop : ascii -> bool) (s : string) : string :=
  match s with
  | EmptyString => EmptyString
  | String c s' => if stop c then EmptyString else String c (takeUntil stop s')
  end.

Fixpoint dropUntil (stop : ascii -> bool) (s : string) : string :=
  match s with
  | EmptyString => EmptyString
  | String c s' => if stop c then s else dropUntil stop s'
  end.

Definition plainHttpPathname (s : string) : option string :=
  let isEnd (c : ascii) := Ascii.eqb c "?"%char || Ascii.eqb c "#"%char in
  let isDelim (c : ascii) := Ascii.eqb c "/"%char || isEnd c in
  let rest :=
    if prefixNoCase "https://" s then Some (dropChars 8 s)
    else if prefixNoCase "http://" s then Some (dropChars 7 s)
    else None in
  match rest with
  | None => None
  | Some r =>
      if String.eqb (takeUntil isDelim r) "" then None
      else
        let path := takeUntil isEnd (dropUntil isDelim r) in
        Some (if String.eqb path "" then "/" else path)
  end.

(** The properties [attachPlayerIds] and [buildResponseFromCache] add to a
    profile. *)
Definition responseOnlyKeys : list string :=
  ["playerId"; "storedSteamUrl"; "storedSteamId"; "needsSteam64"].

(** The merged list already holds [r]: its first entry for [r] has all the
    properties of [r]. *)
Definition absorbs (merged : list jsobj) (r : jsobj) : Prop :=
  exists i q, findIndex (sameIdentity r) merged = Some i /\
              merged !! i = Some q /\ spread q r = q.

(** *** A pass of the scraper *)

(** The entry a call of [getPlayerStats] adds to [missing]: one for a call on
    the pvp tab that threw, none for any other call. *)
Definition missingOf (profiles : list jsobj) (l : Lookup) : option MissingEntry :=
  match l_outcome l, profiles !! l_index l with
  | Throw err, Some profile =>
      if String.eqb (l_tab l) "pvp" then Some (missingEntryOf profile err) else None
  | _, _ => None
  end.

(** The indices of the players looked up on the pvp tab, in order. *)
Definition pvpIndexes (ls : list Lookup) : list nat :=
  map l_index (List.filter (fun l => String.eqb (l_tab l) "pvp") ls).

(** Every entry of a stats dictionary was read by a call of
    [getPlayerStats] on that tab that returned it, for a profile with that
    label. *)
Definition sourced (profiles : list jsobj) (tabKey : string)
    (found : gmap string PlayerStats) (ls : list Lookup) : Prop :=
  forall label v, found !! label = Some v ->
    exists j profile,
      profiles !! j = Some profile /\ toStr (labelOf profile) = label /\
      mkLookup tabKey j (Return v) ∈ ls.

Section ScrapeInvariants.
Variable Page : Type.
Variable profiles : list jsobj.

(** What [missing], [missingIndexes] and the calls made so far have to do
    with each other at every point of a pass that includes the pvp tab. *)
Record ledger (st : ScrapeState Page) : Prop := mkLedger {
  ledger_indexes : forall j,
    j ∈ missingIndexes Page st <->
    exists err, mkLookup "pvp" j (Throw err) ∈ lookups Page st;
  ledger_missing : missing Page st = omap (missingOf profiles) (lookups Page st);
  ledger_found : forall l,
    l ∈ lookups Page st -> l_tab l <> "pvp" ->
    exists v, mkLookup "pvp" (l_index l) (Return v) ∈ lookups Page st;
  ledger_once : NoDup (pvpIndexes (lookups Page st))
}.

(** The stats of every tab of the state are [sourced]. *)
Definition tabsSourced (st : ScrapeState Page) : Prop :=
  forall tabKey tab, tabs Page st !! tabKey = Some tab ->
    sourced profiles tabKey (default ∅ (stats tab)) (lookups Page st).

(** Player [j] was dealt with on tab [tabKey]: looked up, or skipped as
    missing. *)
Definition handled (st : ScrapeState Page) (tabKey : string) (j : nat) : Prop :=
  (exists r, mkLookup tabKey j r ∈ lookups Page st) \/
  (j ∈ missingIndexes Page st /\ tabKey <> "pvp").
End ScrapeInvariants.

(** A statement about a pass, under each of the two strategies. *)
Definition forall_strategies (P : jsval -> Prop) : Prop :=
  P (JStr "perPlayer") /\ P (JStr "perTab").

(** *** Matching profiles and roster players *)

(** Both objects have a truthy property [key], equal as strings. *)
Definition sharesKey (key : string) (a b : jsobj) : bool :=
  truthy (field a key) && truthy (field b key) &&
  String.eqb (toStr (field a key)) (toStr (field b key)).

(** The last index of a player that shares [key] with the profile. *)
Definition lastSharing (key : string) (profile : jsobj) (players : list jsobj)
    (n : nat) : Prop :=
  exists player, players !! n = Some player /\ sharesKey key profile player = true /\
    forall j q, players !! j = Some q -> sharesKey key profile q = true -> j <= n.

(** The roster player [attachPlayerIds] and [mergeCachedProfiles] find for a
    profile: the last one that shares its steamId, or when there is none the
    last one that shares its steamUrl. *)
Definition matchOf (profile : jsobj) (players : list jsobj) (n : nat) : Prop :=
  lastSharing "steamId" profile players n \/
  ((forall q, q ∈ players -> sharesKey "steamId" profile q = false) /\
   lastSharing "steamUrl" profile players n).

(** [p.displayName || p.fallbackName || p.steamId || p.steamUrl], the key
    under which [filterStatsToProfiles] looks for the stats of a profile. *)
Definition statsKeyOf (p : jsobj) : jsval :=
  jsOr (jsOr (jsOr (field p "displayName") (field p "fallbackName"))
             (field p "steamId"))
       (field p "steamUrl").


(** The id under which the reorder route files an item, when it has one. *)
Definition filedUnder (urlPathname : string -> option string) (item : jsobj)
    : option string :=
  if truthy (orderId urlPathname item) then Some (toStr (orderId urlPathname item))
  else None.


(** Reading an escaped text back: a backslash stands for the character
    after it, and a quote that no backslash precedes ends the text before
    its end, as does a backslash with nothing after it. *)
Fixpoint unescapeAttr (s : string) : option string :=
  match s with
  | EmptyString => Some EmptyString
  | String c s' =>
      if Ascii.eqb c backslashChar then
        match s' with
        | String d s'' => String d <$> unescapeAttr s''
        | EmptyString => None
        end
      else if Ascii.eqb c quoteChar then None
      else String c <$> unescapeAttr s'
  end.

(** The text has neither a backslash nor a double quote. *)
Fixpoint plainAttrText (s : string) : bool :=
  match s with
  | EmptyString => true
  | String c s' =>
      negb (Ascii.eqb c backslashChar) && negb (Ascii.eqb c quoteChar) &&
      plainAttrText s'
  end.


(** The last index of the list whose element has the property. *)
Definition lastIndexWhere {A} (p : A -> bool) (l : list A) : option nat :=
  foldl (fun acc ix => if p ix.2 then Some ix.1 else acc) None
        (imap (fun idx x => (idx, x)) l).


(** *** What a pass does, with or without the pvp tab *)

(** The tab and the player of a call of [getPlayerStats]. *)
Definition lookupKey (l : Lookup) : string * nat := (l_tab l, l_index l).

Section PassVocabulary.
Variable Page : Type.
Variable prepareTab : string -> Page -> Page * completion (ColumnMap * list string).
Variable resetTable : Page -> Page * completion unit.

(** A column map and metrics that preparing the tab has returned. *)
Definition preparedAs (tabKey : string) (ready : ColumnMap * list string) : Prop :=
  exists p p', prepareTab tabKey p = (p', Return ready).

(** The error was thrown while a tab was prepared or the table was reset. *)
Definition thrownByPage (err : JsError) : Prop :=
  (exists tabKey p, (prepareTab tabKey p).2 = Throw err) \/
  (exists p, (resetTable p).2 = Throw err).

(** What holds of the variables of a pass over [n] players and the tabs
    [tabEntries] at every point. *)
Record passFacts (tabEntries : list string) (n : nat) (st : ScrapeState Page)
    : Prop := mkPassFacts {
  pass_once : NoDup (lookupKey <$> lookups Page st);
  pass_bounds : forall l,
    l ∈ lookups Page st -> l_tab l ∈ tabEntries /\ l_index l < n;
  pass_cache : forall tabKey ready,
    tabCache Page st !! tabKey = Some ready -> preparedAs tabKey ready;
  pass_tabs : forall tabKey tab,
    tabs Page st !! tabKey = Some tab ->
    tabKey ∈ tabEntries /\
    exists ready, preparedAs tabKey ready /\
                  metrics tab = Some ready.2 /\
                  columnMap tab = Some (list_to_map ready.1)
}.
End PassVocabulary.

(** *** The keys of [data.json] *)

(** The keys of the [servers] dictionary of the document, none when the
    file is missing or has the old layout. *)
Definition fileKeys (raw : option CacheFile) : gset string :=
  match raw ≫= file_servers with
  | Some servers => dom servers
  | None => ∅
  end.



(** * Part II: properties *)

(** ** Lists and dictionaries *)

Lemma findIndex_Some {A} (p : A -> bool) (l : list A) (i : nat) :
  findIndex p l = Some i <->
  exists x, l !! i = Some x /\ p x = true /\
            forall j y, j < i -> l !! j = Some y -> p y = false.
Proof.
  revert i. induction l as [|a l IH]; intros i; simpl.
  - split; [discriminate | intros (x & Hx & _); discriminate].
  - destruct (p a) eqn:Hpa.
    + split.
      * intros [= <-]. exists a. repeat split; auto. intros j y Hj; lia.
      * intros (x & Hx & Hp & Hfirst). destruct i as [|i]; [done|].
        specialize (Hfirst 0 a ltac:(lia) eq_refl). congruence.
    + split.
      * destruct (findIndex p l) as [k|]; simpl; [|discriminate].
        intros [= <-]. destruct (IH k) as [IHk _].
        destruct (IHk eq_refl) as (x & Hx & Hp & Hfirst).
        exists x. repeat split; auto.
        intros [|j] y Hj Hy; simpl in Hy; [congruence|].
        apply (Hfirst j); [lia | done].
      * intros (x & Hx & Hp & Hfirst). destruct i as [|i]; simpl in Hx.
        { congruence. }
        destruct (IH i) as [_ IHi]. rewrite IHi; [done|].
        exists x. repeat split; auto.
        intros j y Hj Hy. apply (Hfirst (S j)); [lia | done].
Qed.

Lemma findIndex_None {A} (p : A -> bool) (l : list A) :
  findIndex p l = None <-> forall i x, l !! i = Some x -> p x = false.
Proof.
  induction l as [|a l IH]; simpl.
  - split; [intros _ i x; discriminate | done].
  - destruct (p a) eqn:Hpa.
    + split; [discriminate|]. intros H. specialize (H 0 a eq_refl). congruence.
    + split.
      * destruct (findIndex p l); simpl; [discriminate|].
        intros _ [|i] x Hx; simpl in Hx; [congruence|].
        destruct IH as [IH _]. by apply (IH eq_refl i).
      * intros H. destruct IH as [_ IH]. rewrite IH; [done|].
        intros i x Hx. by apply (H (S i)).
Qed.

(** Assigning every entry of one dictionary into another is their union, the
    assigned entries winning. *)
Lemma assign_all_union {V} (base incoming : gmap string V) :
  map_fold (fun k v acc => <[k := v]> acc) base incoming = incoming ∪ base.
Proof.
  apply (map_fold_weak_ind (fun r m => r = m ∪ base)).
  - by rewrite (left_id_L ∅ (∪)).
  - intros k v m r Hk ->. by rewrite insert_union_l.
Qed.

(** ** [mergePlayerStats] *)

Lemma mergeTab_stats existingTab tabData :
  stats (mergeTab existingTab tabData) =
  Some (default ∅ (stats tabData) ∪ default ∅ (stats existingTab)).
Proof. unfold mergeTab; simpl. by rewrite assign_all_union. Qed.

Lemma mergeTabs_lookup (nextTabs incoming : gmap string Tab) (k : string) :
  mergeTabs nextTabs incoming !! k =
  match incoming !! k with
  | Some tabData => Some (mergeTab (default emptyTab (nextTabs !! k)) tabData)
  | None => nextTabs !! k
  end.
Proof.
  unfold mergeTabs. revert k.
  apply (map_fold_weak_ind (fun r m => forall k,
    r !! k = match m !! k with
             | Some tabData => Some (mergeTab (default emptyTab (nextTabs !! k)) tabData)
             | None => nextTabs !! k
             end)).
  - intros k. by rewrite lookup_empty.
  - intros i x m r Hi IH k. destruct (decide (i = k)) as [->|Hne].
    + rewrite !lookup_insert_eq. by rewrite IH, Hi.
    + rewrite !lookup_insert_ne by done. apply IH.
Qed.

Lemma mergeTabs_empty (nextTabs : gmap string Tab) : mergeTabs nextTabs ∅ = nextTabs.
Proof. unfold mergeTabs. by rewrite map_fold_empty. Qed.

(** When [mergePlayerStats] returns and when it throws. *)
Lemma mergePlayerStats_completes now cache R :
  match mergePlayerStats now cache R with
  | Return M =>
      c_profiles M =
        Some (foldl upsertProfile (default [] (cache ≫= c_profiles))
                    (default [] (r_profiles R))) /\
      c_missing M = Some (default [] (cache ≫= c_missing)) /\
      c_updatedAt M = Some now /\
      c_tabs M =
        match from_option c_tabs (Some ∅) cache with
        | Some nextTabs => Some (mergeTabs nextTabs (default ∅ (r_tabs R)))
        | None => None
        end
  | Throw _ =>
      (exists c, cache = Some c /\ c_tabs c = None) /\ default ∅ (r_tabs R) <> ∅
  end.
Proof.
  unfold mergePlayerStats.
  destruct cache as [c|]; simpl; [|done].
  destruct (c_tabs c) eqn:Ht; simpl; [done|].
  case_decide; simpl; [done|]. split; [by exists c | done].
Qed.

Lemma sameIdentity_unrelated (c r : jsobj) :
  String.eqb (toStr (field c "steamId")) (toStr (field r "steamId")) = false ->
  String.eqb (toStr (field c "steamUrl")) (toStr (field r "steamUrl")) = false ->
  sameIdentity r c = false.
Proof.
  intros Hid Hurl. unfold sameIdentity.
  rewrite String.eqb_sym in Hid. rewrite String.eqb_sym in Hurl.
  rewrite Hid, Hurl. by rewrite !andb_false_r.
Qed.

Lemma upsertProfile_other (merged : list jsobj) (r c : jsobj) (i : nat) :
  merged !! i = Some c -> sameIdentity r c = false ->
  upsertProfile merged r !! i = Some c.
Proof.
  intros Hi Hno. unfold upsertProfile.
  destruct (findIndex (sameIdentity r) merged) as [k|] eqn:Hk.
  - apply findIndex_Some in Hk as (x & Hx & Hp & _).
    rewrite list_lookup_alter_ne; [done|]. intros ->. congruence.
  - rewrite lookup_app_l; [done|]. by eapply lookup_lt_Some.
Qed.

Lemma mergeProfiles_other (incoming merged : list jsobj) (c : jsobj) (i : nat) :
  merged !! i = Some c ->
  (forall r, r ∈ incoming -> sameIdentity r c = false) ->
  foldl upsertProfile merged incoming !! i = Some c.
Proof.
  revert merged. induction incoming as [|r incoming IH]; intros merged Hi Hno; simpl.
  - done.
  - apply IH.
    + apply upsertProfile_other; [done|]. apply Hno. left.
    + intros r' Hr'. apply Hno. by right.
Qed.

(** C1. A profile of the cache whose steamId equals, as a string, the steamId
    of no profile of the scrape result, and whose steamUrl equals the
    steamUrl of none, is in the merged cache unchanged, at the index it had:
    the merge neither alters nor removes it.  (The merge throws only for a
    cache without a [tabs] object and a result with tabs.) *)
Theorem merge_keeps_unrelated_profiles
    (now : Z) (cache : ServerCache) (R : PlayerResult) (i : nat) (c : jsobj) :
  default [] (c_profiles cache) !! i = Some c ->
  unrelatedTo c (default [] (r_profiles R)) = true ->
  match mergePlayerStats now (Some cache) R with
  | Return M => default [] (c_profiles M) !! i = Some c
  | Throw _ => c_tabs cache = None /\ default ∅ (r_tabs R) <> ∅
  end.
Proof.
  intros Hi Hun.
  pose proof (mergePlayerStats_completes now (Some cache) R) as H.
  destruct (mergePlayerStats now (Some cache) R) as [M|err].
  - destruct H as (-> & _). simpl.
    apply mergeProfiles_other; [done|].
    intros r Hr. unfold unrelatedTo in Hun.
    rewrite forallb_forall in Hun. apply list_elem_of_In in Hr.
    specialize (Hun r Hr). apply andb_true_iff in Hun as [H1 H2].
    apply negb_true_iff in H1, H2. by apply sameIdentity_unrelated.
  - destruct H as ((c' & [= <-] & Ht) & Hne). done.
Qed.

Lemma merge_keeps_unrelated_profiles_witness :
  let kept : jsobj := {[ "steamId" := JStr "76561198000000001"; "displayName" := JStr "Ann" ]} in
  let incoming : jsobj := {[ "steamId" := JStr "76561198000000002"; "steamUrl" := JStr "https://steamcommunity.com/id/bob" ]} in
  let cache := mkCache (JStr SERVER_NAME) (Some [kept]) (Some ∅) None None None in
  let R := mkResult JUndef (Some [incoming]) None None None in
  match mergePlayerStats 5 (Some cache) R with
  | Return M => default [] (c_profiles M) !! 0 = Some kept
  | Throw _ => c_tabs cache = None /\ default ∅ (r_tabs R) <> ∅
  end.
Proof.
  intros kept incoming cache R.
  apply (merge_keeps_unrelated_profiles 5 cache R 0 kept); reflexivity.
Defined.

(** The tab [tabKey] of a cache that may be absent, [{}] when there is none. *)
Lemma mergePlayerStats_tab now cache R tabKey tabData M :
  default ∅ (r_tabs R) !! tabKey = Some tabData ->
  mergePlayerStats now cache R = Return M ->
  exists nextTabs,
    from_option c_tabs (Some ∅) cache = Some nextTabs /\
    tabOf (c_tabs M) tabKey =
      Some (mergeTab (default emptyTab (nextTabs !! tabKey)) tabData).
Proof.
  intros Htab HM.
  pose proof (mergePlayerStats_completes now cache R) as H. rewrite HM in H.
  destruct H as (_ & _ & _ & Ht).
  destruct (from_option c_tabs (Some ∅) cache) as [nextTabs|] eqn:Hnext.
  - exists nextTabs. split; [done|]. rewrite Ht. unfold tabOf. simpl.
    by rewrite mergeTabs_lookup, Htab.
  - exfalso. unfold mergePlayerStats in HM. rewrite Hnext in HM.
    case_decide as He; [|done]. rewrite He, lookup_empty in Htab. done.
Qed.

(** C9, as amended.  For a tab key of the scrape result, the merged cache has
    that tab; its stats are the cache's stats for the tab overwritten
    pointwise, by player label, with the result's; its metrics are the
    result's metrics when that list is not empty, and otherwise the metrics
    the cache had for the tab (the empty list when it had none).  The merge
    throws only for a cache without a [tabs] object. *)
Theorem merge_tab_stats_and_metrics
    (now : Z) (cache : option ServerCache) (R : PlayerResult)
    (tabKey : string) (tabData : Tab) :
  default ∅ (r_tabs R) !! tabKey = Some tabData ->
  let existingTab := default emptyTab (tabOf (cache ≫= c_tabs) tabKey) in
  match mergePlayerStats now cache R with
  | Return M =>
      exists tab,
        tabOf (c_tabs M) tabKey = Some tab /\
        (forall label,
           default ∅ (stats tab) !! label =
           overwritten (stats existingTab) (stats tabData) label) /\
        metrics tab =
          Some (match metrics tabData with
                | Some (label :: rest) => label :: rest
                | _ => default [] (metrics existingTab)
                end)
  | Throw _ => exists c, cache = Some c /\ c_tabs c = None
  end.
Proof.
  intros Htab existingTab.
  pose proof (mergePlayerStats_completes now cache R) as Hc.
  destruct (mergePlayerStats now cache R) as [M|err] eqn:HM.
  - destruct (mergePlayerStats_tab _ _ _ _ _ _ Htab HM) as (nextTabs & Hnext & Hlook).
    assert (default emptyTab (nextTabs !! tabKey) = existingTab) as Hex.
    { unfold existingTab, tabOf. destruct cache as [c|]; simpl in *.
      - by rewrite Hnext.
      - injection Hnext as <-. by rewrite lookup_empty. }
    rewrite Hex in Hlook.
    eexists. split; [exact Hlook|]. split.
    + intros label. rewrite mergeTab_stats. simpl. unfold overwritten.
      rewrite lookup_union.
      destruct (default ∅ (stats tabData) !! label) as [v|]; simpl.
      * by destruct (default ∅ (stats existingTab) !! label).
      * by rewrite (left_id_L None (∪)).
    + done.
  - by destruct Hc as [Hc _].
Qed.

Lemma merge_tab_stats_and_metrics_witness :
  let kills (n : Z) : PlayerStats := {[ "PvP Kills" := ofZ n ]} in
  let cached := mkTab (Some ["KDR"]) (Some {[ "Ann" := kills 3%Z; "Bob" := kills 9%Z ]}) None in
  let scraped := mkTab (Some []) (Some {[ "Ann" := kills 4%Z ]}) None in
  let cache := mkCache (JStr SERVER_NAME) (Some []) (Some {[ "pvp" := cached ]}) None None None in
  let R := mkResult JUndef None (Some {[ "pvp" := scraped ]}) None None in
  match mergePlayerStats 5 (Some cache) R with
  | Return M =>
      exists tab,
        tabOf (c_tabs M) "pvp" = Some tab /\
        (forall label,
           default ∅ (stats tab) !! label =
           overwritten (Some {[ "Ann" := kills 3%Z; "Bob" := kills 9%Z ]})
                       (Some {[ "Ann" := kills 4%Z ]}) label) /\
        metrics tab = Some ["KDR"]
  | Throw _ => exists c, Some cache = Some c /\ c_tabs c = None
  end.
Proof.
  intros kills cached scraped cache R.
  exact (merge_tab_stats_and_metrics 5 (Some cache) R "pvp" scraped eq_refl).
Defined.

(** C9 as stated fails: both the cache and the scrape result have a
    non-empty metrics list for the tab, and the merged tab carries the
    result's, not the cache's. *)
Lemma merge_metrics_counterexample :
  let cached := mkTab (Some ["KDR"]) (Some ∅) None in
  let scraped := mkTab (Some ["PvP Kills"]) (Some ∅) None in
  let cache := mkCache (JStr SERVER_NAME) (Some []) (Some {[ "pvp" := cached ]}) None None None in
  let R := mkResult JUndef None (Some {[ "pvp" := scraped ]}) None None in
  exists M tab,
    mergePlayerStats 5 (Some cache) R = Return M /\
    tabOf (c_tabs M) "pvp" = Some tab /\
    metrics cached = Some ["KDR"] /\
    metrics tab = Some ["PvP Kills"] /\
    metrics tab <> metrics cached.
Proof.
  intros cached scraped cache R. eexists _, _.
  split; [reflexivity|]. split; [vm_compute; reflexivity|].
  repeat split. discriminate.
Qed.

(** C3, what the code does: wherever the merge returns, the missing list of
    the merged cache is a copy of the cache's own list (empty when there is
    no cache, or none in it), whatever the scrape result's [missing] holds;
    no entry of the result is appended. *)
Theorem merge_ignores_incoming_missing
    (now : Z) (cache : option ServerCache) (R : PlayerResult) (M : ServerCache) :
  mergePlayerStats now cache R = Return M ->
  c_missing M = Some (default [] (cache ≫= c_missing)).
Proof.
  intros HM. pose proof (mergePlayerStats_completes now cache R) as H.
  rewrite HM in H. tauto.
Qed.

Lemma merge_ignores_incoming_missing_witness :
  let entry := mkMissing (JStr "Ann") (JStr "76561198000000001") JNull "Could not find player row" in
  let cache := mkCache (JStr SERVER_NAME) (Some []) (Some ∅) (Some []) None None in
  let R := mkResult (JStr SERVER_NAME) (Some []) (Some ∅) (Some [entry]) None in
  exists M,
    mergePlayerStats 5 (Some cache) R = Return M /\
    r_missing R = Some [entry] /\ c_missing M = Some [].
Proof.
  intros entry cache R. eexists. split; [reflexivity|]. split; [reflexivity|].
  exact (merge_ignores_incoming_missing 5 (Some cache) R _ eq_refl).
Defined.

(** *** Merging the same result again *)

Lemma sameIdentity_sym (a b : jsobj) : sameIdentity a b = sameIdentity b a.
Proof.
  unfold sameIdentity.
  rewrite (String.eqb_sym (toStr (field a "steamId"))).
  rewrite (String.eqb_sym (toStr (field a "steamUrl"))).
  destruct (truthy (field a "steamId")), (truthy (field b "steamId")),
    (truthy (field a "steamUrl")), (truthy (field b "steamUrl")); reflexivity.
Qed.

(** [sameIdentity] reads the two identity properties only. *)
Lemma sameIdentity_fields (r p p' : jsobj) :
  field p "steamId" = field p' "steamId" ->
  field p "steamUrl" = field p' "steamUrl" ->
  sameIdentity r p = sameIdentity r p'.
Proof. unfold sameIdentity. by intros -> ->. Qed.

Lemma field_spread (existing r : jsobj) (k : string) :
  is_Some (r !! k) -> field (spread existing r) k = field r k.
Proof.
  intros Hk. unfold field, spread. by rewrite lookup_union_l'.
Qed.

Lemma keyed_inv (r : jsobj) :
  keyed r = true ->
  is_Some (r !! "steamId") /\ is_Some (r !! "steamUrl") /\ sameIdentity r r = true.
Proof.
  unfold keyed. rewrite !andb_true_iff, !bool_decide_eq_true.
  intros [[Hid Hurl] Htruthy]. repeat split; [done..|].
  unfold sameIdentity. rewrite !String.eqb_refl, !andb_true_r, !andb_diag. done.
Qed.

Lemma sameIdentity_spread (r r' existing : jsobj) :
  keyed r' = true -> sameIdentity r (spread existing r') = sameIdentity r r'.
Proof.
  intros (Hid & Hurl & _)%keyed_inv.
  apply sameIdentity_fields; by apply field_spread.
Qed.

Lemma upsertProfile_absorbed (merged : list jsobj) (r : jsobj) :
  absorbs merged r -> upsertProfile merged r = merged.
Proof.
  intros (i & q & Hfind & Hq & Hsame). unfold upsertProfile. rewrite Hfind.
  apply list_eq. intros j. destruct (decide (i = j)) as [<-|Hne].
  - rewrite list_lookup_alter_eq, Hq. simpl. f_equal. exact Hsame.
  - by rewrite list_lookup_alter_ne.
Qed.

Lemma upsertProfile_absorbs (merged : list jsobj) (r : jsobj) :
  keyed r = true -> absorbs (upsertProfile merged r) r.
Proof.
  intros Hkeyed. pose proof (keyed_inv r Hkeyed) as (Hid & Hurl & Hself).
  unfold upsertProfile.
  destruct (findIndex (sameIdentity r) merged) as [i|] eqn:Hfind.
  - apply findIndex_Some in Hfind as (x & Hx & Hp & Hfirst).
    exists i, (spread x r). split; [|split].
    + apply findIndex_Some. exists (spread x r). split; [|split].
      * by rewrite list_lookup_alter_eq, Hx.
      * by rewrite sameIdentity_spread.
      * intros j y Hj Hy. rewrite list_lookup_alter_ne in Hy by lia.
        by apply (Hfirst j).
    + by rewrite list_lookup_alter_eq, Hx.
    + unfold spread. by rewrite (assoc_L (∪)), (idemp_L (∪)).
  - exists (length merged), r. split; [|split].
    + apply findIndex_Some. exists r. split; [|split].
      * by rewrite lookup_app_r, Nat.sub_diag.
      * done.
      * intros j y Hj Hy. rewrite lookup_app_l in Hy by done.
        by apply (proj1 (findIndex_None _ _) Hfind j).
    + by rewrite lookup_app_r, Nat.sub_diag.
    + unfold spread. by rewrite (idemp_L (∪)).
Qed.

Lemma absorbs_fields (merged : list jsobj) (r q : jsobj) (k : string) :
  spread q r = q -> is_Some (r !! k) -> field q k = field r k.
Proof. intros <- Hk. by apply field_spread. Qed.

Lemma upsertProfile_keeps_absorbed (merged : list jsobj) (r r' : jsobj) :
  keyed r = true -> keyed r' = true -> sameIdentity r r' = false ->
  absorbs merged r -> absorbs (upsertProfile merged r') r.
Proof.
  intros Hk Hk' Hapart (i & q & Hfind & Hq & Hsame).
  pose proof (keyed_inv r Hk) as (Hid & Hurl & _).
  assert (sameIdentity r' q = false) as Hq'.
  { rewrite (sameIdentity_fields r' q r), sameIdentity_sym; [done|..];
      by eapply absorbs_fields. }
  apply findIndex_Some in Hfind as (x & Hx & Hp & Hfirst).
  assert (x = q) as -> by congruence.
  unfold upsertProfile.
  destruct (findIndex (sameIdentity r') merged) as [j|] eqn:Hfind'.
  - apply findIndex_Some in Hfind' as (y & Hy & Hpy & _).
    assert (j <> i) as Hne by (intros ->; congruence).
    exists i, q. split; [|split]; [|by rewrite list_lookup_alter_ne|done].
    apply findIndex_Some. exists q. split; [|split].
    + by rewrite list_lookup_alter_ne.
    + done.
    + intros n z Hn Hz. destruct (decide (j = n)) as [<-|Hjn].
      * rewrite list_lookup_alter_eq, Hy in Hz. injection Hz as <-.
        by rewrite sameIdentity_spread.
      * rewrite list_lookup_alter_ne in Hz by done. by apply (Hfirst n).
  - pose proof (lookup_lt_Some _ _ _ Hq) as Hlt.
    exists i, q. split; [|split]; [|by rewrite lookup_app_l|done].
    apply findIndex_Some. exists q. split; [|split].
    + by rewrite lookup_app_l.
    + done.
    + intros n z Hn Hz. rewrite lookup_app_l in Hz by lia. by apply (Hfirst n).
Qed.

Lemma mergeProfiles_keeps_absorbed (incoming merged : list jsobj) (r : jsobj) :
  keyed r = true ->
  forallb keyed incoming = true ->
  forallb (fun r' => negb (sameIdentity r r')) incoming = true ->
  absorbs merged r -> absorbs (foldl upsertProfile merged incoming) r.
Proof.
  intros Hk. revert merged.
  induction incoming as [|r' incoming IH]; intros merged Hks Hap Habs; simpl in *.
  - done.
  - apply andb_true_iff in Hks as [Hk' Hks]. apply andb_true_iff in Hap as [Hr' Hap].
    apply negb_true_iff in Hr'.
    apply IH; [done..|]. by apply upsertProfile_keeps_absorbed.
Qed.

Lemma mergeProfiles_absorbs_all (incoming merged : list jsobj) :
  wellKeyed incoming = true ->
  forall r, r ∈ incoming -> absorbs (foldl upsertProfile merged incoming) r.
Proof.
  unfold wellKeyed. revert merged.
  induction incoming as [|r0 incoming IH]; intros merged Hwk r Hr.
  - by apply elem_of_nil in Hr.
  - simpl in *. apply andb_true_iff in Hwk as [Hks Hap].
    apply andb_true_iff in Hks as [Hk0 Hks]. apply andb_true_iff in Hap as [Hap0 Hap].
    apply elem_of_cons in Hr as [->|Hr].
    + apply mergeProfiles_keeps_absorbed; [done..|]. by apply upsertProfile_absorbs.
    + apply IH; [|done]. by rewrite Hks, Hap.
Qed.

Lemma mergeProfiles_fixed (incoming merged : list jsobj) :
  (forall r, r ∈ incoming -> absorbs merged r) ->
  foldl upsertProfile merged incoming = merged.
Proof.
  induction incoming as [|r incoming IH]; intros Habs; simpl; [done|].
  rewrite upsertProfile_absorbed by (apply Habs; left).
  apply IH. intros r' Hr'. apply Habs. by right.
Qed.

Lemma mergeProfiles_idempotent (incoming merged : list jsobj) :
  wellKeyed incoming = true ->
  foldl upsertProfile (foldl upsertProfile merged incoming) incoming =
  foldl upsertProfile merged incoming.
Proof.
  intros Hwk. apply mergeProfiles_fixed. by apply mergeProfiles_absorbs_all.
Qed.

Lemma mergeTab_idempotent (existingTab tabData : Tab) :
  mergeTab (mergeTab existingTab tabData) tabData = mergeTab existingTab tabData.
Proof.
  unfold mergeTab at 1. rewrite mergeTab_stats. rewrite assign_all_union.
  unfold mergeTab. rewrite assign_all_union. simpl. f_equal.
  - destruct (metrics tabData) as [[|label rest]|]; done.
  - f_equal. by rewrite (assoc_L (∪)), (idemp_L (∪)).
  - by destruct (columnMap tabData).
Qed.

Lemma mergeTabs_idempotent (nextTabs incoming : gmap string Tab) :
  mergeTabs (mergeTabs nextTabs incoming) incoming = mergeTabs nextTabs incoming.
Proof.
  apply map_eq. intros k. rewrite !mergeTabs_lookup.
  destruct (incoming !! k) as [tabData|]; [|done].
  simpl. by rewrite mergeTab_idempotent.
Qed.

Lemma jsOr_again (a b c : jsval) :
  truthy c = true -> jsOr (jsOr a (jsOr (jsOr a b) c)) c = jsOr (jsOr a b) c.
Proof.
  intros Hc. unfold jsOr.
  destruct (truthy a) eqn:Ha; simpl; rewrite ?Ha; [done|].
  destruct (truthy b) eqn:Hb; simpl; rewrite ?Hb; simpl; rewrite ?Hb, ?Hc; done.
Qed.

(** C2, as amended.  When every profile of the scrape result defines steamId
    and steamUrl, one of them truthy, and no two of its profiles share one,
    merging the result a second time changes nothing but [updatedAt], which
    is the clock reading of the last merge. *)
Theorem merge_twice_changes_only_updatedAt
    (now1 now2 : Z) (cache : option ServerCache) (R : PlayerResult) (M : ServerCache) :
  wellKeyed (default [] (r_profiles R)) = true ->
  mergePlayerStats now1 cache R = Return M ->
  mergePlayerStats now2 (Some M) R = Return (stampedAt now2 M).
Proof.
  intros Hwk HM. unfold mergePlayerStats in HM.
  destruct (from_option c_tabs (Some ∅) cache) as [nextTabs|] eqn:Hnext.
  - injection HM as <-. unfold mergePlayerStats, stampedAt. simpl.
    rewrite mergeProfiles_idempotent by done. rewrite mergeTabs_idempotent.
    rewrite jsOr_again by reflexivity.
    by destruct (r_serverInfo R).
  - case_decide as Hempty; [|done]. injection HM as <-.
    unfold mergePlayerStats, stampedAt. simpl.
    rewrite decide_True by done.
    rewrite mergeProfiles_idempotent by done.
    rewrite jsOr_again by reflexivity.
    by destruct (r_serverInfo R).
Qed.

Lemma merge_twice_changes_only_updatedAt_witness :
  let ann : jsobj := {[ "steamId" := JStr "76561198000000001"; "steamUrl" := JStr "https://steamcommunity.com/id/ann"; "displayName" := JStr "Ann" ]} in
  let bob : jsobj := {[ "steamId" := JStr "76561198000000002"; "steamUrl" := JNull; "displayName" := JStr "Bob" ]} in
  let tab := mkTab (Some ["KDR"]) (Some {[ "Ann" := ({[ "KDR" := ofZ 2 ]} : PlayerStats) ]}) None in
  let R := mkResult (JStr "US Biweekly (Premium)") (Some [ann; bob]) (Some {[ "pvp" := tab ]}) (Some []) None in
  exists M,
    mergePlayerStats 5 None R = Return M /\
    mergePlayerStats 9 (Some M) R = Return (stampedAt 9 M).
Proof.
  intros ann bob tab R. eexists. split; [reflexivity|].
  apply (merge_twice_changes_only_updatedAt 5 9 None R); reflexivity.
Defined.

(** C2 as stated fails.  The second merge stamps [updatedAt] anew, so the two
    caches differ whenever the clock has moved on.  With the clock held
    still the profiles can still differ: a result whose profiles share
    identities in a chain (the first two a steamId, the last two a steamUrl)
    merges into one profile the first time and into two the second time; a
    profile with neither a steamId nor a steamUrl matches nothing and is
    appended again by every merge; and a profile that leaves steamUrl out
    inherits the cached one, which a later profile of the same result then
    takes over. *)
Lemma merge_twice_counterexample :
  let p1 : jsobj := {[ "steamId" := JStr "76561198000000001"; "steamUrl" := JStr "https://steamcommunity.com/id/ann" ]} in
  let p2 : jsobj := {[ "steamId" := JStr "76561198000000001"; "steamUrl" := JStr "https://steamcommunity.com/id/bob" ]} in
  let p3 : jsobj := {[ "steamId" := JStr "76561198000000002"; "steamUrl" := JStr "https://steamcommunity.com/id/bob" ]} in
  let nameless : jsobj := {[ "displayName" := JStr "Ann" ]} in
  let idOnly : jsobj := {[ "steamId" := JStr "76561198000000001" ]} in
  let R1 := mkResult JUndef (Some [p1]) (Some ∅) (Some []) None in
  let R3 := mkResult JUndef (Some [p1; p2; p3]) (Some ∅) (Some []) None in
  let Rn := mkResult JUndef (Some [nameless]) (Some ∅) (Some []) None in
  let Rp := mkResult JUndef (Some [idOnly; p3]) (Some ∅) (Some []) None in
  let C := mkCache JUndef (Some [p2]) (Some ∅) (Some []) None None in
  (exists M M2,
     mergePlayerStats 5 None R1 = Return M /\
     mergePlayerStats 6 (Some M) R1 = Return M2 /\
     c_updatedAt M = Some 5%Z /\ c_updatedAt M2 = Some 6%Z /\ M2 <> M) /\
  (exists M M2,
     mergePlayerStats 5 None R3 = Return M /\
     mergePlayerStats 5 (Some M) R3 = Return M2 /\
     c_profiles M = Some [p3] /\ c_profiles M2 = Some [p3; p1] /\ M2 <> M) /\
  (exists M M2,
     mergePlayerStats 5 None Rn = Return M /\
     mergePlayerStats 5 (Some M) Rn = Return M2 /\
     c_profiles M = Some [nameless] /\
     c_profiles M2 = Some [nameless; nameless] /\ M2 <> M) /\
  (pairwiseApart [idOnly; p3] = true /\
   exists M M2,
     mergePlayerStats 5 (Some C) Rp = Return M /\
     mergePlayerStats 5 (Some M) Rp = Return M2 /\
     c_profiles M = Some [p3] /\ c_profiles M2 = Some [p3; idOnly] /\ M2 <> M).
Proof.
  intros p1 p2 p3 nameless idOnly R1 R3 Rn Rp C. split; [|split; [|split]].
  - eexists _, _. split; [reflexivity|]. split; [reflexivity|].
    split; [reflexivity|]. split; [reflexivity|].
    intros H. apply (f_equal c_updatedAt) in H. discriminate H.
  - eexists _, _. split; [reflexivity|]. split; [reflexivity|].
    split; [vm_compute; reflexivity|]. split; [vm_compute; reflexivity|].
    intros H. apply (f_equal (fun c => length (default [] (c_profiles c)))) in H.
    vm_compute in H. discriminate H.
  - eexists _, _. split; [reflexivity|]. split; [reflexivity|].
    split; [vm_compute; reflexivity|]. split; [vm_compute; reflexivity|].
    intros H. apply (f_equal (fun c => length (default [] (c_profiles c)))) in H.
    vm_compute in H. discriminate H.
  - split; [vm_compute; reflexivity|].
    eexists _, _. split; [reflexivity|]. split; [reflexivity|].
    split; [vm_compute; reflexivity|]. split; [vm_compute; reflexivity|].
    intros H. apply (f_equal (fun c => length (default [] (c_profiles c)))) in H.
    vm_compute in H. discriminate H.
Qed.

(** ** [removePlayerFromCache] *)

Lemma pretty_N_go_nonempty (x : N) (s : string) :
  s <> "" -> pretty.pretty_N_go x s <> "".
Proof.
  revert s. induction (N.lt_wf_0 x) as [x _ IH]; intros s Hs.
  assert (x = 0 \/ 0 < x)%N as [->|Hpos] by lia.
  - by rewrite pretty.pretty_N_go_0.
  - rewrite pretty.pretty_N_go_step by done. apply IH; [by apply N.div_lt | done].
Qed.

(** [String(v)] of a truthy value is not empty. *)
Lemma toStr_truthy (v : jsval) : truthy v = true -> truthy (JStr (toStr v)) = true.
Proof.
  destruct v as [| |[]|n|s]; simpl; try done.
  intros Hn. apply negb_true_iff, String.eqb_neq.
  destruct n as [|p|p]; simpl in *; [done| |done].
  unfold pretty, pretty_Z, pretty, pretty_positive, pretty, pretty_N.
  rewrite decide_False by done.
  rewrite pretty.pretty_N_go_step by lia. by apply pretty_N_go_nonempty.
Qed.

Lemma truthy_strOrNull (v : jsval) : truthy (strOrNull v) = truthy v.
Proof.
  unfold strOrNull. destruct (truthy v) eqn:Hv; [|done]. by apply toStr_truthy.
Qed.

Lemma toStr_strOrNull (v : jsval) : truthy v = true -> toStr (strOrNull v) = toStr v.
Proof. unfold strOrNull. by intros ->. Qed.

Lemma purgeKey_lookup (k : jsval) (m : gmap string PlayerStats) (label : string) :
  purgeKey k m !! label =
  if truthy k && String.eqb (toStr k) label then None else m !! label.
Proof.
  unfold purgeKey. destruct (truthy k); simpl; [|done].
  destruct (String.eqb (toStr k) label) eqn:He.
  - apply String.eqb_eq in He as <-.
    destruct (m !! toStr k) eqn:Hm; [by rewrite lookup_delete_eq | done].
  - apply String.eqb_neq in He.
    destruct (m !! toStr k) eqn:Hm; [by rewrite lookup_delete_ne | done].
Qed.

Lemma purged_stats_lookup (removed : jsobj) (m : gmap string PlayerStats)
    (label : string) :
  purgeKey (strOrNull (field removed "steamUrl"))
    (purgeKey (strOrNull (field removed "steamId"))
       (purgeKey (jsOr (field removed "displayName") JNull) m)) !! label =
  if bool_decide (label ∈ removalKeys removed) then None else m !! label.
Proof.
  rewrite !purgeKey_lookup, !truthy_strOrNull. unfold removalKeys, jsOr. simpl.
  destruct (truthy (field removed "displayName")) eqn:Hn;
  destruct (truthy (field removed "steamId")) eqn:Hi;
  destruct (truthy (field removed "steamUrl")) eqn:Hu; simpl;
  rewrite ?Hn, ?toStr_strOrNull by done; simpl;
  repeat match goal with
  | |- context [String.eqb ?a label] =>
      let He := fresh "He" in
      destruct (String.eqb a label) eqn:He;
      [apply String.eqb_eq in He | apply String.eqb_neq in He]; simpl
  end;
  try case_bool_decide; first [ done | exfalso; set_solver ].
Qed.

Lemma keepProfile_sameIdentity (removed p : jsobj) :
  (if truthy (strOrNull (field removed "steamId")) && truthy (field p "steamId") &&
      String.eqb (toStr (field p "steamId")) (toStr (strOrNull (field removed "steamId")))
   then false
   else if truthy (strOrNull (field removed "steamUrl")) && truthy (field p "steamUrl") &&
      String.eqb (toStr (field p "steamUrl")) (toStr (strOrNull (field removed "steamUrl")))
   then false else true) = negb (sameIdentity removed p).
Proof.
  unfold sameIdentity. rewrite !truthy_strOrNull.
  rewrite (String.eqb_sym (toStr (field removed "steamId"))).
  rewrite (String.eqb_sym (toStr (field removed "steamUrl"))).
  destruct (truthy (field removed "steamId")) eqn:Hi;
  destruct (truthy (field removed "steamUrl")) eqn:Hu; simpl;
  rewrite ?toStr_strOrNull by done;
  repeat match goal with |- context [if ?b then _ else _] => destruct b; simpl end;
  done.
Qed.

Lemma keepMissing_sameMissing (removed : jsobj) (item : MissingEntry) :
  (if truthy (strOrNull (field removed "steamId")) && truthy (strOrNull (m_steamId item)) &&
      String.eqb (toStr (strOrNull (m_steamId item))) (toStr (strOrNull (field removed "steamId")))
   then false
   else if truthy (strOrNull (field removed "steamUrl")) && truthy (strOrNull (m_steamUrl item)) &&
      String.eqb (toStr (strOrNull (m_steamUrl item))) (toStr (strOrNull (field removed "steamUrl")))
   then false else true) = negb (sameMissing removed item).
Proof.
  unfold sameMissing. rewrite !truthy_strOrNull.
  destruct (truthy (field removed "steamId")) eqn:Hi;
  destruct (truthy (field removed "steamUrl")) eqn:Hu;
  destruct (truthy (m_steamId item)) eqn:Hmi;
  destruct (truthy (m_steamUrl item)) eqn:Hmu; simpl;
  rewrite ?toStr_strOrNull by done;
  repeat match goal with |- context [if ?b then _ else _] => destruct b; simpl end;
  done.
Qed.

(** C5, as amended.  In the cache of every server of the store, the removal
    leaves the profiles that are not the removed player's (by steamId or
    steamUrl equality), the missing entries that are not theirs, and, in
    every tab, the stat entries under every key other than the removed
    player's display name, steamId and steamUrl, each with the body it had;
    the entries under those three keys are gone, whoever they were read
    for.  Metrics and column maps stay. *)
Theorem remove_purges_player_in_every_cache
    (clock : string -> Z) (servers : gmap string ServerCache)
    (removed : jsobj) (name : string) (cache : ServerCache) :
  servers !! name = Some cache ->
  exists cache',
    removeFromStore clock servers removed !! name = Some cache' /\
    c_profiles cache' =
      Some (List.filter (fun p => negb (sameIdentity removed p))
                        (default [] (c_profiles cache))) /\
    c_missing cache' =
      Some (List.filter (fun item => negb (sameMissing removed item))
                        (default [] (c_missing cache))) /\
    forall tabKey,
      match tabOf (c_tabs cache) tabKey with
      | Some tab =>
          exists tab',
            tabOf (c_tabs cache') tabKey = Some tab' /\
            metrics tab' = metrics tab /\ columnMap tab' = columnMap tab /\
            forall label,
              default ∅ (stats tab') !! label =
              if bool_decide (label ∈ removalKeys removed) then None
              else default ∅ (stats tab) !! label
      | None => tabOf (c_tabs cache') tabKey = None
      end.
Proof.
  intros Hname. unfold removeFromStore. rewrite map_lookup_imap, Hname. simpl.
  eexists. split; [reflexivity|]. simpl. split; [|split].
  - f_equal. apply List.filter_ext. intros p. apply keepProfile_sameIdentity.
  - f_equal. apply List.filter_ext. intros item. apply keepMissing_sameMissing.
  - intros tabKey. unfold tabOf. destruct (c_tabs cache) as [tabs|]; simpl; [|done].
    rewrite lookup_fmap. destruct (tabs !! tabKey) as [tab|]; simpl; [|done].
    eexists. split; [reflexivity|]. simpl. repeat split.
    intros label. apply purged_stats_lookup.
Qed.

Lemma remove_purges_player_in_every_cache_witness :
  let body (n : Z) : PlayerStats := {[ "PvP Kills" := ofZ n ]} in
  let ann : jsobj := {[ "steamId" := JStr "76561198000000001"; "displayName" := JStr "Ann" ]} in
  let bob : jsobj := {[ "steamId" := JStr "76561198000000002"; "displayName" := JStr "Bob" ]} in
  let tab := mkTab (Some ["PvP Kills"]) (Some {[ "Ann" := body 3%Z; "Bob" := body 9%Z ]}) None in
  let cache := mkCache (JStr SERVER_NAME) (Some [ann; bob]) (Some {[ "pvp" := tab ]}) (Some []) None None in
  exists cache',
    removeFromStore (fun _ => 7%Z) {[ SERVER_NAME := cache ]} ann !! SERVER_NAME = Some cache' /\
    c_profiles cache' = Some [bob] /\
    exists tab',
      tabOf (c_tabs cache') "pvp" = Some tab' /\
      default ∅ (stats tab') !! "Ann" = None /\
      default ∅ (stats tab') !! "Bob" = Some (body 9%Z).
Proof.
  intros body ann bob tab cache.
  assert (({[ SERVER_NAME := cache ]} : gmap string ServerCache) !! SERVER_NAME = Some cache)
    as Hname by apply lookup_singleton_eq.
  destruct (remove_purges_player_in_every_cache (fun _ => 7%Z) {[ SERVER_NAME := cache ]}
              ann SERVER_NAME cache Hname)
    as (cache' & Hc & Hp & _ & Htabs).
  exists cache'. split; [exact Hc|]. split; [rewrite Hp; vm_compute; reflexivity|].
  specialize (Htabs "pvp"). destruct Htabs as (tab' & Ht & _ & _ & Hstats).
  exists tab'. split; [exact Ht|]. split.
  - rewrite (Hstats "Ann"). vm_compute. reflexivity.
  - rewrite (Hstats "Bob"). vm_compute. reflexivity.
Defined.

(** C5 as stated fails: stat entries are told apart by their key alone.  Two
    tracked players are both shown as Bob; the one entry under that name
    holds what was read for the second of them.  Removing the first, whom
    the second matches by neither steamId nor steamUrl, keeps the second's
    profile and deletes that entry. *)
Lemma remove_namesake_counterexample :
  let body (n : Z) : PlayerStats := {[ "PvP Kills" := ofZ n ]} in
  let bob1 : jsobj := {[ "steamId" := JStr "76561198000000001"; "displayName" := JStr "Bob" ]} in
  let bob2 : jsobj := {[ "steamId" := JStr "76561198000000002"; "displayName" := JStr "Bob" ]} in
  let tab := mkTab (Some ["PvP Kills"]) (Some {[ "Bob" := body 9%Z ]}) None in
  let cache := mkCache (JStr SERVER_NAME) (Some [bob1; bob2]) (Some {[ "pvp" := tab ]}) (Some []) None None in
  sameIdentity bob1 bob2 = false /\
  default ∅ (stats tab) !! toStr (field bob2 "displayName") = Some (body 9%Z) /\
  exists cache' tab',
    removeFromStore (fun _ => 7%Z) {[ SERVER_NAME := cache ]} bob1 !! SERVER_NAME = Some cache' /\
    c_profiles cache' = Some [bob2] /\
    tabOf (c_tabs cache') "pvp" = Some tab' /\
    default ∅ (stats tab') !! toStr (field bob2 "displayName") = None.
Proof.
  intros body bob1 bob2 tab cache.
  split; [vm_compute; reflexivity|]. split; [vm_compute; reflexivity|].
  eexists _, _. split; [|split; [|split]].
  - unfold removeFromStore. rewrite map_lookup_imap.
    rewrite lookup_singleton_eq. simpl. reflexivity.
  - vm_compute. reflexivity.
  - vm_compute. reflexivity.
  - vm_compute. reflexivity.
Qed.

(** ** [normalizeServerName] *)

Section ServerNameFacts.
Variable trim : string -> string.
Variable toLowerCase : string -> string.

Lemma normalizeServerName_unfold (serverName : jsval) :
  normalizeServerName trim toLowerCase serverName =
  if truthy serverName then
    default SERVER_NAME
      (find (fun name => String.eqb (toLowerCase name)
                                    (toLowerCase (trim (toStr serverName))))
            ALLOWED_SERVERS)
  else SERVER_NAME.
Proof.
  unfold normalizeServerName. destruct (truthy serverName); simpl; [|done].
  repeat match goal with |- context [if ?b then _ else _] => destruct b; simpl end;
  done.
Qed.

End ServerNameFacts.

Example normalizeServerName_biweekly :
  normalizeServerName trimAscii toLowerAscii (JStr "  us BIWEEKLY (premium) ")
  = "US Biweekly (Premium)".
Proof. reflexivity. Qed.

Example normalizeServerName_unknown :
  normalizeServerName trimAscii toLowerAscii (JStr "EU Weekly") = "US Monthly (Premium)" /\
  normalizeServerName trimAscii toLowerAscii JNull = "US Monthly (Premium)" /\
  normalizeServerName trimAscii toLowerAscii (JStr "") = "US Monthly (Premium)".
Proof. repeat split. Qed.

(** The loop of the removal keeps the keys of the store. *)
Lemma removeFromStore_dom clock (servers : gmap string ServerCache) removed :
  dom (removeFromStore clock servers removed) = dom servers.
Proof.
  apply set_eq. intros name. rewrite !elem_of_dom. unfold removeFromStore.
  rewrite map_lookup_imap. destruct (servers !! name); simpl; [|done].
  split; intros _; eauto.
Qed.

(** Starting from a store filed under allow-listed names only, the writes of
    the routes keep it so: [setServerCache] under a normalised name, and the
    removal, which rewrites the caches under the keys the store has. *)
Lemma allowListed_preserved trim toLowerCase clock
    (servers : gmap string ServerCache) serverName cache removed :
  allowListed servers ->
  allowListed (setServerCache (Some servers)
                 (normalizeServerName trim toLowerCase serverName) cache) /\
  allowListed (removeFromStore clock servers removed).
Proof.
  intros Hok. split; intros name.
  - unfold setServerCache. simpl. rewrite dom_insert_L.
    rewrite elem_of_union, elem_of_singleton. intros [->|Hin]; [|by apply Hok].
    rewrite normalizeServerName_unfold. unfold ALLOWED_SERVERS, SERVER_NAME. simpl.
    destruct (truthy serverName); [|set_solver].
    repeat match goal with |- context [if ?b then _ else _] => destruct b; simpl end;
    set_solver.
  - rewrite removeFromStore_dom. apply Hok.
Qed.

(** ** The retry envelope *)

Lemma waitMsFor_default_schedule :
  waitMsFor RETRY_BACKOFFS_MS 1 = 250%Z /\
  waitMsFor RETRY_BACKOFFS_MS 2 = 500%Z /\
  forall attempt, 3 <= attempt -> waitMsFor RETRY_BACKOFFS_MS attempt = 750%Z.
Proof.
  repeat split. intros attempt Hge.
  destruct attempt as [|[|[|[|n]]]]; try lia; reflexivity.
Qed.

Section RetryFacts.
Context {W A : Type}.
Variable delayMs : Z -> W -> W.
Variable warn : string -> W -> W.
Variable action : W -> W * completion A.

(** From attempt number [attempt] on, the envelope calls the action at least
    once and at most as often as attempts are left, and between two calls it
    awaits the delay scheduled for the attempt that failed. *)
Lemma retryLoop_bounds (options : RetryOptions) (fuel attempt : nat) (w : W) :
  fuel + attempt = attempts options + 1 -> 1 <= fuel ->
  let run := retryLoop delayMs warn action options fuel attempt w in
  1 <= run_calls run <= fuel /\
  run_waits run =
    map (waitMsFor (backoffs options)) (seq attempt (run_calls run - 1)).
Proof.
  revert attempt w. induction fuel as [|fuel IH]; intros attempt w Hfuel Hpos; [lia|].
  simpl. destruct (action w) as [w1 [a|err]]; simpl.
  - split; [lia | done].
  - destruct (negb (isRetryableDetachError err)); simpl.
    { split; [lia | done]. }
    destruct (attempt =? attempts options)%nat eqn:Hlast; simpl.
    { split; [lia | done]. }
    apply Nat.eqb_neq in Hlast.
    destruct (IH (S attempt)
                 (delayMs (waitMsFor (backoffs options) attempt)
                          (warn (retryMessage options attempt) w1)))
      as [Hcalls Hwaits]; [lia..|].
    split; [lia|]. rewrite Hwaits, Nat.sub_0_r.
    destruct (run_calls _) as [|n]; [lia|]. simpl. by rewrite Nat.sub_0_r.
Qed.

(** C7. The envelope with its defaults, three attempts and the backoffs
    250, 500, 750 ms: it calls the action at most three times and awaits
    250 ms after a first and 500 ms after a second failure (the schedule
    stays at 750 ms from the third failure on, which three attempts never
    reach).  A result ends it with that result; an error that is not
    transient ends it with that error at once; a transient error on the
    first or second attempt is retried; whatever the third attempt gives,
    result or error, is what the envelope gives. *)
Theorem withDetachRetry_three_attempts (name label : string) (w0 : W) :
  let options := mkRetryOptions name label 3 RETRY_BACKOFFS_MS in
  let run := withDetachRetry delayMs warn action options w0 in
  let returned (r : completion A) : completion (option A) :=
    match r with Return a => Return (Some a) | Throw err => Throw err end in
  1 <= run_calls run <= 3 /\
  run_waits run = take (run_calls run - 1) [250; 500]%Z /\
  (forall attempt, 3 <= attempt -> waitMsFor (backoffs options) attempt = 750%Z) /\
  match action w0 with
  | (w1, Return a) => run = mkRun w1 1 [] (Return (Some a))
  | (w1, Throw err1) =>
      if negb (isRetryableDetachError err1)
      then run = mkRun w1 1 [] (Throw err1)
      else
        match action (delayMs 250 (warn (retryMessage options 1) w1)) with
        | (w2, Return a) => run = mkRun w2 2 [250%Z] (Return (Some a))
        | (w2, Throw err2) =>
            if negb (isRetryableDetachError err2)
            then run = mkRun w2 2 [250%Z] (Throw err2)
            else
              match action (delayMs 500 (warn (retryMessage options 2) w2)) with
              | (w3, r3) => run = mkRun w3 3 [250; 500]%Z (returned r3)
              end
        end
  end.
Proof.
  intros options run returned.
  pose proof (retryLoop_bounds options 3 1 w0 eq_refl ltac:(lia)) as Hb.
  cbv zeta in Hb. destruct Hb as [Hcalls Hwaits].
  subst run. unfold withDetachRetry. change (attempts options) with 3.
  split; [exact Hcalls|]. split.
  { rewrite Hwaits.
    destruct (run_calls _) as [|[|[|[|n]]]]; [lia|done..|lia]. }
  split; [apply waitMsFor_default_schedule|].
  clear Hcalls Hwaits. simpl.
  destruct (action w0) as [w1 [a|err1]]; [done|].
  destruct (isRetryableDetachError err1); simpl; [|done].
  change (waitMsFor RETRY_BACKOFFS_MS 1) with 250%Z.
  destruct (action (delayMs 250 _)) as [w2 [a|err2]]; [done|].
  destruct (isRetryableDetachError err2); simpl; [|done].
  change (waitMsFor RETRY_BACKOFFS_MS 2) with 500%Z.
  destruct (action (delayMs 500 _)) as [w3 [a|err3]]; [done|].
  simpl. by rewrite orb_true_r.
Qed.
End RetryFacts.

(** An action that fails twice with a detached element and then succeeds: the
    world counts the calls. *)
Example withDetachRetry_succeeds_on_third :
  let detached := {| err_name := "Error";
                     err_message := "locator.click: Element is not attached to the DOM" |} in
  let action (calls : nat) : nat * completion string :=
    (S calls, if (calls <? 2)%nat then Throw detached else Return "clicked") in
  withDetachRetry (fun _ w => w) (fun _ w => w) action defaultRetryOptions 0
  = mkRun 3 3 [250; 500]%Z (Return (Some "clicked")).
Proof. reflexivity. Qed.

Example withDetachRetry_gives_up :
  let closed := {| err_name := "Error"; err_message := "Target closed" |} in
  let timeout := {| err_name := "TimeoutError"; err_message := "Timeout 10000ms exceeded" |} in
  withDetachRetry (fun _ w => w) (fun _ w => w)
    (fun calls : nat => (S calls, Throw (A := string) closed)) defaultRetryOptions 0
  = mkRun 3 3 [250; 500]%Z (Throw closed) /\
  withDetachRetry (fun _ w => w) (fun _ w => w)
    (fun calls : nat => (S calls, Throw (A := string) timeout)) defaultRetryOptions 0
  = mkRun 1 1 [] (Throw timeout).
Proof. split; reflexivity. Qed.

(** ** [extractStatsFromRow] *)

Lemma recomputeHeadshotPercent_other (labels : list string) (raw : PlayerStats)
    (label : string) :
  label <> "Headshot %" ->
  recomputeHeadshotPercent labels raw !! label = raw !! label.
Proof.
  intros Hne. unfold recomputeHeadshotPercent.
  destruct (_ && _ && _); [|done].
  destruct (raw !! "Headshots"), (raw !! "Shots Hit"); try done.
  by rewrite lookup_insert_ne.
Qed.

Lemma recomputeHeadshotPercent_stands (labels : list string) (raw : PlayerStats) :
  bool_decide ("Headshot %" ∈ labels) && gtZero (raw !! "Shots Hit") &&
    geZero (raw !! "Headshots") = false ->
  recomputeHeadshotPercent labels raw = raw.
Proof. unfold recomputeHeadshotPercent. by intros ->. Qed.

Lemma recomputeHeadshotPercent_overrides (labels : list string) (raw : PlayerStats)
    (headshots shotsHit : num) :
  "Headshot %" ∈ labels ->
  raw !! "Shots Hit" = Some shotsHit -> fltb fzero shotsHit = true ->
  raw !! "Headshots" = Some headshots -> fleb fzero headshots = true ->
  recomputeHeadshotPercent labels raw !! "Headshot %" =
  Some (headshotPercent headshots shotsHit).
Proof.
  intros Hin Hs Hpos Hh Hnonneg. unfold recomputeHeadshotPercent.
  rewrite Hs, Hh. simpl. rewrite Hpos, Hnonneg, bool_decide_eq_true_2 by done.
  simpl. by rewrite lookup_insert_eq.
Qed.

Section ExtractFacts.
Variable Page : Type.
Variable getNumeric : nat -> Page -> Page * completion num.
Variable getTooltipNumber : nat -> string -> Page -> Page * option num.

(** The loop over the labels leaves a value under every label. *)
Lemma readLabels_reads_all (columnMap : ColumnMap) (labels : list string)
    (acc : PlayerStats) (page page1 : Page) (raw : PlayerStats) :
  readLabels Page getNumeric getTooltipNumber columnMap labels acc page
    = (page1, Return raw) ->
  forall label, label ∈ labels \/ is_Some (acc !! label) -> is_Some (raw !! label).
Proof.
  revert acc page. induction labels as [|l labels IH]; intros acc page Hread label Hin.
  - simpl in Hread. injection Hread as _ <-. destruct Hin as [Hin|Hin]; [|done].
    by apply elem_of_nil in Hin.
  - simpl in Hread.
    destruct (getCol Page getNumeric getTooltipNumber columnMap l page) as [p1 [v|err]];
      [|done].
    apply (IH _ _ Hread). destruct Hin as [Hin|Hin].
    + apply elem_of_cons in Hin as [->|Hin]; [|by left].
      right. by rewrite lookup_insert_eq.
    + right. destruct (decide (l = label)) as [->|Hne].
      * by rewrite lookup_insert_eq.
      * by rewrite lookup_insert_ne.
Qed.

(** C8, as amended.  Let [raw] be the values the loop over the labels read
    from the row (tooltip or cell).  Every metric other than 'Headshot %'
    keeps its value.  When the labels include 'Headshot %', and 'Shots Hit'
    was read as a number greater than 0, and 'Headshots' was read as a number
    that is at least 0 (so it was read, and is not NaN), the final
    'Headshot %' is [Number((Headshots / ShotsHit * 100).toFixed(2))],
    whatever was read for it.  In every other case (Shots Hit 0, NaN or not
    read; Headshots NaN or not read) the record is as read.  Headshots 50 and
    Shots Hit 200 give 25. *)
Theorem extract_recomputes_headshot_percent
    (columnMap : ColumnMap) (metricLabels : option (list string))
    (page page1 : Page) (final : PlayerStats) :
  extractStatsFromRow Page getNumeric getTooltipNumber columnMap metricLabels page
    = (page1, Return final) ->
  let labels :=
    match metricLabels with
    | Some (label :: rest) => label :: rest
    | _ => map fst columnMap
    end in
  exists raw,
    readLabels Page getNumeric getTooltipNumber columnMap labels ∅ page
      = (page1, Return raw) /\
    (forall label, label ∈ labels -> is_Some (raw !! label)) /\
    (forall label, label <> "Headshot %" -> final !! label = raw !! label) /\
    (forall headshots shotsHit,
       "Headshot %" ∈ labels ->
       raw !! "Shots Hit" = Some shotsHit -> fltb fzero shotsHit = true ->
       raw !! "Headshots" = Some headshots -> fleb fzero headshots = true ->
       final !! "Headshot %" = Some (headshotPercent headshots shotsHit)) /\
    (gtZero (raw !! "Shots Hit") = false \/ geZero (raw !! "Headshots") = false ->
     final = raw) /\
    headshotPercent (ofZ 50) (ofZ 200) = ofZ 25.
Proof.
  intros Hextract labels. unfold extractStatsFromRow in Hextract.
  fold labels in Hextract.
  destruct (readLabels Page getNumeric getTooltipNumber columnMap labels ∅ page)
    as [p1 [raw|err]] eqn:Hread; [|done].
  injection Hextract as -> <-. exists raw. split; [done|]. split; [|split; [|split; [|split]]].
  - intros label Hin. eapply readLabels_reads_all; [exact Hread | by left].
  - intros label Hne. by apply recomputeHeadshotPercent_other.
  - intros headshots shotsHit. apply recomputeHeadshotPercent_overrides.
  - intros Hguard. apply recomputeHeadshotPercent_stands.
    destruct Hguard as [->| ->]; by rewrite ?andb_false_r.
  - vm_compute. reflexivity.
Qed.
End ExtractFacts.

Lemma extract_recomputes_headshot_percent_witness :
  let getNumeric (idx : nat) (page : unit) : unit * completion num :=
    (page, Return (match idx with 0 => ofZ 50 | 1 => ofZ 200 | _ => fzero end)) in
  let getTooltipNumber (idx : nat) (label : string) (page : unit) : unit * option num :=
    (page, Some (ofZ 30)) in
  let columnMap := [("Headshots", 0); ("Shots Hit", 1); ("Headshot %", 2)] in
  exists final,
    extractStatsFromRow unit getNumeric getTooltipNumber columnMap None tt
      = (tt, Return final) /\
    final !! "Headshots" = Some (ofZ 50) /\
    final !! "Shots Hit" = Some (ofZ 200) /\
    final !! "Headshot %" = Some (ofZ 25).
Proof.
  intros getNumeric getTooltipNumber columnMap.
  eexists. split; [reflexivity|].
  destruct (extract_recomputes_headshot_percent unit getNumeric getTooltipNumber
              columnMap None tt tt _ eq_refl)
    as (raw & Hread & _ & Hother & Hover & _ & H25).
  injection Hread as <-.
  split; [by rewrite Hother|]. split; [by rewrite Hother|].
  rewrite (Hover (ofZ 50) (ofZ 200)); [by rewrite H25|set_solver|done..].
Defined.

(** C8 as stated fails: with Shots Hit 200 the tooltip's 30 stands when
    Headshots is not among the metrics read, and when its cell does not read
    as a number. *)
Lemma extract_headshot_percent_counterexample :
  let getNumeric (idx : nat) (page : unit) : unit * completion num :=
    (page, Return (match idx with 0 => S754_nan | 1 => ofZ 200 | _ => fzero end)) in
  let getTooltipNumber (idx : nat) (label : string) (page : unit) : unit * option num :=
    (page, Some (ofZ 30)) in
  (exists final,
     extractStatsFromRow unit getNumeric getTooltipNumber
       [("Shots Hit", 1); ("Headshot %", 2)] None tt = (tt, Return final) /\
     final !! "Shots Hit" = Some (ofZ 200) /\ fltb fzero (ofZ 200) = true /\
     final !! "Headshots" = None /\
     final !! "Headshot %" = Some (ofZ 30)) /\
  (exists final,
     extractStatsFromRow unit getNumeric getTooltipNumber
       [("Headshots", 0); ("Shots Hit", 1); ("Headshot %", 2)]
       (Some ["Headshots"; "Shots Hit"; "Headshot %"]) tt = (tt, Return final) /\
     final !! "Shots Hit" = Some (ofZ 200) /\
     final !! "Headshots" = Some S754_nan /\
     final !! "Headshot %" = Some (ofZ 30) /\
     headshotPercent S754_nan (ofZ 200) = S754_nan /\
     ofZ 30 <> headshotPercent S754_nan (ofZ 200)).
Proof.
  intros getNumeric getTooltipNumber. split.
  - eexists. split; [reflexivity|]. repeat split; vm_compute; reflexivity.
  - eexists. split; [reflexivity|].
    repeat split; try (vm_compute; reflexivity). vm_compute. discriminate.
Qed.

(** ** [buildResponseFromCache] *)

Lemma field_insert_ne (o : jsobj) (k k' : string) (v : jsval) :
  k <> k' -> field (<[k := v]> o) k' = field o k'.
Proof. intros Hne. unfold field. by rewrite lookup_insert_ne. Qed.

Lemma field_insert_eq (o : jsobj) (k : string) (v : jsval) :
  field (<[k := v]> o) k = v.
Proof. unfold field. by rewrite lookup_insert_eq. Qed.

Section ReconcileFacts.
Variable urlPathname : string -> option string.

Lemma derivedId_fields (p p' : jsobj) :
  field p "steamId" = field p' "steamId" ->
  field p "steamUrl" = field p' "steamUrl" ->
  derivedId urlPathname p = derivedId urlPathname p'.
Proof. unfold derivedId. by intros -> ->. Qed.

(** Every profile handed to [attachPlayerIds] and then given [needsSteam64]
    is in the outcome, with nothing changed but the properties added. *)
Lemma decorated_profile (profiles players : list jsobj) (p : jsobj) :
  In p profiles ->
  exists q, In q (map withNeedsSteam64 (attachPlayerIds profiles players)) /\
            forall k, k ∉ responseOnlyKeys -> field q k = field p k.
Proof.
  intros Hin. unfold attachPlayerIds.
  set (attach := fun profile : jsobj => match lookupBoth _ _ profile with
                                        | Some (index, player) => _
                                        | None => profile
                                        end).
  exists (withNeedsSteam64 (attach p)). split.
  - apply in_map, in_map, Hin.
  - intros k Hk. unfold responseOnlyKeys in Hk.
    assert (k <> "playerId" /\ k <> "storedSteamUrl" /\ k <> "storedSteamId" /\
            k <> "needsSteam64") as (H1 & H2 & H3 & H4) by set_solver.
    unfold withNeedsSteam64. rewrite field_insert_ne by done.
    unfold attach. destruct (lookupBoth _ _ p) as [[index player]|]; [|done].
    by rewrite !field_insert_ne.
Qed.

Lemma placeholder_fields (player : jsobj) :
  field (placeholder player) "steamUrl" = field player "steamUrl" /\
  field (placeholder player) "steamId" = field player "steamId" /\
  field (placeholder player) "displayName" =
    jsOr (jsOr (field player "displayName") (field player "steamId"))
         (field player "steamUrl") /\
  field (placeholder player) "fallbackName" =
    jsOr (jsOr (field player "displayName") (field player "steamId"))
         (field player "steamUrl") /\
  field (placeholder player) "avatarUrl" =
    jsOr (field player "avatarUrl") (JStr FALLBACK_AVATAR).
Proof.
  unfold placeholder.
  repeat split;
    repeat first [ apply field_insert_eq
                 | rewrite field_insert_ne by done
                 | (unfold field; rewrite lookup_singleton_eq; reflexivity) ].
Qed.

(** The roster players the response does cover.  For a cache and a roster,
    take a roster player from
    which an id can be derived: a truthy steamId, or else the last path
    segment of its steamUrl.  The response has a profile with that id.  When
    no cache profile merged with the roster carries that id, the response has
    the player's placeholder: the player's steamUrl and steamId, the display
    name [displayName || steamId || steamUrl], and the avatar
    [avatarUrl || FALLBACK_AVATAR]. *)
Theorem response_covers_identified_players
    (cache : ServerCache) (players : list jsobj) (player : jsobj) :
  player ∈ players ->
  truthy (derivedId urlPathname player) = true ->
  let merged := mergeCachedProfiles (Some (default [] (c_profiles cache))) players in
  let mergedIds :=
    map toStr (List.filter truthy (map (derivedId urlPathname) merged)) in
  exists response,
    buildResponseFromCache urlPathname (Some cache) players = Some response /\
    (exists q, q ∈ resp_profiles response /\
               toStr (derivedId urlPathname q) = toStr (derivedId urlPathname player)) /\
    (toStr (derivedId urlPathname player) ∉ mergedIds ->
     exists q, q ∈ resp_profiles response /\
       field q "steamUrl" = field player "steamUrl" /\
       field q "steamId" = field player "steamId" /\
       field q "displayName" =
         jsOr (jsOr (field player "displayName") (field player "steamId"))
              (field player "steamUrl") /\
       field q "avatarUrl" = jsOr (field player "avatarUrl") (JStr FALLBACK_AVATAR)).
Proof.
  intros Hin Hid merged mergedIds. eexists. split; [reflexivity|]. simpl.
  fold merged.
  assert (forall k, k = "steamUrl" \/ k = "steamId" \/ k = "displayName" \/
                    k = "avatarUrl" -> k ∉ responseOnlyKeys) as Hkeys.
  { intros k Hk. unfold responseOnlyKeys. set_solver. }
  assert (toStr (derivedId urlPathname player) ∉ mergedIds ->
          In (placeholder player) (merged ++ missingProfiles urlPathname merged players))
    as Hplace.
  { intros Hnot. apply in_or_app. right. unfold missingProfiles. fold mergedIds.
    apply in_map, filter_In. split; [by apply list_elem_of_In|].
    rewrite Hid. simpl. by rewrite bool_decide_eq_false_2. }
  split.
  - destruct (decide (toStr (derivedId urlPathname player) ∈ mergedIds)) as [Hyes|Hno].
    + unfold mergedIds in Hyes. apply list_elem_of_In, in_map_iff in Hyes.
      destruct Hyes as (v & Hv & Hyes). apply filter_In in Hyes as [Hyes _].
      apply in_map_iff in Hyes as (m & <- & Hm).
      destruct (decorated_profile (merged ++ missingProfiles urlPathname merged players)
                  players m) as (q & Hq & Hfields).
      { apply in_or_app. by left. }
      exists q. split; [by apply list_elem_of_In|]. rewrite <- Hv. f_equal.
      apply derivedId_fields; apply Hfields, Hkeys; auto.
    + destruct (decorated_profile _ players _ (Hplace Hno)) as (q & Hq & Hfields).
      exists q. split; [by apply list_elem_of_In|]. f_equal.
      destruct (placeholder_fields player) as (Hu & Hi & _).
      apply derivedId_fields.
      * rewrite Hfields by (apply Hkeys; auto). exact Hi.
      * rewrite Hfields by (apply Hkeys; auto). exact Hu.
  - intros Hno.
    destruct (decorated_profile _ players _ (Hplace Hno)) as (q & Hq & Hfields).
    destruct (placeholder_fields player) as (Hu & Hi & Hn & _ & Ha).
    exists q. split; [by apply list_elem_of_In|].
    rewrite !Hfields by (apply Hkeys; auto). done.
Qed.
End ReconcileFacts.

Lemma response_covers_identified_players_witness :
  let ann : jsobj := {[ "steamId" := JStr "76561198000000001"; "steamUrl" := JStr "https://steamcommunity.com/profiles/76561198000000001"; "displayName" := JStr "Ann"; "avatarUrl" := JStr "https://avatars.example/ann.jpg" ]} in
  let bob : jsobj := {[ "steamId" := JNull; "steamUrl" := JStr "https://steamcommunity.com/id/bob/"; "displayName" := JNull; "avatarUrl" := JNull ]} in
  let cache := mkCache (JStr SERVER_NAME) (Some [ann]) (Some ∅) (Some []) None (Some 5%Z) in
  derivedId plainHttpPathname bob = JStr "bob" /\
  exists response,
    buildResponseFromCache plainHttpPathname (Some cache) [ann; bob] = Some response /\
    length (resp_profiles response) = 2 /\
    exists q, q ∈ resp_profiles response /\
      field q "steamUrl" = JStr "https://steamcommunity.com/id/bob/" /\
      field q "steamId" = JNull /\
      field q "displayName" = JStr "https://steamcommunity.com/id/bob/" /\
      field q "avatarUrl" = JStr FALLBACK_AVATAR.
Proof.
  intros ann bob cache. split; [vm_compute; reflexivity|].
  destruct (response_covers_identified_players plainHttpPathname cache [ann; bob] bob)
    as (response & Hresp & _ & Hplace).
  { set_solver. }
  { vm_compute. reflexivity. }
  exists response. split; [exact Hresp|]. split.
  { injection Hresp as <-. vm_compute. reflexivity. }
  destruct Hplace as (q & Hq & Hu & Hi & Hn & Ha).
  { vm_compute. intros Hin. apply list_elem_of_In in Hin.
    destruct Hin as [Hin|[]]. discriminate Hin. }
  exists q. split; [exact Hq|]. rewrite Hu, Hi, Hn, Ha. repeat split.
Defined.

(** A roster of one player that the response leaves out.  A roster player
    added under a steamUrl that is no
    URL has no steamId and no id [steamIdFromUrl] can derive; with a cache
    that holds no profile for it, the response has no profile at all, under
    the stand-in parser and under every parser that rejects the string. *)
Lemma response_drops_player_counterexample :
  let ann : jsobj := {[ "steamUrl" := JStr "ann"; "steamId" := JNull; "displayName" := JNull; "avatarUrl" := JNull ]} in
  let cache := mkCache (JStr SERVER_NAME) (Some []) (Some ∅) (Some []) None (Some 5%Z) in
  (exists response,
     buildResponseFromCache plainHttpPathname (Some cache) [ann] = Some response /\
     resp_profiles response = []) /\
  ~ (exists urlPathname response,
       urlPathname "ann" = None /\
       buildResponseFromCache urlPathname (Some cache) [ann] = Some response /\
       resp_profiles response <> []).
Proof.
  intros ann cache. split.
  - eexists. split; [reflexivity|]. vm_compute. reflexivity.
  - intros (urlPathname & response & Hreject & Hresp & Hsome).
    apply Hsome. injection Hresp as <-. simpl.
    unfold missingProfiles, derivedId, steamIdFromUrl. simpl.
    assert (field ann "steamId" = JNull) as -> by (vm_compute; reflexivity).
    assert (field ann "steamUrl" = JStr "ann") as -> by (vm_compute; reflexivity).
    unfold jsOr. simpl. rewrite Hreject. simpl. reflexivity.
Qed.

(** ** The traversals of [scrapePlayers] *)

Lemma pvpIndexes_app (ls : list Lookup) (l : Lookup) :
  pvpIndexes (ls ++ [l]) =
  pvpIndexes ls ++ (if String.eqb (l_tab l) "pvp" then [l_index l] else []).
Proof.
  unfold pvpIndexes. rewrite List.filter_app, map_app. simpl.
  by destruct (String.eqb (l_tab l) "pvp").
Qed.

Lemma elem_of_pvpIndexes (ls : list Lookup) (j : nat) :
  j ∈ pvpIndexes ls <-> exists r, mkLookup "pvp" j r ∈ ls.
Proof.
  unfold pvpIndexes. rewrite list_elem_of_In, in_map_iff. split.
  - intros ([t i r] & Hj & Hin). apply filter_In in Hin as [Hin Ht].
    simpl in *. apply String.eqb_eq in Ht. subst. exists r. by apply list_elem_of_In.
  - intros (r & Hin). exists (mkLookup "pvp" j r). split; [done|].
    apply filter_In. split; [by apply list_elem_of_In | done].
Qed.

(** A pvp lookup is the only one of its player. *)
Lemma pvp_lookup_unique (ls : list Lookup) (j : nat) (r r' : completion PlayerStats) :
  NoDup (pvpIndexes ls) ->
  mkLookup "pvp" j r ∈ ls -> mkLookup "pvp" j r' ∈ ls -> r = r'.
Proof.
  induction ls as [|l ls IH]; intros Hnd Hr Hr'.
  - by apply elem_of_nil in Hr.
  - unfold pvpIndexes in Hnd. simpl in Hnd.
    apply elem_of_cons in Hr as [Hr|Hr]; apply elem_of_cons in Hr' as [Hr'|Hr'].
    + congruence.
    + subst l. simpl in Hnd. apply NoDup_cons in Hnd as [Hnot _].
      exfalso. apply Hnot. apply elem_of_pvpIndexes. eauto.
    + subst l. simpl in Hnd. apply NoDup_cons in Hnd as [Hnot _].
      exfalso. apply Hnot. apply elem_of_pvpIndexes. eauto.
    + apply IH; [|done..]. destruct (String.eqb (l_tab l) "pvp"); [|done].
      simpl in Hnd. by apply NoDup_cons in Hnd as [_ Hnd].
Qed.

Section ScrapeFacts.
Variable Page : Type.
Variable prepareTab : string -> Page -> Page * completion (ColumnMap * list string).
Variable resetTable : Page -> Page * completion unit.
Variable getPlayerStats :
  jsobj -> ColumnMap -> list string -> Page -> Page * completion PlayerStats.
Variable profiles : list jsobj.

Abbreviation State := (ScrapeState Page).
Abbreviation lookupsOf := (lookups Page).
Abbreviation missingOfState := (missing Page).
Abbreviation indexesOf := (missingIndexes Page).
Abbreviation tabsOf := (tabs Page).

(** The ledger after one more call of [getPlayerStats]. *)
Lemma ledger_extend (st st' : State) (tabKey : string) (j : nat)
    (profile : jsobj) (r : completion PlayerStats) :
  profiles !! j = Some profile ->
  ledger Page profiles st ->
  lookupsOf st' = lookupsOf st ++ [mkLookup tabKey j r] ->
  missingOfState st' =
    missingOfState st ++
    match r with
    | Throw err => if String.eqb tabKey "pvp" then [missingEntryOf profile err] else []
    | Return _ => []
    end ->
  indexesOf st' =
    match r with
    | Throw err => if String.eqb tabKey "pvp" then {[j]} ∪ indexesOf st else indexesOf st
    | Return _ => indexesOf st
    end ->
  (tabKey = "pvp" -> j ∉ pvpIndexes (lookupsOf st)) ->
  (tabKey <> "pvp" -> exists v, mkLookup "pvp" j (Return v) ∈ lookupsOf st) ->
  ledger Page profiles st'.
Proof.
  intros Hj [Hidx Hmiss Hfound Honce] Hl Hm Hi Hfresh Hpvp.
  split.
  - intros k. rewrite Hi, Hl. setoid_rewrite elem_of_app.
    setoid_rewrite list_elem_of_singleton.
    destruct r as [v|err].
    + rewrite Hidx. split.
      * intros (e & He). eauto.
      * intros (e & [He|He]); [eauto | discriminate He].
    + destruct (String.eqb tabKey "pvp") eqn:Ht.
      * apply String.eqb_eq in Ht as ->. rewrite elem_of_union, elem_of_singleton, Hidx.
        split.
        -- intros [->|(e & He)]; eauto.
        -- intros (e & [He|He]); [eauto|]. injection He as -> ->. by left.
      * apply String.eqb_neq in Ht. rewrite Hidx. split.
        -- intros (e & He). eauto.
        -- intros (e & [He|He]); [eauto|]. injection He as <- _ _. done.
  - rewrite Hm, Hl, omap_app, Hmiss. f_equal. simpl. unfold missingOf. simpl.
    rewrite Hj. destruct r as [v|err]; [done|].
    by destruct (String.eqb tabKey "pvp").
  - intros l. rewrite Hl. setoid_rewrite elem_of_app.
    setoid_rewrite list_elem_of_singleton.
    intros [Hin| ->] Hne.
    + destruct (Hfound l Hin Hne) as (v & Hv). eauto.
    + simpl in *. destruct (Hpvp Hne) as (v & Hv). eauto.
  - rewrite Hl, pvpIndexes_app. simpl.
    destruct (String.eqb tabKey "pvp") eqn:Ht.
    + apply String.eqb_eq in Ht. apply NoDup_app. split; [done|]. split.
      * intros x Hx Hx'. apply list_elem_of_singleton in Hx' as ->. by apply Hfresh.
      * apply NoDup_singleton.
    + by rewrite app_nil_r.
Qed.

Lemma ledger_same (st st' : State) :
  lookupsOf st' = lookupsOf st -> missingOfState st' = missingOfState st ->
  indexesOf st' = indexesOf st ->
  ledger Page profiles st -> ledger Page profiles st'.
Proof.
  intros Hl Hm Hi [Hidx Hmiss Hfound Honce].
  split; rewrite ?Hl, ?Hm, ?Hi; done.
Qed.

Lemma ledger_initial (p : Page) : ledger Page profiles (initialState Page p).
Proof.
  split; simpl.
  - intros j. split; [set_solver|]. intros (err & Herr). by apply elem_of_nil in Herr.
  - done.
  - intros l Hl. by apply elem_of_nil in Hl.
  - constructor.
Qed.

Lemma sourced_mono (tabKey : string) (found : gmap string PlayerStats)
    (ls ls' : list Lookup) :
  (forall l, l ∈ ls -> l ∈ ls') ->
  sourced profiles tabKey found ls -> sourced profiles tabKey found ls'.
Proof.
  intros Hsub Hs label v Hv. destruct (Hs label v Hv) as (j & p & Hj & Hl & Hin).
  exists j, p. auto.
Qed.

Lemma sourced_empty (tabKey : string) (ls : list Lookup) :
  sourced profiles tabKey ∅ ls.
Proof. intros label v Hv. by rewrite lookup_empty in Hv. Qed.

Lemma sourced_insert (tabKey : string) (found : gmap string PlayerStats)
    (ls : list Lookup) (j : nat) (profile : jsobj) (v : PlayerStats) :
  profiles !! j = Some profile ->
  mkLookup tabKey j (Return v) ∈ ls ->
  sourced profiles tabKey found ls ->
  sourced profiles tabKey (<[toStr (labelOf profile) := v]> found) ls.
Proof.
  intros Hj Hin Hs label w Hw.
  destruct (decide (toStr (labelOf profile) = label)) as [<-|Hne].
  - rewrite lookup_insert_eq in Hw. injection Hw as <-. eauto.
  - rewrite lookup_insert_ne in Hw by done. by apply Hs.
Qed.

Lemma handled_mono (st st' : State) (tabKey : string) (j : nat) :
  (forall l, l ∈ lookupsOf st -> l ∈ lookupsOf st') ->
  indexesOf st ⊆ indexesOf st' ->
  handled Page st tabKey j -> handled Page st' tabKey j.
Proof.
  intros Hl Hi [(r & Hr)|[Hm Hne]]; [left | right]; eauto.
Qed.

(** What a call of [tryPlayer] does. *)
Lemma tryPlayer_cases {A} (tabKey : string) (j : nat) (profile : jsobj)
    (columnMap : ColumnMap) (metricLabels : list string)
    (onStats : PlayerStats -> State -> State * A) (otherwise : A)
    (st st' : State) (a : A) :
  tryPlayer Page getPlayerStats tabKey j profile columnMap metricLabels onStats otherwise st
    = (st', a) ->
  exists p r,
    let seen := lookupsOf st ++ [mkLookup tabKey j r] in
    match r with
    | Return v =>
        onStats v (mkState Page p (tabsOf st) (missingOfState st) (indexesOf st)
                     (tabCache Page st) seen) = (st', a)
    | Throw err =>
        a = otherwise /\
        st' = mkState Page p (tabsOf st)
                (missingOfState st ++
                   if String.eqb tabKey "pvp" then [missingEntryOf profile err] else [])
                (if String.eqb tabKey "pvp" then {[j]} ∪ indexesOf st else indexesOf st)
                (tabCache Page st) seen
    end.
Proof.
  unfold tryPlayer.
  destruct (getPlayerStats profile columnMap metricLabels (page Page st)) as [p [v|err]].
  - intros H. exists p, (Return v). exact H.
  - intros H. exists p, (Throw err). simpl.
    destruct (String.eqb tabKey "pvp"); injection H as <- <-.
    + done.
    + by rewrite app_nil_r.
Qed.

(** A player not skipped on a tab other than pvp was found on pvp. *)
Lemma found_on_pvp (st : State) (tabKey : string) (j : nat) :
  ledger Page profiles st ->
  skipped Page true j tabKey st = false -> tabKey <> "pvp" ->
  j ∈ pvpIndexes (lookupsOf st) ->
  exists v, mkLookup "pvp" j (Return v) ∈ lookupsOf st.
Proof.
  intros Hled Hskip Hne Hdone. apply elem_of_pvpIndexes in Hdone as ([v|err] & Hr).
  - eauto.
  - exfalso. unfold skipped in Hskip. simpl in Hskip.
    rewrite bool_decide_eq_true_2 in Hskip.
    + apply String.eqb_neq in Hne. by rewrite Hne in Hskip.
    + apply (ledger_indexes _ _ _ Hled). eauto.
Qed.

Lemma skipped_handled (st : State) (tabKey : string) (j : nat) :
  skipped Page true j tabKey st = true -> handled Page st tabKey j.
Proof.
  unfold skipped. simpl. intros [Hin Hne]%andb_true_iff. right.
  apply bool_decide_eq_true in Hin. apply negb_true_iff, String.eqb_neq in Hne. done.
Qed.

(** The inner loop of the per-tab traversal. *)
Lemma perTabPlayers_inv (tabKey : string) (columnMap : ColumnMap)
    (metricLabels : list string) (rest : list (nat * jsobj)) :
  forall (found : gmap string PlayerStats) (st st' : State)
         (found' : gmap string PlayerStats),
  perTabPlayers Page getPlayerStats true tabKey columnMap metricLabels rest found st
    = (st', found') ->
  ledger Page profiles st ->
  sourced profiles tabKey found (lookupsOf st) ->
  (forall j p, (j, p) ∈ rest -> profiles !! j = Some p) ->
  NoDup (rest.*1) ->
  (tabKey = "pvp" -> forall j, j ∈ rest.*1 -> j ∉ pvpIndexes (lookupsOf st)) ->
  (tabKey <> "pvp" -> forall j, j ∈ rest.*1 -> j ∈ pvpIndexes (lookupsOf st)) ->
  ledger Page profiles st' /\
  sourced profiles tabKey found' (lookupsOf st') /\
  tabsOf st' = tabsOf st /\
  tabCache Page st' = tabCache Page st /\
  (forall l, l ∈ lookupsOf st -> l ∈ lookupsOf st') /\
  (forall l, l ∈ lookupsOf st' -> l ∈ lookupsOf st \/ l_tab l = tabKey) /\
  indexesOf st ⊆ indexesOf st' /\
  (forall j, j ∈ rest.*1 -> handled Page st' tabKey j).
Proof.
  induction rest as [|[j p] rest IH];
    intros found st st' found' Hrun Hled Hsrc Hprof Hnd Hfresh Hdone.
  - simpl in Hrun. injection Hrun as <- <-.
    split_and!; auto. intros ? Hnil. by apply elem_of_nil in Hnil.
  - simpl in Hrun. rewrite fmap_cons in Hnd. simpl in Hnd.
    apply NoDup_cons in Hnd as [Hj Hnd].
    assert (profiles !! j = Some p) as Hp by (apply Hprof; left).
    destruct (skipped Page true j tabKey st) eqn:Hskip.
    + destruct (IH found st st' found' Hrun Hled Hsrc) as
        (Hled' & Hsrc' & Ht & Hc & Hsub & Hnew & Hidx & Hhand); auto.
      { intros j' p' Hin. apply Hprof. by right. }
      { intros Hk j' Hin. apply Hfresh; [done|]. rewrite fmap_cons. by right. }
      { intros Hk j' Hin. apply Hdone; [done|]. rewrite fmap_cons. by right. }
      split_and!; auto.
      intros j' Hin. rewrite fmap_cons in Hin. apply elem_of_cons in Hin as [->|Hin]; auto.
      eapply handled_mono; [exact Hsub | exact Hidx |]. by apply skipped_handled.
    + destruct (tryPlayer Page getPlayerStats tabKey j p columnMap metricLabels _ found st)
        as [st1 found1] eqn:Htry.
      apply tryPlayer_cases in Htry as (pg & r & Htry). cbv zeta in Htry.
      assert (lookupsOf st1 = lookupsOf st ++ [mkLookup tabKey j r] /\
              tabsOf st1 = tabsOf st /\ tabCache Page st1 = tabCache Page st /\
              ledger Page profiles st1 /\
              sourced profiles tabKey found1 (lookupsOf st1) /\
              indexesOf st ⊆ indexesOf st1) as (Hl1 & Ht1 & Hc1 & Hled1 & Hsrc1 & Hi1).
      { assert (tabKey = "pvp" -> j ∉ pvpIndexes (lookupsOf st)) as Hfj.
        { intros Hk. apply Hfresh; [done|]. rewrite fmap_cons. by left. }
        assert (tabKey <> "pvp" -> exists v, mkLookup "pvp" j (Return v) ∈ lookupsOf st)
          as Hdj.
        { intros Hk. apply (found_on_pvp st tabKey j); auto.
          apply Hdone; [done|]. rewrite fmap_cons. by left. }
        destruct r as [v|err].
        - injection Htry as <- <-. simpl. split_and!; auto.
          + eapply (ledger_extend st _ tabKey j p (Return v)); simpl; eauto.
            by rewrite app_nil_r.
          + apply (sourced_insert _ _ _ j); [done| |].
            * apply elem_of_app. right. by apply list_elem_of_singleton.
            * eapply sourced_mono; [|exact Hsrc]. intros l Hl. apply elem_of_app. by left.
        - destruct Htry as [-> ->]. simpl. split_and!; auto.
          + eapply (ledger_extend st _ tabKey j p (Throw err)); simpl; eauto.
          + eapply sourced_mono; [|exact Hsrc]. intros l Hl. apply elem_of_app. by left.
          + destruct (String.eqb tabKey "pvp"); set_solver. }
      destruct (IH found1 st1 st' found' Hrun Hled1 Hsrc1) as
        (Hled' & Hsrc' & Ht & Hc & Hsub & Hnew & Hidx & Hhand); auto.
      { intros j' p' Hin. apply Hprof. by right. }
      { intros Hk j' Hin. rewrite Hl1, pvpIndexes_app. simpl.
        apply String.eqb_eq in Hk as Hk'. rewrite Hk'. intros Hin'.
        apply elem_of_app in Hin' as [Hin'|Hin'].
        - revert Hin'. apply Hfresh; [done|]. rewrite fmap_cons. by right.
        - apply list_elem_of_singleton in Hin' as ->. done. }
      { intros Hk j' Hin. rewrite Hl1, pvpIndexes_app. apply elem_of_app. left.
        apply Hdone; [done|]. rewrite fmap_cons. by right. }
      assert (forall l, l ∈ lookupsOf st -> l ∈ lookupsOf st1) as Hsub1.
      { intros l Hl. rewrite Hl1. apply elem_of_app. by left. }
      split; [done|]. split; [done|]. split; [congruence|]. split; [congruence|].
      split; [auto|]. split; [|split].
      * intros l Hl. destruct (Hnew l Hl) as [Hin|Hin]; [|by right].
        rewrite Hl1 in Hin. apply elem_of_app in Hin as [Hin|Hin]; [by left|].
        apply list_elem_of_singleton in Hin as ->. by right.
      * set_solver.
      * intros j' Hin. rewrite fmap_cons in Hin.
        apply elem_of_cons in Hin as [->|Hin]; auto.
        eapply handled_mono; [exact Hsub | exact Hidx |]. left. exists r.
        rewrite Hl1. apply elem_of_app. right. by apply list_elem_of_singleton.
Qed.

Lemma indexed_lookup (j : nat) (p : jsobj) :
  (j, p) ∈ imap (fun i q => (i, q)) profiles <-> profiles !! j = Some p.
Proof.
  rewrite elem_of_lookup_imap. split.
  - intros (i & q & [= -> ->] & Hq). done.
  - intros Hp. eauto.
Qed.

Lemma indexed_indices (l : list jsobj) (start : nat) :
  (imap (fun i q => (start + i, q)) l).*1 = seq start (length l).
Proof.
  revert start. induction l as [|q l IH]; intros start; simpl; [done|].
  rewrite Nat.add_0_r. f_equal.
  rewrite <- (IH (S start)). f_equal. apply imap_ext. intros i x _. simpl. f_equal. lia.
Qed.

Lemma indexed_fst : (imap (fun i q => (i, q)) profiles).*1 = seq 0 (length profiles).
Proof. apply (indexed_indices profiles 0). Qed.

Lemma forEach_inv {X} (body : X -> M Page unit) (I : list X -> State -> Prop)
    (whole : list X) :
  (forall done x rest st st',
     whole = done ++ x :: rest -> I done st ->
     body x st = (st', Return tt) -> I (done ++ [x]) st') ->
  forall rest done st st',
    whole = done ++ rest -> I done st ->
    forEach Page rest body st = (st', Return tt) -> I whole st'.
Proof.
  intros Hstep. induction rest as [|x rest IH]; intros done st st' Hwhole HI Hrun.
  - simpl in Hrun. injection Hrun as <-. by rewrite Hwhole, app_nil_r.
  - simpl in Hrun. unfold bind in Hrun.
    destruct (body x st) as [st1 [[]|err]] eqn:Hbody; [|done].
    apply (IH (done ++ [x]) st1 st'); [|eauto|done].
    by rewrite <- app_assoc.
Qed.

Lemma ensureTabReady_returns (tabKey : string) (st st1 : State)
    (ready : ColumnMap * list string) :
  ensureTabReady Page prepareTab tabKey st = (st1, Return ready) ->
  lookupsOf st1 = lookupsOf st /\ missingOfState st1 = missingOfState st /\
  indexesOf st1 = indexesOf st /\
  (tabsOf st1 = tabsOf st \/
   tabsOf st1 =
     <[tabKey := mkTab (Some ready.2) (Some ∅) (Some (list_to_map ready.1))]> (tabsOf st)).
Proof.
  unfold ensureTabReady. destruct (tabCache Page st !! tabKey) as [cached|].
  - intros [= <- <-]. auto.
  - destruct (prepareTab tabKey (page Page st)) as [p [[columnMap ms]|err]]; [|done].
    intros [= <- <-]. simpl. auto.
Qed.

Lemma tabsSourced_ready (tabKey : string) (st st1 : State)
    (ready : ColumnMap * list string) :
  ensureTabReady Page prepareTab tabKey st = (st1, Return ready) ->
  tabsSourced Page profiles st -> tabsSourced Page profiles st1.
Proof.
  intros (Hl & _ & _ & Ht)%ensureTabReady_returns Hsrc k tab Hk. rewrite Hl.
  destruct Ht as [Ht|Ht]; rewrite Ht in Hk.
  - by apply Hsrc.
  - destruct (decide (tabKey = k)) as [->|Hne].
    + rewrite lookup_insert_eq in Hk. injection Hk as <-. apply sourced_empty.
    + rewrite lookup_insert_ne in Hk by done. by apply Hsrc.
Qed.

(** One tab of the per-tab traversal. *)
Lemma perTabStep_inv (tabKey : string) (st st' : State) :
  perTabStep Page prepareTab getPlayerStats true profiles tabKey st = (st', Return tt) ->
  ledger Page profiles st -> tabsSourced Page profiles st ->
  (tabKey = "pvp" -> lookupsOf st = []) ->
  (tabKey <> "pvp" ->
   forall j, j < length profiles -> j ∈ pvpIndexes (lookupsOf st)) ->
  ledger Page profiles st' /\ tabsSourced Page profiles st' /\
  (forall l, l ∈ lookupsOf st -> l ∈ lookupsOf st') /\
  indexesOf st ⊆ indexesOf st' /\
  (forall j, j < length profiles -> handled Page st' tabKey j).
Proof.
  intros Hrun Hled Hsrc Hfresh Hdone. unfold perTabStep, bind in Hrun.
  destruct (ensureTabReady Page prepareTab tabKey st) as [st1 [ready|err]] eqn:Hready;
    [|done].
  pose proof (tabsSourced_ready _ _ _ _ Hready Hsrc) as Hsrc1.
  apply ensureTabReady_returns in Hready as (Hl1 & Hm1 & Hi1 & _).
  destruct (perTabPlayers Page getPlayerStats true tabKey ready.1 ready.2 _ ∅ st1)
    as [st2 found] eqn:Hloop.
  injection Hrun as <-.
  apply perTabPlayers_inv in Hloop as
    (Hled2 & Hsrc2 & Ht2 & _ & Hsub & _ & Hidx & Hhand).
  - split_and!.
    + by apply (ledger_same st2).
    + intros k tab Hk. simpl in *.
      destruct (decide (tabKey = k)) as [->|Hne].
      * rewrite lookup_insert_eq in Hk. injection Hk as <-. exact Hsrc2.
      * rewrite lookup_insert_ne in Hk by done. rewrite Ht2 in Hk.
        eapply sourced_mono; [exact Hsub|]. by apply Hsrc1.
    + simpl. intros l Hl. apply Hsub. by rewrite Hl1.
    + simpl. by rewrite <- Hi1.
    + intros j Hj. simpl.
      assert (handled Page st2 tabKey j) as [Hh|Hh]; [|by left|by right].
      apply Hhand. rewrite indexed_fst. apply elem_of_seq. lia.
  - by apply (ledger_same st).
  - apply sourced_empty.
  - intros j p. apply indexed_lookup.
  - rewrite indexed_fst. apply NoDup_seq.
  - intros Hk j _. rewrite Hl1, (Hfresh Hk). apply not_elem_of_nil.
  - intros Hk j Hj. rewrite Hl1. apply Hdone; [done|].
    rewrite indexed_fst in Hj. apply elem_of_seq in Hj. lia.
Qed.

Lemma pvpIndexes_mono (ls ls' : list Lookup) (j : nat) :
  (forall l, l ∈ ls -> l ∈ ls') -> j ∈ pvpIndexes ls -> j ∈ pvpIndexes ls'.
Proof. rewrite !elem_of_pvpIndexes. intros Hsub (r & Hr). eauto. Qed.

Lemma handled_pvp (st : State) (j : nat) :
  handled Page st "pvp" j -> j ∈ pvpIndexes (lookupsOf st).
Proof. intros [Hr|[_ Hne]]; [by apply elem_of_pvpIndexes | done]. Qed.

(** The per-tab traversal of a pass that starts with the pvp tab. *)
Lemma perTab_inv (rest : list string) (p : Page) (st' : State) :
  "pvp" ∉ rest ->
  perTab Page prepareTab getPlayerStats true profiles ("pvp" :: rest) (initialState Page p)
    = (st', Return tt) ->
  ledger Page profiles st' /\ tabsSourced Page profiles st' /\
  forall t, t ∈ "pvp" :: rest ->
    forall j, j < length profiles -> handled Page st' t j.
Proof.
  intros Hrest Hrun. unfold perTab in Hrun.
  pose (I := fun (done : list string) (st : State) =>
    ledger Page profiles st /\ tabsSourced Page profiles st /\
    (done = [] -> lookupsOf st = []) /\
    (done <> [] -> forall j, j < length profiles -> j ∈ pvpIndexes (lookupsOf st)) /\
    forall t, t ∈ done -> forall j, j < length profiles -> handled Page st t j).
  assert (I ("pvp" :: rest) st') as (Hled & Hsrc & _ & _ & Hhand); [|by auto].
  apply (forEach_inv (perTabStep Page prepareTab getPlayerStats true profiles) I
           ("pvp" :: rest)) with (rest := "pvp" :: rest) (done := [])
    (st := initialState Page p); [|done| |exact Hrun].
  - intros done x rest' st st1 Hwhole (Hled & Hsrc & Hnil & Hall & Hhand) Hstep.
    assert ((done = [] /\ x = "pvp") \/ (done <> [] /\ x <> "pvp")) as Hcase.
    { destruct done as [|d done]; simpl in Hwhole.
      - left. by injection Hwhole as <- _.
      - right. split; [done|]. injection Hwhole as _ ->. intros ->.
        apply Hrest. apply elem_of_app. right. left. }
    apply perTabStep_inv in Hstep as (Hled1 & Hsrc1 & Hsub & Hidx & Hnew); auto.
    + split_and!; auto.
      * intros Habs. by destruct done.
      * intros _ j Hj. destruct Hcase as [[_ ->]|[Hne _]].
        -- by apply handled_pvp, Hnew.
        -- eapply pvpIndexes_mono; [exact Hsub|]. by apply Hall.
      * intros t Ht j Hj. apply elem_of_app in Ht as [Ht|Ht].
        -- eapply handled_mono; [exact Hsub | exact Hidx |]. by apply Hhand.
        -- apply list_elem_of_singleton in Ht as ->. by apply Hnew.
    + intros ->. destruct Hcase as [[Hd _]|[_ Hne]]; [auto | done].
    + intros Hne. destruct Hcase as [[_ Hx]|[Hd _]]; [done | auto].
  - split_and!.
    + apply ledger_initial.
    + intros k tab Hk. simpl in Hk. by rewrite lookup_empty in Hk.
    + done.
    + done.
    + intros t Ht. by apply elem_of_nil in Ht.
Qed.

Lemma tabsSourced_setStat (tabKey : string) (j : nat) (profile : jsobj)
    (v : PlayerStats) (st : State) :
  profiles !! j = Some profile ->
  mkLookup tabKey j (Return v) ∈ lookupsOf st ->
  tabsSourced Page profiles st ->
  tabsSourced Page profiles (setStat Page tabKey (labelOf profile) v st).
Proof.
  intros Hj Hin Hsrc k tab Hk. unfold setStat in *. simpl in *.
  destruct (decide (tabKey = k)) as [->|Hne].
  - rewrite lookup_alter_eq in Hk. destruct (tabs Page st !! k) as [old|] eqn:Hold; [|done].
    injection Hk as <-. simpl. apply (sourced_insert _ _ _ j); [done..|].
    by apply Hsrc.
  - rewrite lookup_alter_ne in Hk by done. by apply Hsrc.
Qed.

(** One tab of one player of the per-player traversal. *)
Lemma perPlayerStep_inv (tabKey : string) (j : nat) (p : jsobj) (st st' : State) :
  perPlayerStep Page prepareTab resetTable getPlayerStats true j p tabKey st
    = (st', Return tt) ->
  profiles !! j = Some p ->
  ledger Page profiles st -> tabsSourced Page profiles st ->
  (tabKey = "pvp" -> j ∉ pvpIndexes (lookupsOf st)) ->
  (tabKey <> "pvp" -> j ∈ pvpIndexes (lookupsOf st)) ->
  ledger Page profiles st' /\ tabsSourced Page profiles st' /\
  (forall l, l ∈ lookupsOf st -> l ∈ lookupsOf st') /\
  (forall l, l ∈ lookupsOf st' -> l ∈ lookupsOf st \/ l_index l = j) /\
  indexesOf st ⊆ indexesOf st' /\
  handled Page st' tabKey j.
Proof.
  intros Hrun Hp Hled Hsrc Hfresh Hdone. unfold perPlayerStep in Hrun.
  destruct (skipped Page true j tabKey st) eqn:Hskip.
  { injection Hrun as <-. split_and!; auto. by apply skipped_handled. }
  unfold bind in Hrun.
  destruct (ensureTabReady Page prepareTab tabKey st) as [st1 [ready|err]] eqn:Hready;
    [|done].
  pose proof (tabsSourced_ready _ _ _ _ Hready Hsrc) as Hsrc1.
  apply ensureTabReady_returns in Hready as (Hl1 & Hm1 & Hi1 & _).
  unfold onPage in Hrun.
  destruct (resetTable (page Page st1)) as [pg [[]|err]]; [|done].
  set (st2 := mkState Page pg (tabsOf st1) (missingOfState st1) (indexesOf st1)
                (tabCache Page st1) (lookupsOf st1)) in *.
  destruct (tryPlayer Page getPlayerStats tabKey j p ready.1 ready.2 _ tt st2)
    as [st3 []] eqn:Htry.
  injection Hrun as <-.
  assert (ledger Page profiles st2) as Hled2 by (by apply (ledger_same st)).
  assert (tabKey <> "pvp" -> exists v, mkLookup "pvp" j (Return v) ∈ lookupsOf st2) as Hdj.
  { intros Hk. simpl. rewrite Hl1. apply (found_on_pvp st tabKey j); auto. }
  assert (tabKey = "pvp" -> j ∉ pvpIndexes (lookupsOf st2)) as Hfj.
  { intros Hk. simpl. rewrite Hl1. auto. }
  apply tryPlayer_cases in Htry as (pg' & r & Htry). cbv zeta in Htry.
  assert (forall l, l ∈ lookupsOf st -> l ∈ lookupsOf st2 ++ [mkLookup tabKey j r]) as Hsub.
  { intros l Hl. apply elem_of_app. left. simpl. by rewrite Hl1. }
  assert (forall l, l ∈ lookupsOf st2 ++ [mkLookup tabKey j r] ->
                    l ∈ lookupsOf st \/ l_index l = j) as Hnew.
  { intros l Hl. apply elem_of_app in Hl as [Hl|Hl].
    - left. simpl in Hl. by rewrite <- Hl1.
    - apply list_elem_of_singleton in Hl as ->. by right. }
  assert (mkLookup tabKey j r ∈ lookupsOf st2 ++ [mkLookup tabKey j r]) as Hlast.
  { apply elem_of_app. right. by apply list_elem_of_singleton. }
  destruct r as [v|err].
  - injection Htry as <-. unfold setStat; simpl. split_and!; auto.
    + eapply (ledger_extend st2 _ tabKey j p (Return v)); simpl; eauto.
      by rewrite app_nil_r.
    + apply (tabsSourced_setStat tabKey j p v
               (mkState Page pg' (tabsOf st1) (missingOfState st1) (indexesOf st1)
                  (tabCache Page st1) (lookupsOf st1 ++ [mkLookup tabKey j (Return v)])));
        [done|exact Hlast|].
      intros k tab Hk. simpl in *. eapply sourced_mono; [|by apply Hsrc1].
      intros l Hl. apply elem_of_app. by left.
    + by rewrite Hi1.
    + left. eauto.
  - destruct Htry as [_ ->]. simpl. split_and!; auto.
    + eapply (ledger_extend st2 _ tabKey j p (Throw err)); simpl; eauto.
    + intros k tab Hk. simpl in *. eapply sourced_mono; [|by apply Hsrc1].
      intros l Hl. apply elem_of_app. by left.
    + rewrite Hi1. destruct (String.eqb tabKey "pvp"); set_solver.
    + left. eauto.
Qed.

(** All the tabs of one player of the per-player traversal. *)
Lemma perPlayer_tabs_inv (rest : list string) (j : nat) (p : jsobj) (st st' : State) :
  "pvp" ∉ rest ->
  forEach Page ("pvp" :: rest)
    (perPlayerStep Page prepareTab resetTable getPlayerStats true j p) st
    = (st', Return tt) ->
  profiles !! j = Some p ->
  ledger Page profiles st -> tabsSourced Page profiles st ->
  j ∉ pvpIndexes (lookupsOf st) ->
  ledger Page profiles st' /\ tabsSourced Page profiles st' /\
  (forall l, l ∈ lookupsOf st -> l ∈ lookupsOf st') /\
  (forall l, l ∈ lookupsOf st' -> l ∈ lookupsOf st \/ l_index l = j) /\
  indexesOf st ⊆ indexesOf st' /\
  forall t, t ∈ "pvp" :: rest -> handled Page st' t j.
Proof.
  intros Hrest Hrun Hp Hled Hsrc Hfresh.
  pose (I := fun (done : list string) (s : State) =>
    ledger Page profiles s /\ tabsSourced Page profiles s /\
    (done = [] -> j ∉ pvpIndexes (lookupsOf s)) /\
    (done <> [] -> j ∈ pvpIndexes (lookupsOf s)) /\
    (forall l, l ∈ lookupsOf st -> l ∈ lookupsOf s) /\
    (forall l, l ∈ lookupsOf s -> l ∈ lookupsOf st \/ l_index l = j) /\
    indexesOf st ⊆ indexesOf s /\
    forall t, t ∈ done -> handled Page s t j).
  assert (I ("pvp" :: rest) st') as (H1 & H2 & _ & _ & H3 & H4 & H5 & H6); [|by auto].
  apply (forEach_inv (perPlayerStep Page prepareTab resetTable getPlayerStats true j p) I
           ("pvp" :: rest)) with (rest := "pvp" :: rest) (done := []) (st := st);
    [|done| |exact Hrun].
  - intros done x rest' s s1 Hwhole (Hl & Hs & Hnil & Hall & Hsub & Hnew & Hidx & Hhand) Hstep.
    assert ((done = [] /\ x = "pvp") \/ (done <> [] /\ x <> "pvp")) as Hcase.
    { destruct done as [|d done]; simpl in Hwhole.
      - left. by injection Hwhole as <- _.
      - right. split; [done|]. injection Hwhole as _ ->. intros ->.
        apply Hrest. apply elem_of_app. right. left. }
    apply perPlayerStep_inv in Hstep as (Hl1 & Hs1 & Hsub1 & Hnew1 & Hidx1 & Hh1); auto.
    + split_and!; auto.
      * intros Habs. by destruct done.
      * intros _. destruct Hcase as [[_ ->]|[Hne _]].
        -- by apply handled_pvp.
        -- eapply pvpIndexes_mono; [exact Hsub1|]. by apply Hall.
      * intros l Hin. destruct (Hnew1 l Hin) as [Hold|Hj]; auto.
      * set_solver.
      * intros t Ht. apply elem_of_app in Ht as [Ht|Ht].
        -- eapply handled_mono; [exact Hsub1 | exact Hidx1 |]. by apply Hhand.
        -- by apply list_elem_of_singleton in Ht as ->.
    + intros ->. destruct Hcase as [[Hd _]|[_ Hne]]; [auto | done].
    + intros Hne. destruct Hcase as [[_ Hx]|[Hd _]]; [done | auto].
  - split_and!; [done|done|done|done|done|by left|done|].
    intros t Ht. by apply elem_of_nil in Ht.
Qed.

(** The per-player traversal of a pass that starts with the pvp tab. *)
Lemma perPlayer_inv (rest : list string) (p : Page) (st' : State) :
  "pvp" ∉ rest ->
  perPlayer Page prepareTab resetTable getPlayerStats true profiles ("pvp" :: rest)
    (initialState Page p) = (st', Return tt) ->
  ledger Page profiles st' /\ tabsSourced Page profiles st' /\
  forall t, t ∈ "pvp" :: rest ->
    forall j, j < length profiles -> handled Page st' t j.
Proof.
  intros Hrest Hrun. unfold perPlayer in Hrun.
  set (whole := imap (fun i q => (i, q)) profiles) in *.
  pose (I := fun (done : list (nat * jsobj)) (s : State) =>
    ledger Page profiles s /\ tabsSourced Page profiles s /\
    (forall l, l ∈ lookupsOf s -> l_index l ∈ done.*1) /\
    forall jp t, jp ∈ done -> t ∈ "pvp" :: rest -> handled Page s t jp.1).
  assert (I whole st') as (Hled & Hsrc & _ & Hhand).
  { apply (forEach_inv
             (fun ip => forEach Page ("pvp" :: rest)
                (perPlayerStep Page prepareTab resetTable getPlayerStats true ip.1 ip.2))
             I whole) with (rest := whole) (done := []) (st := initialState Page p);
      [|done| |exact Hrun].
    - intros done [j q] rest' s s1 Hwhole (Hl & Hs & Hidx & Hhand) Hstep. simpl in Hstep.
      assert (profiles !! j = Some q) as Hq.
      { apply indexed_lookup. fold whole. rewrite Hwhole. apply elem_of_app. right. left. }
      assert (j ∉ done.*1) as Hj.
      { pose proof (NoDup_seq 0 (length profiles)) as Hnd.
        rewrite <- indexed_fst in Hnd. fold whole in Hnd.
        rewrite Hwhole, fmap_app, fmap_cons in Hnd. simpl in Hnd.
        apply NoDup_app in Hnd as (_ & Hnd & _). intros Hin. apply (Hnd j Hin). left. }
      apply perPlayer_tabs_inv in Hstep as (Hl1 & Hs1 & Hsub & Hnew & Hsubi & Hh); auto.
      + split_and!; auto.
        * intros l Hin. rewrite fmap_app. apply elem_of_app.
          destruct (Hnew l Hin) as [Hold| ->]; [left; auto | right; left].
        * intros jp t Hjp Ht. apply elem_of_app in Hjp as [Hjp|Hjp].
          -- eapply handled_mono; [exact Hsub | exact Hsubi |]. by apply Hhand.
          -- apply list_elem_of_singleton in Hjp as ->. simpl. by apply Hh.
      + intros Hin. apply elem_of_pvpIndexes in Hin as (r & Hr).
        apply Hj. by apply (Hidx _ Hr).
    - split_and!.
      + apply ledger_initial.
      + intros k tab Hk. simpl in Hk. by rewrite lookup_empty in Hk.
      + intros l Hl. by apply elem_of_nil in Hl.
      + intros jp t Hjp. by apply elem_of_nil in Hjp. }
  split; [done|]. split; [done|].
  intros t Ht j Hj. destruct (lookup_lt_is_Some_2 profiles j Hj) as [q Hq].
  apply (Hhand (j, q) t); [|done]. by apply indexed_lookup.
Qed.

(** What the invariants of a finished pass say about a player whose pvp
    lookup threw. *)
Lemma missing_player_facts (st : State) (i : nat) (profile : jsobj) (err : JsError) :
  ledger Page profiles st -> tabsSourced Page profiles st ->
  profiles !! i = Some profile ->
  mkLookup "pvp" i (Throw err) ∈ lookupsOf st ->
  count_occ Nat.eq_dec (pvpIndexes (lookupsOf st)) i = 1 /\
  missingEntryOf profile err ∈ missingOfState st /\
  i ∈ indexesOf st /\
  (forall l, l ∈ lookupsOf st -> l_index l = i -> l_tab l = "pvp") /\
  (forall t tab label v,
     t <> "pvp" -> tabsOf st !! t = Some tab ->
     default ∅ (stats tab) !! label = Some v ->
     exists j pj, j <> i /\ profiles !! j = Some pj /\ toStr (labelOf pj) = label /\
                  mkLookup t j (Return v) ∈ lookupsOf st).
Proof.
  intros Hled Hsrc Hp Herr.
  assert (forall l, l ∈ lookupsOf st -> l_index l = i -> l_tab l = "pvp") as Hskip.
  { intros l Hl Hi. destruct (decide (l_tab l = "pvp")) as [|Hne]; [done|].
    destruct (ledger_found _ _ _ Hled l Hl Hne) as (v & Hv). rewrite Hi in Hv.
    pose proof (pvp_lookup_unique _ _ _ _ (ledger_once _ _ _ Hled) Herr Hv). done. }
  split_and!.
  - apply (proj1 (List.NoDup_count_occ' Nat.eq_dec _)).
    + apply NoDup_ListNoDup, (ledger_once _ _ _ Hled).
    + apply list_elem_of_In, elem_of_pvpIndexes. eauto.
  - rewrite (ledger_missing _ _ _ Hled). apply list_elem_of_omap.
    exists (mkLookup "pvp" i (Throw err)). split; [done|].
    unfold missingOf. simpl. by rewrite Hp.
  - apply (ledger_indexes _ _ _ Hled). eauto.
  - exact Hskip.
  - intros t tab label v Hne Ht Hv.
    destruct (Hsrc t tab Ht label v Hv) as (j & pj & Hj & Hlabel & Hin).
    exists j, pj. split_and!; auto. intros ->.
    by specialize (Hskip _ Hin eq_refl).
Qed.

Lemma tabEntriesOf_pvp_first (tabsOption : option (list string)) :
  "pvp" ∈ tabEntriesOf tabsOption ->
  exists rest, tabEntriesOf tabsOption = "pvp" :: rest /\ "pvp" ∉ rest.
Proof.
  unfold tabEntriesOf, TAB_KEYS.
  destruct tabsOption as [[|t ts]|]; simpl.
  - intros _. eexists. split; [reflexivity|]. set_solver.
  - destruct (bool_decide ("pvp" ∈ t :: ts)).
    + intros _. eexists. split; [reflexivity|].
      intros Hin. apply list_elem_of_In in Hin.
      repeat match goal with
      | H : In _ (if ?b then _ else _) |- _ => destruct b; simpl in H
      | H : _ \/ _ |- _ => destruct H as [H|H]; [discriminate H|]
      end; done.
    + intros Hin. exfalso. apply list_elem_of_In in Hin.
      repeat match goal with
      | H : In _ (if ?b then _ else _) |- _ => destruct b; simpl in H
      | H : _ \/ _ |- _ => destruct H as [H|H]; [discriminate H|]
      end; done.
  - intros _. eexists. split; [reflexivity|]. set_solver.
Qed.

(** A finished pass that includes the pvp tab, under either strategy. *)
Lemma scrapePlayers_inv (strategy : jsval) (tabsOption : option (list string))
    (p0 p' : Page) (ls : list Lookup) (result : ScrapeResult) :
  "pvp" ∈ tabEntriesOf tabsOption ->
  scrapePlayers Page prepareTab resetTable getPlayerStats strategy tabsOption profiles p0
    = (p', ls, Return result) ->
  exists st,
    ledger Page profiles st /\ tabsSourced Page profiles st /\
    (forall t, t ∈ tabEntriesOf tabsOption ->
       forall j, j < length profiles -> handled Page st t j) /\
    lookupsOf st = ls /\ tabsOf st = res_tabs result /\
    missingOfState st = res_missing result /\
    res_profiles result =
      imap (fun index profile =>
              <["missing" := JBool (bool_decide (index ∈ indexesOf st))]> profile)
           profiles.
Proof.
  intros Hpvp Hrun. unfold scrapePlayers in Hrun.
  rewrite bool_decide_eq_true_2 in Hrun by done.
  destruct (tabEntriesOf_pvp_first _ Hpvp) as (rest & Hentries & Hrest).
  rewrite Hentries in *.
  destruct (strategyOf strategy).
  - destruct (perPlayer _ _ _ _ _ _ _ _) as [st [[]|e]] eqn:Hpass; [|done].
    injection Hrun as <- <- <-. exists st.
    apply perPlayer_inv in Hpass as (Hled & Hsrc & Hhand); [|done].
    split_and!; auto.
  - destruct (perTab _ _ _ _ _ _ _) as [st [[]|e]] eqn:Hpass; [|done].
    injection Hrun as <- <- <-. exists st.
    apply perTab_inv in Hpass as (Hled & Hsrc & Hhand); [|done].
    split_and!; auto.
Qed.

(** C6, as amended.  In a pass that includes the pvp tab and returns, under
    either strategy, take a player whose lookup on the pvp tab threw.  The
    missing list holds one entry per pvp lookup that threw, in the order of
    the lookups, and the pass looked this player up on pvp exactly once: its
    entry (label, steamId, steamUrl, reason) is there, and the player is
    flagged missing.  The pass made no lookup for the player on any other
    tab, and every stats entry of every other tab was read for another
    player; so no stats entry stands under the player's label in another tab
    unless a player with the same label was found there.  The skip is of
    this pass only: a player with no failed pvp lookup in the pass is looked
    up on every tab of it. *)
Theorem scrape_pass_missing_player
    (strategy : jsval) (tabsOption : option (list string))
    (p0 p' : Page) (ls : list Lookup) (result : ScrapeResult)
    (i : nat) (profile : jsobj) (err : JsError) :
  "pvp" ∈ tabEntriesOf tabsOption ->
  scrapePlayers Page prepareTab resetTable getPlayerStats strategy tabsOption profiles p0
    = (p', ls, Return result) ->
  profiles !! i = Some profile ->
  mkLookup "pvp" i (Throw err) ∈ ls ->
  res_missing result = omap (missingOf profiles) ls /\
  count_occ Nat.eq_dec (pvpIndexes ls) i = 1 /\
  missingEntryOf profile err ∈ res_missing result /\
  res_profiles result !! i = Some (<["missing" := JBool true]> profile) /\
  (forall l, l ∈ ls -> l_index l = i -> l_tab l = "pvp") /\
  (forall t tab label v,
     t <> "pvp" -> res_tabs result !! t = Some tab ->
     default ∅ (stats tab) !! label = Some v ->
     exists j pj, j <> i /\ profiles !! j = Some pj /\ toStr (labelOf pj) = label /\
                  mkLookup t j (Return v) ∈ ls) /\
  (forall t tab,
     t <> "pvp" -> res_tabs result !! t = Some tab ->
     (forall j pj v, j <> i -> profiles !! j = Some pj ->
                     mkLookup t j (Return v) ∈ ls ->
                     toStr (labelOf pj) <> toStr (labelOf profile)) ->
     default ∅ (stats tab) !! toStr (labelOf profile) = None) /\
  (forall k pk,
     profiles !! k = Some pk ->
     (forall e, mkLookup "pvp" k (Throw e) ∉ ls) ->
     forall t, t ∈ tabEntriesOf tabsOption -> exists r, mkLookup t k r ∈ ls).
Proof.
  intros Hpvp Hrun Hp Herr.
  destruct (scrapePlayers_inv _ _ _ _ _ _ Hpvp Hrun)
    as (st & Hled & Hsrc & Hhand & <- & <- & <- & Hprofiles).
  destruct (missing_player_facts st i profile err Hled Hsrc Hp Herr)
    as (Hcount & Hentry & Hidx & Hskip & Hstats).
  split_and!; auto.
  - apply (ledger_missing _ _ _ Hled).
  - rewrite Hprofiles, list_lookup_imap, Hp. simpl.
    by rewrite bool_decide_eq_true_2.
  - intros t tab Hne Ht Hother.
    destruct (default ∅ (stats tab) !! toStr (labelOf profile)) as [v|] eqn:Hv; [|done].
    destruct (Hstats t tab _ v Hne Ht Hv) as (j & pj & Hj & Hpj & Hlabel & Hin).
    exfalso. by apply (Hother j pj v).
  - intros k pk Hk Hnone t Ht.
    destruct (Hhand t Ht k) as [Hr|[Hm _]]; [by eapply lookup_lt_Some|done|].
    apply (ledger_indexes _ _ _ Hled) in Hm as (e & He). by destruct (Hnone e).
Qed.
End ScrapeFacts.

Lemma scrape_pass_missing_player_witness :
  let notFound := {| err_name := "Error";
                     err_message := "Could not find player row by SteamID/searchKey for Ann" |} in
  let ann : jsobj := {[ "steamId" := JStr "76561198000000001"; "steamUrl" := JStr "https://steamcommunity.com/id/ann"; "displayName" := JStr "Ann" ]} in
  let bob : jsobj := {[ "steamId" := JStr "76561198000000002"; "steamUrl" := JStr "https://steamcommunity.com/id/bob"; "displayName" := JStr "Bob" ]} in
  let prepareTab (tabKey : string) (p : unit) : unit * completion (ColumnMap * list string) :=
    (p, Return ([("Score", 1)], ["Score"])) in
  let resetTable (p : unit) : unit * completion unit := (p, Return tt) in
  let getPlayerStats (profile : jsobj) (cm : ColumnMap) (ms : list string) (p : unit)
      : unit * completion PlayerStats :=
    (p, if bool_decide (field profile "displayName" = JStr "Ann")
        then Throw notFound else Return {[ "Score" := ofZ 7 ]}) in
  exists ls result,
    scrapePlayers unit prepareTab resetTable getPlayerStats (JStr "perPlayer") None
      [ann; bob] tt = (tt, ls, Return result) /\
    res_missing result =
      [mkMissing (JStr "Ann") (JStr "76561198000000001")
         (JStr "https://steamcommunity.com/id/ann")
         "Could not find player row by SteamID/searchKey for Ann"] /\
    length ls = 6 /\
    (forall l, l ∈ ls -> l_index l = 0 -> l_tab l = "pvp") /\
    (forall t tab, t <> "pvp" -> res_tabs result !! t = Some tab ->
                   default ∅ (stats tab) !! "Ann" = None).
Proof.
  intros notFound ann bob prepareTab resetTable getPlayerStats.
  eexists _, _. split; [vm_compute; reflexivity|].
  split; [vm_compute; reflexivity|]. split; [vm_compute; reflexivity|].
  match goal with
  | |- context [res_tabs ?r] => set (result := r)
  end.
  match goal with
  | |- context [_ ∈ ?l] => set (ls := l)
  end.
  assert ("pvp" ∈ tabEntriesOf None) as Hpvp by (unfold tabEntriesOf, TAB_KEYS; left).
  assert (scrapePlayers unit prepareTab resetTable getPlayerStats (JStr "perPlayer") None
            [ann; bob] tt = (tt, ls, Return result)) as Hrun by (vm_compute; reflexivity).
  assert (mkLookup "pvp" 0 (Throw notFound) ∈ ls) as Hfail by left.
  pose proof (scrape_pass_missing_player unit prepareTab resetTable getPlayerStats
                [ann; bob] (JStr "perPlayer") None tt tt ls result 0 ann notFound
                Hpvp Hrun eq_refl Hfail) as H.
  destruct H as (_ & _ & _ & _ & Hskip & _ & Hnone & _).
  split; [exact Hskip|].
  intros t tab Hne Ht. apply (Hnone t tab Hne Ht).
  clear Hnone Hskip Hfail Hrun Ht.
  intros j pj v Hj Hpj _. destruct j as [|[|j]].
  - exfalso. apply Hj. reflexivity.
  - injection Hpj as <-. vm_compute. discriminate.
  - discriminate Hpj.
Defined.

(** C6 as stated fails.  Two tracked players have the same display name; the
    first is not on the dashboard, the second is.  Under either strategy the
    first is recorded as missing, and the stats of the pve tab have an entry
    under its label, the one read for the second. *)
Lemma scrape_pass_counterexample :
  let notFound := {| err_name := "Error";
                     err_message := "Could not find player row by SteamID/searchKey for Player" |} in
  let first : jsobj := {[ "steamId" := JStr "76561198000000001"; "steamUrl" := JStr "https://steamcommunity.com/id/one"; "displayName" := JStr "Player" ]} in
  let second : jsobj := {[ "steamId" := JStr "76561198000000002"; "steamUrl" := JStr "https://steamcommunity.com/id/two"; "displayName" := JStr "Player" ]} in
  let prepareTab (tabKey : string) (p : unit) : unit * completion (ColumnMap * list string) :=
    (p, Return ([("Score", 1)], ["Score"])) in
  let resetTable (p : unit) : unit * completion unit := (p, Return tt) in
  let getPlayerStats (profile : jsobj) (cm : ColumnMap) (ms : list string) (p : unit)
      : unit * completion PlayerStats :=
    (p, if bool_decide (field profile "steamId" = JStr "76561198000000001")
        then Throw notFound else Return {[ "Score" := ofZ 7 ]}) in
  forall_strategies (fun strategy =>
    exists ls result tab,
      scrapePlayers unit prepareTab resetTable getPlayerStats strategy None
        [first; second] tt = (tt, ls, Return result) /\
      mkLookup "pvp" 0 (Throw notFound) ∈ ls /\
      res_missing result = [missingEntryOf first notFound] /\
      res_tabs result !! "pve" = Some tab /\
      default ∅ (stats tab) !! toStr (labelOf first) = Some {[ "Score" := ofZ 7 ]}).
Proof.
  intros notFound first second prepareTab resetTable getPlayerStats.
  split; eexists _, _, _; (split; [vm_compute; reflexivity|]);
    (split; [left|]); (split; [vm_compute; reflexivity|]);
    (split; [vm_compute; reflexivity|]); vm_compute; reflexivity.
Qed.

(** * Part III: further properties of the code *)

(** ** Removal composed with itself and with the merge *)

Lemma filter_filter_andb {A} (f g : A -> bool) (l : list A) :
  List.filter f (List.filter g l) = List.filter (fun x => g x && f x) l.
Proof.
  induction l as [|x l IH]; simpl; [done|].
  destruct (g x); simpl; [|done]. destruct (f x); by rewrite IH.
Qed.

(** What [removePlayerFromCache] gives for a cache and a player, with its
    three filters spelled by [sameIdentity], [removalKeys] and
    [sameMissing]. *)
Lemma removePlayerFromCache_spelled (now : Z) (cache : ServerCache) (removed : jsobj) :
  removePlayerFromCache now (Some cache) (Some removed) =
  Some {| c_serverName := c_serverName cache;
          c_profiles :=
            Some (List.filter (fun p => negb (sameIdentity removed p))
                              (default [] (c_profiles cache)));
          c_tabs :=
            fmap (M := gmap string)
              (fun tab =>
                 mkTab (metrics tab)
                       (Some (filter (fun kv => kv.1 ∉ removalKeys removed)
                                     (default ∅ (stats tab))))
                       (columnMap tab)) <$> c_tabs cache;
          c_missing :=
            Some (List.filter (fun item => negb (sameMissing removed item))
                              (default [] (c_missing cache)));
          c_serverInfo := c_serverInfo cache;
          c_updatedAt := Some now |}.
Proof.
  unfold removePlayerFromCache. simpl. f_equal. f_equal.
  - f_equal. apply List.filter_ext. intros p. apply keepProfile_sameIdentity.
  - destruct (c_tabs cache) as [tabs|]; simpl; [|done]. f_equal.
    apply map_fmap_ext. intros tabKey tab _. f_equal. f_equal.
    apply map_eq. intros label. rewrite purged_stats_lookup, map_lookup_filter.
    destruct (default ∅ (stats tab) !! label) as [v|] eqn:Hv; simpl.
    + case_bool_decide; [by rewrite option_guard_False by tauto|].
      by rewrite option_guard_True.
    + by case_bool_decide.
  - f_equal. apply List.filter_ext. intros item. apply keepMissing_sameMissing.
Qed.

(** X1. Removing the same player a second time changes nothing but
    [updatedAt], and two removals give the same cache in either order. *)
Theorem removePlayerFromCache_idempotent_commutes
    (now1 now2 : Z) (cache : option ServerCache) (p q : jsobj) :
  removePlayerFromCache now2 (removePlayerFromCache now1 cache (Some p)) (Some p)
    = stampedAt now2 <$> removePlayerFromCache now1 cache (Some p) /\
  removePlayerFromCache now2 (removePlayerFromCache now1 cache (Some p)) (Some q)
    = removePlayerFromCache now2 (removePlayerFromCache now1 cache (Some q)) (Some p).
Proof.
  destruct cache as [cache|]; [|done].
  rewrite !removePlayerFromCache_spelled. simpl. unfold stampedAt. simpl.
  rewrite !filter_filter_andb. split; f_equal; f_equal.
  - f_equal. apply List.filter_ext. intros x. by destruct (sameIdentity p x).
  - destruct (c_tabs cache) as [tabs|]; simpl; [|done]. f_equal.
    rewrite <- map_fmap_compose. apply map_fmap_ext. intros tabKey tab _. simpl.
    f_equal. f_equal. apply map_eq. intros label. rewrite !map_lookup_filter.
    destruct (default ∅ (stats tab) !! label) as [v|]; simpl; [|done].
    destruct (decide (label ∈ removalKeys p)).
    + by rewrite option_guard_False by tauto.
    + rewrite option_guard_True by done. simpl. by rewrite option_guard_True.
  - f_equal. apply List.filter_ext. intros x. by destruct (sameMissing p x).
  - f_equal. apply List.filter_ext. intros x. apply andb_comm.
  - destruct (c_tabs cache) as [tabs|]; simpl; [|done]. f_equal.
    rewrite <- !map_fmap_compose. apply map_fmap_ext. intros tabKey tab _. simpl.
    f_equal. f_equal. apply map_eq. intros label. rewrite !map_lookup_filter.
    destruct (default ∅ (stats tab) !! label) as [v|]; simpl; [|done].
    repeat (case_guard; simpl); done || tauto.
  - f_equal. apply List.filter_ext. intros x. apply andb_comm.
Qed.


Lemma field_truthy_is_Some (o : jsobj) (k : string) :
  truthy (field o k) = true -> is_Some (o !! k).
Proof. unfold field. destruct (o !! k); [eauto | discriminate]. Qed.

(** The profile that replaces a match of [p] is still a match of [p]. *)
Lemma sameIdentity_spread_self (p c : jsobj) :
  sameIdentity p c = true -> sameIdentity p (spread c p) = true.
Proof.
  unfold sameIdentity. intros [H|H]%orb_true_iff; apply orb_true_iff; [left|right];
    apply andb_true_iff in H as [[Hp _]%andb_true_iff _];
    rewrite field_spread by (by apply field_truthy_is_Some);
    by rewrite Hp, String.eqb_refl.
Qed.

Lemma filter_alter_out {A} (keep : A -> bool) (f : A -> A) (l : list A) (i : nat) (x : A) :
  l !! i = Some x -> keep x = false -> keep (f x) = false ->
  List.filter keep (alter f i l) = List.filter keep l.
Proof.
  revert i. induction l as [|a l IH]; intros [|i] Hi Hx Hfx; try done.
  - injection Hi as ->. change (alter f 0 (x :: l)) with (f x :: l).
    simpl. by rewrite Hx, Hfx.
  - change (alter f (S i) (a :: l)) with (a :: alter f i l).
    simpl. by rewrite (IH i).
Qed.

Lemma filter_upsertProfile (p : jsobj) (l : list jsobj) :
  truthy (field p "steamId") || truthy (field p "steamUrl") = true ->
  List.filter (fun c => negb (sameIdentity p c)) (upsertProfile l p) =
  List.filter (fun c => negb (sameIdentity p c)) l.
Proof.
  intros Hkey. unfold upsertProfile.
  destruct (findIndex (sameIdentity p) l) as [i|] eqn:Hfind.
  - apply findIndex_Some in Hfind as (c & Hc & Hsame & _).
    apply (filter_alter_out _ _ _ _ c Hc).
    + by rewrite Hsame.
    + by rewrite sameIdentity_spread_self.
  - rewrite List.filter_app. simpl.
    assert (sameIdentity p p = true) as ->.
    { unfold sameIdentity. rewrite !String.eqb_refl, !andb_true_r, !andb_diag. done. }
    simpl. by rewrite app_nil_r.
Qed.

Lemma sameIdentity_fields_l (p p' c : jsobj) :
  field p "steamId" = field p' "steamId" ->
  field p "steamUrl" = field p' "steamUrl" ->
  sameIdentity p c = sameIdentity p' c.
Proof. unfold sameIdentity. by intros -> ->. Qed.

(** X2. A scrape result with the one profile [p] is merged into the cache, as
    the route that adds a player does, and then a player with the steamId
    and the steamUrl of [p], one of them truthy, is removed: the profiles
    and the missing entries left are those the removal alone leaves of the
    cache, so the merged profile is gone whether it was appended or had
    replaced a cached one. *)
Theorem remove_after_merge_restores_profiles
    (now1 now2 : Z) (cache : option ServerCache) (R : PlayerResult)
    (p removed : jsobj) (M : ServerCache) :
  r_profiles R = Some [p] ->
  field removed "steamId" = field p "steamId" ->
  field removed "steamUrl" = field p "steamUrl" ->
  truthy (field p "steamId") || truthy (field p "steamUrl") = true ->
  mergePlayerStats now1 cache R = Return M ->
  exists M',
    removePlayerFromCache now2 (Some M) (Some removed) = Some M' /\
    c_profiles M' =
      Some (List.filter (fun c => negb (sameIdentity removed c))
                        (default [] (cache ≫= c_profiles))) /\
    c_missing M' =
      Some (List.filter (fun item => negb (sameMissing removed item))
                        (default [] (cache ≫= c_missing))) /\
    forall c, c ∈ default [] (c_profiles M') -> sameIdentity p c = false.
Proof.
  intros HR Hid Hurl Hkey HM.
  pose proof (mergePlayerStats_completes now1 cache R) as Hc. rewrite HM in Hc.
  destruct Hc as (Hprofiles & Hmissing & _).
  rewrite removePlayerFromCache_spelled. eexists. split; [reflexivity|]. simpl.
  rewrite Hprofiles, Hmissing, HR. simpl.
  assert (forall l, List.filter (fun c => negb (sameIdentity removed c)) l =
                    List.filter (fun c => negb (sameIdentity p c)) l) as Hsame.
  { intros l. apply List.filter_ext. intros c.
    by rewrite (sameIdentity_fields_l removed p). }
  split; [|split; [done|]].
  - f_equal. by rewrite !Hsame, filter_upsertProfile.
  - intros c Hin. rewrite Hsame in Hin. apply list_elem_of_In, List.filter_In in Hin.
    destruct Hin as [_ Hin]. by apply negb_true_iff.
Qed.

Lemma remove_after_merge_restores_profiles_witness :
  let ann : jsobj := {[ "steamId" := JStr "76561198000000001"; "displayName" := JStr "Ann" ]} in
  let bob : jsobj := {[ "steamId" := JStr "76561198000000002"; "steamUrl" := JStr "https://steamcommunity.com/id/bob"; "displayName" := JStr "Bob" ]} in
  let stored : jsobj := {[ "steamId" := JStr "76561198000000002"; "steamUrl" := JStr "https://steamcommunity.com/id/bob" ]} in
  let cache := mkCache (JStr SERVER_NAME) (Some [ann]) (Some ∅) (Some []) None None in
  let R := mkResult (JStr SERVER_NAME) (Some [bob]) (Some ∅) (Some []) None in
  exists M M',
    mergePlayerStats 5 (Some cache) R = Return M /\
    removePlayerFromCache 9 (Some M) (Some stored) = Some M' /\
    c_profiles M' = Some (List.filter (fun c => negb (sameIdentity stored c)) [ann]).
Proof.
  intros ann bob stored cache R.
  destruct (remove_after_merge_restores_profiles 5 9 (Some cache) R bob stored _
              eq_refl eq_refl eq_refl eq_refl eq_refl) as (M' & HM' & Hp & _).
  eexists _, M'. split; [reflexivity|]. split; [exact HM' | exact Hp].
Defined.


(** ** Reconciliation with the roster *)

Lemma sameIdentity_sharesKey (a b : jsobj) :
  sameIdentity a b = sharesKey "steamId" a b || sharesKey "steamUrl" a b.
Proof. reflexivity. Qed.

Lemma indexPlayersAt_snoc (key : string) (players : list jsobj) (x : jsobj) :
  indexPlayersAt key (players ++ [x]) =
  if truthy (field x key)
  then <[toStr (field x key) := (length players, x)]> (indexPlayersAt key players)
  else indexPlayersAt key players.
Proof.
  unfold indexPlayersAt. rewrite imap_app, foldl_app. simpl.
  by rewrite Nat.add_0_r.
Qed.

(** The [Map] of [attachPlayerIds] holds, under a key, the last player with
    that key, and nothing under a key no player has. *)
Lemma indexPlayersAt_lookup (key : string) (players : list jsobj) (k : string) :
  match indexPlayersAt key players !! k with
  | Some (n, player) =>
      players !! n = Some player /\
      truthy (field player key) = true /\ toStr (field player key) = k /\
      forall j q, players !! j = Some q -> truthy (field q key) = true ->
                  toStr (field q key) = k -> j <= n
  | None =>
      forall j q, players !! j = Some q -> truthy (field q key) = true ->
                  toStr (field q key) <> k
  end.
Proof.
  induction players as [|x players IH] using rev_ind.
  - unfold indexPlayersAt. simpl. rewrite lookup_empty. intros j q Hq. done.
  - rewrite indexPlayersAt_snoc.
    assert (forall j q, (players ++ [x]) !! j = Some q ->
              (j < length players /\ players !! j = Some q) \/
              (j = length players /\ q = x)) as Hsplit.
    { intros j q Hq. apply lookup_app_Some in Hq as [Hq|[Hge Hq]].
      - left. split; [by eapply lookup_lt_Some | done].
      - right. apply list_lookup_singleton_Some in Hq as [Hj ->]. split; [lia|done]. }
    destruct (truthy (field x key)) eqn:Hx.
    + destruct (decide (toStr (field x key) = k)) as [<-|Hne].
      * rewrite lookup_insert_eq. split; [|split; [done|split; [done|]]].
        { by rewrite lookup_app_r, Nat.sub_diag. }
        intros j q Hq _ _. apply Hsplit in Hq as [[Hlt _]|[-> _]]; lia.
      * rewrite lookup_insert_ne by done.
        destruct (indexPlayersAt key players !! k) as [[n player]|].
        -- destruct IH as (Hn & Ht & Hk & Hlast). split; [|split; [done|split; [done|]]].
           { rewrite lookup_app_l; [done|]. by eapply lookup_lt_Some. }
           intros j q Hq Htq Hkq. apply Hsplit in Hq as [[_ Hq]|[_ ->]].
           ++ by apply (Hlast j q).
           ++ congruence.
        -- intros j q Hq Htq. apply Hsplit in Hq as [[_ Hq]|[_ ->]]; [|done].
           by apply (IH j q).
    + destruct (indexPlayersAt key players !! k) as [[n player]|].
      * destruct IH as (Hn & Ht & Hk & Hlast). split; [|split; [done|split; [done|]]].
        { rewrite lookup_app_l; [done|]. by eapply lookup_lt_Some. }
        intros j q Hq Htq Hkq. apply Hsplit in Hq as [[_ Hq]|[_ ->]].
        -- by apply (Hlast j q).
        -- congruence.
      * intros j q Hq Htq. apply Hsplit in Hq as [[_ Hq]|[_ ->]]; [|congruence].
        by apply (IH j q).
Qed.

Lemma sharesKey_true (key : string) (a b : jsobj) :
  sharesKey key a b = true <->
  truthy (field a key) = true /\ truthy (field b key) = true /\
  toStr (field b key) = toStr (field a key).
Proof.
  unfold sharesKey. rewrite !andb_true_iff, String.eqb_eq. intuition congruence.
Qed.

(** What the two lookups of [attachPlayerIds] find for a profile. *)
Lemma lookupBoth_indexPlayersAt (profile : jsobj) (players : list jsobj) :
  match lookupBoth (indexPlayersAt "steamId" players)
                   (indexPlayersAt "steamUrl" players) profile with
  | Some (n, player) => players !! n = Some player /\ matchOf profile players n
  | None => forall q, q ∈ players -> sameIdentity profile q = false
  end.
Proof.
  unfold lookupBoth.
  assert (forall key,
    match (if truthy (field profile key)
           then indexPlayersAt key players !! toStr (field profile key) else None) with
    | Some (n, player) => players !! n = Some player /\ lastSharing key profile players n
    | None => forall q, q ∈ players -> sharesKey key profile q = false
    end) as Hkey.
  { intros key. destruct (truthy (field profile key)) eqn:Hp.
    - pose proof (indexPlayersAt_lookup key players (toStr (field profile key))) as H.
      destruct (indexPlayersAt key players !! _) as [[n player]|].
      + destruct H as (Hn & Ht & Hk & Hlast). split; [done|].
        exists player. split; [done|]. split; [by apply sharesKey_true|].
        intros j q Hq (_ & Htq & Hkq)%sharesKey_true. by apply (Hlast j q).
      + intros q (j & Hq)%list_elem_of_lookup.
        destruct (sharesKey key profile q) eqn:Hs; [|done].
        apply sharesKey_true in Hs as (_ & Htq & Hkq). by destruct (H j q Hq Htq).
    - intros q _. unfold sharesKey. by rewrite Hp. }
  pose proof (Hkey "steamId") as Hid. pose proof (Hkey "steamUrl") as Hurl.
  destruct (if truthy (field profile "steamId") then _ else None) as [[n player]|].
  - destruct Hid as [Hn Hlast]. split; [done|]. by left.
  - destruct (if truthy (field profile "steamUrl") then _ else None) as [[n player]|].
    + destruct Hurl as [Hn Hlast]. split; [done|]. by right.
    + intros q Hq. rewrite sameIdentity_sharesKey, Hid, Hurl by done. done.
Qed.

(** X3. [attachPlayerIds] keeps the length and the order of the profiles.  A
    profile that shares a truthy steamId or steamUrl with no roster player
    is returned as it is.  Any other gets, as [playerId], the index of a
    roster player that shares its steamId, the last one, or when there is
    none the last one that shares its steamUrl, and as [storedSteamId] and
    [storedSteamUrl] that player's values, [null] for a falsy one; so a
    [playerId] is always an index of the roster.  No other property
    changes. *)
Theorem attachPlayerIds_points_into_roster
    (profiles players : list jsobj) (i : nat) (profile : jsobj) :
  profiles !! i = Some profile ->
  length (attachPlayerIds profiles players) = length profiles /\
  exists out,
    attachPlayerIds profiles players !! i = Some out /\
    (forall k, k ∉ ["playerId"; "storedSteamUrl"; "storedSteamId"] ->
               out !! k = profile !! k) /\
    ((out = profile /\ forall q, q ∈ players -> sameIdentity profile q = false) \/
     (exists n player,
        players !! n = Some player /\ n < length players /\
        matchOf profile players n /\ sameIdentity profile player = true /\
        field out "playerId" = JNum (Z.of_nat n) /\
        field out "storedSteamId" = jsOr (field player "steamId") JNull /\
        field out "storedSteamUrl" = jsOr (field player "steamUrl") JNull)).
Proof.
  intros Hi. unfold attachPlayerIds. rewrite length_map. split; [done|].
  rewrite list_lookup_fmap, Hi. simpl. eexists. split; [reflexivity|].
  pose proof (lookupBoth_indexPlayersAt profile players) as Hfound.
  destruct (lookupBoth _ _ profile) as [[n player]|].
  - destruct Hfound as [Hn Hmatch]. split.
    + intros k Hk. rewrite !lookup_insert_ne; [done|set_solver..].
    + right. exists n, player. split; [done|]. split; [by eapply lookup_lt_Some|].
      split; [done|]. split.
      { rewrite sameIdentity_sharesKey.
        destruct Hmatch as [(q & Hq & Hs & _)|[_ (q & Hq & Hs & _)]];
          rewrite Hn in Hq; injection Hq as <-; rewrite Hs; by rewrite ?orb_true_r. }
      split; [|split].
      * rewrite !field_insert_ne by done. apply field_insert_eq.
      * apply field_insert_eq.
      * rewrite field_insert_ne by done. apply field_insert_eq.
  - split; [done|]. by left.
Qed.

Lemma attachPlayerIds_points_into_roster_witness :
  let ann : jsobj := {[ "steamId" := JStr "76561198000000001"; "steamUrl" := JNull ]} in
  let bob : jsobj := {[ "steamId" := JNull; "steamUrl" := JStr "https://steamcommunity.com/id/bob" ]} in
  let cached : jsobj := {[ "steamUrl" := JStr "https://steamcommunity.com/id/bob"; "displayName" := JStr "Bob" ]} in
  length (attachPlayerIds [cached] [ann; bob]) = 1 /\
  exists out,
    attachPlayerIds [cached] [ann; bob] !! 0 = Some out /\
    out !! "displayName" = Some (JStr "Bob").
Proof.
  intros ann bob cached.
  destruct (attachPlayerIds_points_into_roster [cached] [ann; bob] 0 cached eq_refl)
    as (Hlen & out & Hout & Hkeep & _).
  split; [exact Hlen|]. exists out. split; [exact Hout|].
  rewrite Hkeep by set_solver. reflexivity.
Defined.


Lemma indexPlayers_snoc (key : string) (players : list jsobj) (x : jsobj) :
  indexPlayers key (players ++ [x]) =
  if truthy (field x key)
  then <[toStr (field x key) := x]> (indexPlayers key players)
  else indexPlayers key players.
Proof. unfold indexPlayers. by rewrite foldl_app. Qed.

(** The [Map]s of [mergeCachedProfiles] are those of [attachPlayerIds]
    without the indices. *)
Lemma indexPlayers_indexPlayersAt (key : string) (players : list jsobj) :
  indexPlayers key players = snd <$> indexPlayersAt key players.
Proof.
  induction players as [|x players IH] using rev_ind.
  - unfold indexPlayers, indexPlayersAt. simpl. by rewrite fmap_empty.
  - rewrite indexPlayers_snoc, indexPlayersAt_snoc, IH.
    destruct (truthy (field x key)); [|done]. by rewrite fmap_insert.
Qed.

Lemma lookupBoth_fmap {V V'} (f : V -> V') (a b : gmap string V) (profile : jsobj) :
  lookupBoth (f <$> a) (f <$> b) profile = f <$> lookupBoth a b profile.
Proof.
  unfold lookupBoth. rewrite !lookup_fmap.
  destruct (truthy (field profile "steamId")); simpl.
  - destruct (a !! _); simpl; [done|].
    destruct (truthy (field profile "steamUrl")); simpl; [|done]. by destruct (b !! _).
  - destruct (truthy (field profile "steamUrl")); simpl; [|done]. by destruct (b !! _).
Qed.

Lemma absent_key_false {V} (a : gmap string (nat * V)) (v : jsval) :
  (if truthy v then a !! toStr v else None) = None ->
  truthy (strOrNull v) &&
    bool_decide (is_Some ((snd <$> a) !! toStr (strOrNull v))) = false.
Proof.
  rewrite truthy_strOrNull. destruct (truthy v) eqn:Hv; [|done]. intros Ha.
  rewrite toStr_strOrNull, lookup_fmap, Ha by done. done.
Qed.

(** A profile matches some roster player exactly when the lookups find
    one. *)
Lemma lookupBoth_existsb (profile : jsobj) (players : list jsobj) :
  existsb (sameIdentity profile) players =
  bool_decide (is_Some (lookupBoth (indexPlayersAt "steamId" players)
                                   (indexPlayersAt "steamUrl" players) profile)).
Proof.
  pose proof (lookupBoth_indexPlayersAt profile players) as Hfound.
  destruct (lookupBoth _ _ profile) as [[n player]|].
  - rewrite bool_decide_eq_true_2 by eauto. apply existsb_exists.
    destruct Hfound as [Hn Hmatch]. exists player. split.
    + apply list_elem_of_In. by eapply list_elem_of_lookup_2.
    + rewrite sameIdentity_sharesKey.
      destruct Hmatch as [(q & Hq & Hs & _)|[_ (q & Hq & Hs & _)]];
        rewrite Hn in Hq; injection Hq as <-; rewrite Hs; by rewrite ?orb_true_r.
  - rewrite bool_decide_eq_false_2 by (by intros [? ?]).
    destruct (existsb (sameIdentity profile) players) eqn:He; [|done].
    apply existsb_exists in He as (q & Hq%list_elem_of_In & Hs).
    by rewrite Hfound in Hs.
Qed.

(** X4. [mergeCachedProfiles] keeps, in their order, exactly the cached profiles
    that share a truthy steamId or steamUrl with a roster player, so none
    is left when the roster is empty.  Each kept profile takes steamUrl,
    steamId, displayName and avatarUrl from the roster player found for it
    (the last that shares its steamId, else the last that shares its
    steamUrl) where that player's value is truthy, keeps its own value where
    it is not, and keeps every other property. *)
Theorem mergeCachedProfiles_keeps_roster_matches
    (profiles : option (list jsobj)) (players : list jsobj) :
  Forall2
    (fun profile out =>
       exists n player,
         players !! n = Some player /\ matchOf profile players n /\
         (forall k, k ∈ ["steamUrl"; "steamId"; "displayName"; "avatarUrl"] ->
                    field out k = jsOr (field player k) (field profile k)) /\
         (forall k, k ∉ ["steamUrl"; "steamId"; "displayName"; "avatarUrl"] ->
                    out !! k = profile !! k) /\
         sameIdentity out player = true)
    (List.filter (fun profile => existsb (sameIdentity profile) players)
                 (default [] profiles))
    (mergeCachedProfiles profiles players) /\
  mergeCachedProfiles profiles [] = [].
Proof.
  assert (forall players : list jsobj, Forall2
    (fun profile out =>
       exists n player,
         players !! n = Some player /\ matchOf profile players n /\
         (forall k, k ∈ ["steamUrl"; "steamId"; "displayName"; "avatarUrl"] ->
                    field out k = jsOr (field player k) (field profile k)) /\
         (forall k, k ∉ ["steamUrl"; "steamId"; "displayName"; "avatarUrl"] ->
                    out !! k = profile !! k) /\
         sameIdentity out player = true)
    (List.filter (fun profile => existsb (sameIdentity profile) players)
                 (default [] profiles))
    (mergeCachedProfiles profiles players)) as Hall.
  { clear players. intros players. unfold mergeCachedProfiles. rewrite !indexPlayers_indexPlayersAt.
    induction (default [] profiles) as [|profile l IH]; simpl; [constructor|].
    rewrite lookupBoth_existsb, lookupBoth_fmap.
    pose proof (lookupBoth_indexPlayersAt profile players) as Hfound.
    destruct (lookupBoth _ _ profile) as [[n player]|] eqn:Hlook; simpl.
    - destruct Hfound as [Hn Hmatch].
      set (out := <["avatarUrl" := _]> _).
      assert (forall k, k ∈ ["steamUrl"; "steamId"; "displayName"; "avatarUrl"] ->
                field out k = jsOr (field player k) (field profile k)) as Hfour.
      { intros k Hk. unfold out.
        repeat (apply elem_of_cons in Hk as [->|Hk]);
          [..|by apply elem_of_nil in Hk];
          repeat first [apply field_insert_eq | rewrite field_insert_ne by done]. }
      assert (sharesKey "steamId" profile player = true \/
              sharesKey "steamUrl" profile player = true) as Hshare.
      { destruct Hmatch as [(q & Hq & Hs & _)|[_ (q & Hq & Hs & _)]];
          rewrite Hn in Hq; injection Hq as <-; auto. }
      assert (forall key, sharesKey key profile player = true ->
                key ∈ ["steamId"; "steamUrl"] ->
                truthy (field out key) = true /\
                toStr (field out key) = toStr (field player key) /\
                sharesKey key out player = true) as Hout.
      { intros key (_ & Ht & _)%sharesKey_true Hkey.
        assert (field out key = field player key) as Hk.
        { rewrite Hfour by set_solver. unfold jsOr. by rewrite Ht. }
        rewrite Hk. split; [done|]. split; [done|].
        apply sharesKey_true. by rewrite Hk. }
      assert (forall key, truthy (field player key) = true ->
                is_Some (indexPlayersAt key players !! toStr (field player key))) as Hhas.
      { intros key Ht.
        pose proof (indexPlayersAt_lookup key players (toStr (field player key))) as H.
        destruct (indexPlayersAt key players !! _) as [[m q]|]; [eauto|].
        by destruct (H n player Hn Ht). }
      assert ((truthy (strOrNull (field out "steamId")) &&
               bool_decide (is_Some ((snd <$> indexPlayersAt "steamId" players)
                                       !! toStr (strOrNull (field out "steamId")))))
              || (truthy (strOrNull (field out "steamUrl")) &&
                  bool_decide (is_Some ((snd <$> indexPlayersAt "steamUrl" players)
                                          !! toStr (strOrNull (field out "steamUrl")))))
              = true) as ->.
      { apply orb_true_iff.
        destruct Hshare as [Hs|Hs]; [left|right];
          pose proof Hs as (_ & Htp & _)%sharesKey_true;
          destruct (Hout _ Hs ltac:(set_solver)) as (Ht & Hk & _);
          rewrite truthy_strOrNull, Ht, toStr_strOrNull, Hk, lookup_fmap by done;
          simpl; apply bool_decide_eq_true_2, fmap_is_Some; by apply Hhas. }
      constructor; [|exact IH].
      exists n, player. split; [done|]. split; [done|]. split; [done|]. split.
      + intros k Hk. unfold out. rewrite !lookup_insert_ne; [done|set_solver..].
      + rewrite sameIdentity_sharesKey. apply orb_true_iff.
        destruct Hshare as [Hs|Hs]; [left|right];
          by destruct (Hout _ Hs ltac:(set_solver)) as (_ & _ & ?).
    - assert ((truthy (strOrNull (field profile "steamId")) &&
               bool_decide (is_Some ((snd <$> indexPlayersAt "steamId" players)
                                       !! toStr (strOrNull (field profile "steamId")))))
              || (truthy (strOrNull (field profile "steamUrl")) &&
                  bool_decide (is_Some ((snd <$> indexPlayersAt "steamUrl" players)
                                          !! toStr (strOrNull (field profile "steamUrl")))))
              = false) as ->; [|exact IH].
      unfold lookupBoth in Hlook.
      destruct (if truthy (field profile "steamId") then _ else None) eqn:Hi; [done|].
      by rewrite (absent_key_false _ _ Hi), (absent_key_false _ _ Hlook). }
  split; [apply Hall|].
  specialize (Hall []). simpl in Hall.
  assert (forall l : list jsobj, List.filter (fun _ => false) l = []) as Hnil.
  { intros l. induction l; simpl; done. }
  rewrite Hnil in Hall. by inversion Hall.
Qed.


Section ResponseFacts.
Variable urlPathname : string -> option string.

(** The profiles of the response are the combined profiles, each with
    nothing changed but the properties added. *)
Lemma decorated_profiles (profiles players : list jsobj) (q : jsobj) :
  q ∈ map withNeedsSteam64 (attachPlayerIds profiles players) <->
  exists p, p ∈ profiles /\ q = withNeedsSteam64
    (match lookupBoth (indexPlayersAt "steamId" players)
                      (indexPlayersAt "steamUrl" players) p with
     | Some (index, player) =>
         <["storedSteamId" := jsOr (field player "steamId") JNull]>
         (<["storedSteamUrl" := jsOr (field player "steamUrl") JNull]>
         (<["playerId" := JNum (Z.of_nat index)]> p))
     | None => p
     end).
Proof.
  unfold attachPlayerIds. rewrite list_elem_of_fmap. split.
  - intros (a & -> & (p & -> & Hp)%list_elem_of_fmap). eauto.
  - intros (p & Hp & ->). eexists. split; [reflexivity|].
    apply list_elem_of_fmap. eauto.
Qed.

Lemma decorated_statsKeyOf (players : list jsobj) (p : jsobj) :
  statsKeyOf (withNeedsSteam64
    (match lookupBoth (indexPlayersAt "steamId" players)
                      (indexPlayersAt "steamUrl" players) p with
     | Some (index, player) =>
         <["storedSteamId" := jsOr (field player "steamId") JNull]>
         (<["storedSteamUrl" := jsOr (field player "steamUrl") JNull]>
         (<["playerId" := JNum (Z.of_nat index)]> p))
     | None => p
     end)) = statsKeyOf p.
Proof.
  unfold statsKeyOf, withNeedsSteam64.
  destruct (lookupBoth _ _ p) as [[index player]|];
    by rewrite !field_insert_ne by done.
Qed.

(** X5. The response has the tabs of the cache, each with its metrics and its
    column map.  Of the stats of a tab it has exactly the entries whose key
    is not empty and is the label,
    [displayName || fallbackName || steamId || steamUrl], of a profile of
    the response, each with the body the cache has: no stats without a
    profile.  The top-level [metrics] and [stats] are those of
    the pvp tab of the response, empty when the cache has no such tab. *)
Theorem response_stats_belong_to_profiles
    (cache : ServerCache) (players : list jsobj) :
  exists response,
    buildResponseFromCache urlPathname (Some cache) players = Some response /\
    dom (resp_tabs response) = dom (default ∅ (c_tabs cache)) /\
    (forall tabKey tab,
       default ∅ (c_tabs cache) !! tabKey = Some tab ->
       exists tab',
         resp_tabs response !! tabKey = Some tab' /\
         metrics tab' = metrics tab /\ columnMap tab' = columnMap tab /\
         forall label body,
           default ∅ (stats tab') !! label = Some body <->
           default ∅ (stats tab) !! label = Some body /\ label <> "" /\
           exists q, q ∈ resp_profiles response /\ statsKeyOf q = JStr label) /\
    resp_metrics response = default [] (resp_tabs response !! "pvp" ≫= metrics) /\
    resp_stats response = default ∅ (resp_tabs response !! "pvp" ≫= stats).
Proof.
  eexists. split; [reflexivity|]. simpl.
  set (combined := mergeCachedProfiles _ players ++ missingProfiles _ _ players).
  split; [|split; [|split; reflexivity]].
  - unfold filterStatsToProfiles. by rewrite dom_fmap_L.
  - intros tabKey tab Htab. unfold filterStatsToProfiles at 1.
    rewrite lookup_fmap, Htab. simpl. eexists. split; [reflexivity|]. simpl.
    split; [done|]. split; [done|]. intros label body.
    rewrite map_lookup_filter_Some. simpl.
    apply and_iff_compat_l. rewrite list_elem_of_In, filter_In, in_map_iff. split.
    + intros [(p & Hkey & Hp) Htruthy]. split.
      { intros ->. discriminate Htruthy. }
      exists (withNeedsSteam64
        (match lookupBoth (indexPlayersAt "steamId" players)
                          (indexPlayersAt "steamUrl" players) p with
         | Some (index, player) =>
             <["storedSteamId" := jsOr (field player "steamId") JNull]>
             (<["storedSteamUrl" := jsOr (field player "steamUrl") JNull]>
             (<["playerId" := JNum (Z.of_nat index)]> p))
         | None => p
         end)).
      split.
      * apply decorated_profiles. exists p. split; [by apply list_elem_of_In|done].
      * rewrite decorated_statsKeyOf. exact Hkey.
    + intros (Hne & q & (p & Hp & ->)%decorated_profiles & Hkey).
      rewrite decorated_statsKeyOf in Hkey. split.
      * exists p. split; [exact Hkey | by apply list_elem_of_In].
      * simpl. apply negb_true_iff, String.eqb_neq. exact Hne.
Qed.
End ResponseFacts.


(** ** [buildFallbackResponse] *)

Lemma fallbackProfile_fields (player : jsobj) :
  field (fallbackProfile player) "steamUrl" = field player "steamUrl" /\
  field (fallbackProfile player) "steamId" = field player "steamId" /\
  field (fallbackProfile player) "displayName" =
    jsOr (jsOr (field player "displayName") (field player "steamId"))
         (field player "steamUrl") /\
  field (fallbackProfile player) "avatarUrl" =
    jsOr (field player "avatarUrl") (JStr FALLBACK_AVATAR) /\
  (exists b, field (fallbackProfile player) "needsSteam64" = JBool b) /\
  fallbackProfile player !! "playerId" = None.
Proof.
  unfold fallbackProfile.
  repeat split;
    repeat first [ apply field_insert_eq
                 | rewrite field_insert_ne by done
                 | (unfold field; rewrite lookup_singleton_eq; reflexivity)
                 | (eexists; unfold field; rewrite lookup_singleton_eq; reflexivity) ].
Qed.

Lemma sharesKey_fields (key : string) (a a' b : jsobj) :
  field a key = field a' key -> sharesKey key a b = sharesKey key a' b.
Proof. unfold sharesKey. by intros ->. Qed.

Lemma sharesKey_self (key : string) (a : jsobj) :
  sharesKey key a a = truthy (field a key).
Proof. unfold sharesKey. by rewrite String.eqb_refl, andb_true_r, andb_diag. Qed.

(** X6. The fallback response has one profile for every roster player, in the
    order of the roster, whether an id can be derived from the player or
    not: the player's steamUrl and steamId, the display name
    [displayName || steamId || steamUrl], the avatar or the fallback
    avatar, and a boolean [needsSteam64].  A player with neither a truthy
    steamId nor a truthy steamUrl gets no [playerId]; any other gets its own
    index, or that of a later roster player with the same steamId or
    steamUrl.  The response has no tabs, stats, metrics or missing entries and
    is flagged as not cached. *)
Theorem fallback_response_covers_roster
    (serverName : string) (players : list jsobj) (i : nat) (player : jsobj) :
  players !! i = Some player ->
  let fallback := buildFallbackResponse serverName players in
  let response := fb_response fallback in
  fb_cached fallback = false /\
  resp_tabs response = ∅ /\ resp_stats response = ∅ /\
  resp_metrics response = [] /\ resp_missing response = [] /\
  length (resp_profiles response) = length players /\
  exists q,
    resp_profiles response !! i = Some q /\
    field q "steamUrl" = field player "steamUrl" /\
    field q "steamId" = field player "steamId" /\
    field q "displayName" =
      jsOr (jsOr (field player "displayName") (field player "steamId"))
           (field player "steamUrl") /\
    field q "avatarUrl" = jsOr (field player "avatarUrl") (JStr FALLBACK_AVATAR) /\
    (exists b, field q "needsSteam64" = JBool b) /\
    if truthy (field player "steamId") || truthy (field player "steamUrl")
    then exists n later,
           players !! n = Some later /\ i <= n /\
           sameIdentity player later = true /\
           field q "playerId" = JNum (Z.of_nat n)
    else q !! "playerId" = None.
Proof.
  intros Hi fallback response. subst fallback response. simpl.
  unfold attachPlayerIds. rewrite !length_map.
  repeat (split; [done|]).
  rewrite list_lookup_fmap, list_lookup_fmap, Hi. simpl.
  eexists. split; [reflexivity|].
  destruct (fallbackProfile_fields player) as (Hu & Hd & Hn & Ha & Hb & Hp).
  pose proof (lookupBoth_indexPlayersAt (fallbackProfile player) players) as Hfound.
  assert (forall q, sameIdentity (fallbackProfile player) q = sameIdentity player q)
    as Hsame.
  { intros q. by apply sameIdentity_fields_l. }
  assert (sameIdentity player player =
          truthy (field player "steamId") || truthy (field player "steamUrl")) as Hself.
  { by rewrite sameIdentity_sharesKey, !sharesKey_self. }
  destruct (lookupBoth _ _ (fallbackProfile player)) as [[n later]|].
  - destruct Hfound as [Hn' Hmatch].
    rewrite !field_insert_ne by done. repeat (split; [done|]).
    assert (sameIdentity player later = true /\ i <= n) as [Hshare Hle].
    { destruct Hmatch as [(q & Hq & Hs & Hlast)|[Hnone (q & Hq & Hs & Hlast)]];
        rewrite Hn' in Hq; injection Hq as <-.
      - rewrite (sharesKey_fields _ _ player) in Hs by done. split.
        + by rewrite sameIdentity_sharesKey, Hs.
        + apply (Hlast i player Hi). rewrite (sharesKey_fields _ _ player) by done.
          rewrite sharesKey_self. by apply sharesKey_true in Hs as (? & _).
      - rewrite (sharesKey_fields _ _ player) in Hs by done. split.
        + by rewrite sameIdentity_sharesKey, Hs, orb_true_r.
        + apply (Hlast i player Hi). rewrite (sharesKey_fields _ _ player) by done.
          rewrite sharesKey_self. by apply sharesKey_true in Hs as (? & _). }
    rewrite <- Hself.
    assert (sameIdentity player player = true) as ->.
    { rewrite Hself. rewrite sameIdentity_sharesKey in Hshare.
      apply orb_true_iff in Hshare as [(H & _)%sharesKey_true|(H & _)%sharesKey_true];
        rewrite H; by rewrite ?orb_true_r. }
    exists n, later. repeat (split; [done|]).
    apply field_insert_eq.
  - repeat (split; [done|]). rewrite <- Hself, <- Hsame.
    rewrite Hfound by (by eapply list_elem_of_lookup_2). exact Hp.
Qed.

Lemma fallback_response_covers_roster_witness :
  let ann : jsobj := {[ "steamUrl" := JStr "ann"; "steamId" := JNull; "displayName" := JNull; "avatarUrl" := JNull ]} in
  let response := fb_response (buildFallbackResponse SERVER_NAME [ann]) in
  length (resp_profiles response) = 1 /\
  exists q,
    resp_profiles response !! 0 = Some q /\
    field q "displayName" = JStr "ann" /\
    field q "avatarUrl" = JStr FALLBACK_AVATAR.
Proof.
  intros ann response.
  destruct (fallback_response_covers_roster SERVER_NAME [ann] 0 ann eq_refl)
    as (_ & _ & _ & _ & _ & Hlen & q & Hq & _ & _ & Hname & Havatar & _).
  split; [exact Hlen|]. exists q. split; [exact Hq|]. split; [exact Hname|exact Havatar].
Defined.


(** ** The store read from the file *)

Section StoreFacts.
Variable trim : string -> string.
Variable toLowerCase : string -> string.

Lemma normalizeServerName_allowed (serverName : jsval) :
  normalizeServerName trim toLowerCase serverName ∈ ALLOWED_SERVERS.
Proof.
  rewrite normalizeServerName_unfold. unfold ALLOWED_SERVERS, SERVER_NAME. simpl.
  destruct (truthy serverName); [|set_solver].
  repeat match goal with |- context [if ?b then _ else _] => destruct b; simpl end;
  set_solver.
Qed.

(** X7. A file that cannot be read gives the empty store, and so does a
    document with neither a [servers] dictionary nor a truthy [serverName].
    A document with a [servers] dictionary is the store.  A document of the
    old layout that names a server becomes a store with that one cache,
    filed under the normalised name, whatever server it names, and
    [getServerCache] finds it there.  Unless the store is the document's own
    dictionary, every cache of it is filed under an allow-listed name. *)
Theorem loadCacheStore_files_old_layout (raw : option CacheFile) :
  let store := loadCacheStore trim toLowerCase raw in
  (raw = None -> store = ∅) /\
  (forall file servers,
     raw = Some file -> file_servers file = Some servers -> store = servers) /\
  (forall file,
     raw = Some file -> file_servers file = None ->
     let name := normalizeServerName trim toLowerCase (c_serverName (file_cache file)) in
     if truthy (c_serverName (file_cache file))
     then dom store = {[ name ]} /\
          getServerCache (Some store) name = Some (file_cache file)
     else store = ∅) /\
  ((forall file servers,
      raw = Some file -> file_servers file = Some servers -> allowListed servers) ->
   allowListed store).
Proof.
  intros store. subst store. unfold loadCacheStore.
  split; [by intros ->|]. split; [by intros file servers -> ->|]. split.
  - intros file -> ->. simpl. destruct (truthy (c_serverName (file_cache file))); [|done].
    split; [by rewrite dom_singleton_L | by rewrite lookup_singleton_eq].
  - intros Hfile. destruct raw as [file|]; [|by intros name Hin; set_solver].
    destruct (file_servers file) as [servers|] eqn:Hs; [by eapply Hfile|].
    destruct (truthy (c_serverName (file_cache file))); [|by intros name Hin; set_solver].
    intros name. rewrite dom_singleton_L, elem_of_singleton. intros ->.
    apply normalizeServerName_allowed.
Qed.
End StoreFacts.

(** ** Steam profile URLs and ids *)

Lemma buildSteamUrl_cases (steamUrl steamId : jsval) :
  buildSteamUrl steamUrl steamId = JNull \/
  truthy (buildSteamUrl steamUrl steamId) = true /\
  isHttpUrl (toStr (buildSteamUrl steamUrl steamId)) = true.
Proof.
  unfold buildSteamUrl.
  destruct (truthy steamUrl && isHttpUrl (toStr steamUrl)) eqn:Hu.
  - right. by apply andb_true_iff in Hu.
  - destruct (truthy steamId && isDigits17 (toStr steamId)); [|by left].
    right. done.
Qed.

(** X8. [buildSteamUrl] gives [null] or an http(s) URL, never anything else: the
    given steamUrl itself when that is one (whatever the steamId), and
    otherwise the profile URL of a steamId of 17 digits.  It gives [null]
    exactly when neither is at hand, and a URL it has built is returned
    unchanged when passed again as the steamUrl. *)
Theorem buildSteamUrl_http_or_null (steamUrl steamId : jsval) :
  let built := buildSteamUrl steamUrl steamId in
  (built = JNull \/ truthy built = true /\ isHttpUrl (toStr built) = true) /\
  (truthy steamUrl && isHttpUrl (toStr steamUrl) = true -> built = steamUrl) /\
  (truthy steamUrl && isHttpUrl (toStr steamUrl) = false ->
   truthy steamId && isDigits17 (toStr steamId) = true ->
   built = JStr ("https://steamcommunity.com/profiles/" +:+ toStr steamId)) /\
  (built = JNull <->
   truthy steamUrl && isHttpUrl (toStr steamUrl) = false /\
   truthy steamId && isDigits17 (toStr steamId) = false) /\
  (built <> JNull -> forall otherId, buildSteamUrl built otherId = built).
Proof.
  intros built. split; [apply buildSteamUrl_cases|]. subst built.
  destruct (truthy steamUrl && isHttpUrl (toStr steamUrl)) eqn:Hu;
    [|destruct (truthy steamId && isDigits17 (toStr steamId)) eqn:Hi].
  - assert (buildSteamUrl steamUrl steamId = steamUrl) as Hb.
    { unfold buildSteamUrl. by rewrite Hu. }
    rewrite Hb. split; [done|]. split; [done|]. split.
    + split; [|by intros [? _]]. intros ->. done.
    + intros _ otherId. unfold buildSteamUrl. by rewrite Hu.
  - assert (buildSteamUrl steamUrl steamId =
            JStr ("https://steamcommunity.com/profiles/" +:+ toStr steamId)) as Hb.
    { unfold buildSteamUrl. by rewrite Hu, Hi. }
    rewrite Hb. split; [done|]. split; [done|].
    split; [split; [done|by intros [_ ?]]|]. intros _ otherId. reflexivity.
  - assert (buildSteamUrl steamUrl steamId = JNull) as Hb.
    { unfold buildSteamUrl. by rewrite Hu, Hi. }
    rewrite Hb. split; [done|]. split; [done|]. split; [done|]. done.
Qed.

Lemma string_app_cons (x : ascii) (a b : string) :
  String x a +:+ b = String x (a +:+ b).
Proof. reflexivity. Qed.

Lemma string_app_assoc (a b c : string) : (a +:+ b) +:+ c = a +:+ (b +:+ c).
Proof.
  induction a as [|x a IH]; [done|]. rewrite !string_app_cons. by rewrite IH.
Qed.

Lemma string_app_nil (a : string) : a +:+ "" = a.
Proof.
  induction a as [|x a IH]; [done|]. rewrite string_app_cons. by rewrite IH.
Qed.

Lemma segments_digits (cur d : string) :
  allDigits d = true ->
  segments cur d = if String.eqb (cur +:+ d) "" then [] else [cur +:+ d].
Proof.
  revert cur. induction d as [|c d IH]; intros cur Hd; simpl.
  - by rewrite string_app_nil.
  - simpl in Hd. apply andb_true_iff in Hd as [Hc Hd].
    assert (Ascii.eqb c "/"%char = false) as ->.
    { apply Ascii.eqb_neq. intros ->. discriminate Hc. }
    rewrite IH by done. rewrite string_app_assoc. reflexivity.
Qed.

Lemma isDigits17_nonempty (d : string) : isDigits17 d = true -> d <> "".
Proof. intros H ->. discriminate H. Qed.

Section UrlFacts.
Variable urlPathname : string -> option string.

(** X9. The profile URL [buildSteamUrl] makes of a steamId of 17 digits leads
    back to that steamId: where the URL parser gives the path
    [/profiles/<id>] for it, [steamIdFromUrl] of the URL is the id. *)
Theorem steamIdFromUrl_of_built_url (steamUrl steamId : jsval) :
  truthy steamUrl && isHttpUrl (toStr steamUrl) = false ->
  truthy steamId && isDigits17 (toStr steamId) = true ->
  urlPathname ("https://steamcommunity.com/profiles/" +:+ toStr steamId)
    = Some ("/profiles/" +:+ toStr steamId) ->
  steamIdFromUrl urlPathname (buildSteamUrl steamUrl steamId) = JStr (toStr steamId) /\
  isValidSteamId (steamIdFromUrl urlPathname (buildSteamUrl steamUrl steamId)) = true.
Proof.
  intros Hu Hi Hpath. unfold buildSteamUrl. rewrite Hu, Hi.
  apply andb_true_iff in Hi as [_ Hd].
  assert (steamIdFromUrl urlPathname
            (JStr ("https://steamcommunity.com/profiles/" +:+ toStr steamId))
          = JStr (toStr steamId)) as ->.
  { unfold steamIdFromUrl. rewrite Hpath.
    change (segments "" ("/profiles/" +:+ toStr steamId))
      with ([] ++ ["profiles"] ++ segments "" (toStr steamId)).
    pose proof Hd as Hd'. unfold isDigits17 in Hd'. apply andb_true_iff in Hd' as [_ Hall].
    rewrite segments_digits by done. simpl.
    change ("" +:+ toStr steamId) with (toStr steamId).
    pose proof (isDigits17_nonempty _ Hd) as Hne.
    apply String.eqb_neq in Hne. rewrite Hne. simpl.
    unfold jsOr. simpl. by rewrite Hne. }
  split; [done|]. unfold isValidSteamId, jsOr. simpl.
  rewrite (proj2 (String.eqb_neq _ _) (isDigits17_nonempty _ Hd)). simpl. exact Hd.
Qed.
End UrlFacts.

Lemma steamIdFromUrl_of_built_url_witness :
  steamIdFromUrl plainHttpPathname
    (buildSteamUrl (JStr "steamcommunity.com/id/ann") (JStr "76561198000000001"))
  = JStr "76561198000000001" /\
  isValidSteamId
    (steamIdFromUrl plainHttpPathname
       (buildSteamUrl (JStr "steamcommunity.com/id/ann") (JStr "76561198000000001")))
  = true.
Proof.
  exact (steamIdFromUrl_of_built_url plainHttpPathname
           (JStr "steamcommunity.com/id/ann") (JStr "76561198000000001")
           eq_refl eq_refl eq_refl).
Defined.


(** ** [resolveSteamId64] and the hydration of a player *)

Lemma matchSteamID64_eq (txt : string) :
  matchSteamID64 txt =
  match (if String.prefix "<steamID64>" txt then
           if isDigits17 (String.substring 0 17 (dropChars 11 txt)) &&
              String.prefix "</steamID64>" (dropChars 17 (dropChars 11 txt))
           then Some (String.substring 0 17 (dropChars 11 txt)) else None
         else None) with
  | Some digits => Some digits
  | None =>
      match txt with
      | EmptyString => None
      | String _ txt' => matchSteamID64 txt'
      end
  end.
Proof. destruct txt; reflexivity. Qed.

Lemma matchSteamID64_digits (txt digits : string) :
  matchSteamID64 txt = Some digits -> isDigits17 digits = true.
Proof.
  induction txt as [|c txt IH].
  - intros H. vm_compute in H. discriminate H.
  - rewrite matchSteamID64_eq.
    destruct (String.prefix "<steamID64>" (String c txt)); [|exact IH].
    destruct (isDigits17 _ && String.prefix _ _) eqn:Hd; [|exact IH].
    intros [= <-]. by apply andb_true_iff in Hd as [Hd _].
Qed.

Lemma steamIdFromUrl_string (urlPathname : string -> option string) (v : jsval) :
  steamIdFromUrl urlPathname v = JNull \/
  exists part, steamIdFromUrl urlPathname v = JStr part /\ part <> "".
Proof.
  unfold steamIdFromUrl. destruct v as [| | | |s]; auto.
  destruct (urlPathname s) as [pathname|]; auto.
  destruct (last (segments "" pathname)) as [part|]; auto.
  unfold jsOr. simpl. destruct (String.eqb part "") eqn:He; simpl; auto.
  right. exists part. split; [done|]. by apply String.eqb_neq.
Qed.

Section SteamLookupFacts.
Variable W : Type.
Variable fetch : string -> W -> W * completion FetchResponse.
Variable urlPathname : string -> option string.
Variable encodeURIComponent : string -> completion string.
Variable tableMatch : string -> option string.
Variable looseMatch : string -> option string.
Variable scrapeSummary : string -> W -> W * jsobj.

Abbreviation resolve :=
  (resolveSteamId64 W fetch urlPathname encodeURIComponent tableMatch looseMatch).

Lemma resolveByXml_result (normalized : string) (w : W) :
  match (resolveByXml W fetch normalized w).2 with
  | Return v => v = JNull \/ exists digits, v = JStr digits /\ isDigits17 digits = true
  | Throw _ => True
  end.
Proof.
  unfold resolveByXml. destruct (fetch _ w) as [w1 [resp|err]]; simpl; [|done].
  destruct (fetch_ok resp); simpl; [|by left].
  destruct (fetch_text resp) as [txt|err]; simpl; [|done].
  destruct (matchSteamID64 txt) as [digits|] eqn:Hm; [|by left].
  right. exists digits. pose proof (matchSteamID64_digits _ _ Hm) as Hd.
  split; [|done]. unfold jsOr. simpl.
  by rewrite (proj2 (String.eqb_neq _ _) (isDigits17_nonempty _ Hd)).
Qed.

(** What [resolveSteamId64] can give at all. *)
Lemma resolveSteamId64_result (steamUrl : jsval) (w : W) :
  (resolve steamUrl w).2 = JNull \/
  exists digits, (resolve steamUrl w).2 = JStr digits /\ isDigits17 digits = true.
Proof.
  unfold resolveSteamId64. destruct (truthy steamUrl); simpl; [|by left].
  unfold resolveSteamId64Try.
  set (normalized := stripTrailingSlash (toStr steamUrl)).
  destruct (steamIdFromUrl_string urlPathname (JStr normalized)) as [->|(part & -> & Hpart)].
  - simpl. pose proof (resolveByXml_result normalized w) as Hx.
    destruct (resolveByXml W fetch normalized w) as [w1 [v|err]]; simpl in *; auto.
  - simpl. rewrite (proj2 (String.eqb_neq _ _) Hpart). simpl.
    destruct (isDigits17 part) eqn:Hd; simpl; [right; eauto|].
    destruct (encodeURIComponent part) as [encoded|err]; simpl; [|by left].
    destruct (fetch _ w) as [w1 [resp|err]]; simpl; by left.
Qed.

(** X10. [resolveSteamId64] gives [null] or a string of 17 digits, nothing else.
    It gives [null] for a falsy argument, and the last path segment of the
    URL (a trailing slash dropped) when that has 17 digits; in both cases
    without a request. *)
Theorem resolveSteamId64_null_or_id64 (steamUrl : jsval) (w : W) :
  ((resolve steamUrl w).2 = JNull \/
   exists digits, (resolve steamUrl w).2 = JStr digits /\ isDigits17 digits = true) /\
  (truthy steamUrl = false -> resolve steamUrl w = (w, JNull)) /\
  (forall digits,
     truthy steamUrl = true ->
     steamIdFromUrl urlPathname (JStr (stripTrailingSlash (toStr steamUrl))) = JStr digits ->
     isDigits17 digits = true ->
     resolve steamUrl w = (w, JStr digits)).
Proof.
  split; [apply resolveSteamId64_result|]. split.
  - intros Hf. unfold resolveSteamId64. by rewrite Hf.
  - intros digits Ht Hlast Hd. unfold resolveSteamId64, resolveSteamId64Try.
    rewrite Ht, Hlast. simpl.
    by rewrite (proj2 (String.eqb_neq _ _) (isDigits17_nonempty _ Hd)), Hd.
Qed.

(** X11. For a URL whose last path segment is not a string of 17 digits, a
    vanity URL, [resolveSteamId64] gives [null] whatever the network
    answers: the request to the lookup service is made, and then
    [lookupResp.ok()] throws, [ok] being a property and no method, so the
    request for the XML profile is never reached.  At most one request is
    made. *)
Theorem resolveSteamId64_vanity_is_null (steamUrl : jsval) (vanity : string) (w : W) :
  truthy steamUrl = true ->
  steamIdFromUrl urlPathname (JStr (stripTrailingSlash (toStr steamUrl))) = JStr vanity ->
  isDigits17 vanity = false ->
  (resolve steamUrl w).2 = JNull /\
  match encodeURIComponent vanity with
  | Return encoded =>
      (resolve steamUrl w).1 = (fetch ("https://steamid.io/lookup/" +:+ encoded) w).1
  | Throw _ => (resolve steamUrl w).1 = w
  end.
Proof.
  intros Ht Hlast Hd. unfold resolveSteamId64, resolveSteamId64Try.
  rewrite Ht, Hlast. simpl. rewrite Hd, andb_false_r.
  destruct (steamIdFromUrl_string urlPathname
              (JStr (stripTrailingSlash (toStr steamUrl)))) as [Hn|(part & Hp & Hne)].
  { congruence. }
  rewrite Hlast in Hp. injection Hp as ->.
  rewrite (proj2 (String.eqb_neq _ _) Hne). simpl.
  destruct (encodeURIComponent part) as [encoded|err]; simpl; [|done].
  destruct (fetch _ w) as [w1 [resp|err]]; simpl; done.
Qed.
End SteamLookupFacts.

Lemma resolveSteamId64_vanity_is_null_witness :
  let answer : FetchResponse :=
    mkFetchResponse true (Return "<td>SteamID64</td><td>76561198000000001</td>") in
  let fetch (url : string) (requests : list string) :=
    (requests ++ [url], Return answer) in
  resolveSteamId64 (list string) fetch plainHttpPathname Return
    (fun _ => Some "76561198000000001") (fun _ => Some "76561198000000001")
    (JStr "https://steamcommunity.com/id/ann/") []
  = (["https://steamid.io/lookup/ann"], JNull).
Proof.
  intros answer fetch.
  destruct (resolveSteamId64_vanity_is_null (list string) fetch plainHttpPathname Return
              (fun _ => Some "76561198000000001") (fun _ => Some "76561198000000001")
              (JStr "https://steamcommunity.com/id/ann/") "ann" [] eq_refl eq_refl eq_refl)
    as [Hnull Hworld].
  destruct (resolveSteamId64 _ _ _ _ _ _ _ _) as [w v]. simpl in *. by subst.
Defined.


Section HydrateFacts.
Variable W : Type.
Variable fetch : string -> W -> W * completion FetchResponse.
Variable urlPathname : string -> option string.
Variable encodeURIComponent : string -> completion string.
Variable tableMatch : string -> option string.
Variable looseMatch : string -> option string.
Variable scrapeSummary : string -> W -> W * jsobj.

(** X12. Whatever the network answers, hydrating a player never replaces what is
    known of it: a steamId of 17 digits, a truthy display name and a truthy
    avatar URL stay; a steamId that changes becomes a string of 17 digits;
    the steamUrl stays or becomes an http(s) URL; no other property
    changes.  A player with a steamId of 17 digits, a name and an avatar is
    returned as it is, without a request and without setting [changed]; and
    when [changed] is not set, name, avatar and steamId are the same
    values as before. *)
Theorem hydratePlayer_keeps_what_is_known (player : jsobj) (w : W) :
  let validId :=
    truthy (field player "steamId") && isDigits17 (toStr (field player "steamId")) in
  let run :=
    hydratePlayer W fetch urlPathname encodeURIComponent tableMatch looseMatch
      scrapeSummary player w in
  let next := run.2.1 in
  let changed := run.2.2 in
  (validId = true -> field next "steamId" = field player "steamId") /\
  (field next "steamId" = field player "steamId" \/
   exists digits, field next "steamId" = JStr digits /\ isDigits17 digits = true) /\
  (truthy (field player "displayName") = true ->
   field next "displayName" = field player "displayName") /\
  (truthy (field player "avatarUrl") = true ->
   field next "avatarUrl" = field player "avatarUrl") /\
  (field next "steamUrl" = field player "steamUrl" \/
   isHttpUrl (toStr (field next "steamUrl")) = true) /\
  (forall k, k ∉ ["steamUrl"; "steamId"; "displayName"; "avatarUrl"] ->
             next !! k = player !! k) /\
  (validId = true -> truthy (field player "displayName") = true ->
   truthy (field player "avatarUrl") = true ->
   run = (w, (player, false))) /\
  (changed = false ->
   field next "displayName" = field player "displayName" /\
   field next "avatarUrl" = field player "avatarUrl" /\
   field next "steamId" = field player "steamId").
Proof.
  intros validId run next changed. subst next changed run. unfold hydratePlayer.
  fold validId.
  destruct (negb (negb validId) &&
            negb (negb (truthy (field player "displayName")) ||
                  negb (truthy (field player "avatarUrl")))) eqn:Hcomplete.
  { simpl. split_and!; try done; by left. }
  set (normalizedUrl := buildSteamUrl (field player "steamUrl") (field player "steamId")).
  pose proof (resolveSteamId64_result W fetch urlPathname encodeURIComponent
                tableMatch looseMatch
                (jsOr normalizedUrl (field player "steamUrl")) w) as Hres.
  destruct (if negb validId then _ else (w, JNull)) as [w1 resolvedId] eqn:Hr.
  assert (resolvedId = JNull \/
          exists digits, resolvedId = JStr digits /\ isDigits17 digits = true) as Hid.
  { destruct (negb validId).
    - rewrite Hr in Hres. exact Hres.
    - injection Hr as _ <-. by left. }
  destruct (if negb (truthy (field player "displayName")) || _ then _ else (w1, ∅))
    as [w2 profile]. simpl.
  rewrite !field_insert_eq.
  rewrite (field_insert_ne _ "avatarUrl" "displayName"), field_insert_eq by done.
  rewrite (field_insert_ne _ "avatarUrl" "steamId"),
          (field_insert_ne _ "displayName" "steamId"), field_insert_eq by done.
  rewrite (field_insert_ne _ "avatarUrl" "steamUrl"),
          (field_insert_ne _ "displayName" "steamUrl"),
          (field_insert_ne _ "steamId" "steamUrl"), field_insert_eq by done.
  split; [by intros ->|]. split.
  { destruct validId; [by left|].
    destruct Hid as [->|(digits & -> & Hd)]; [by left|].
    right. exists digits. unfold jsOr. simpl.
    by rewrite (proj2 (String.eqb_neq _ _) (isDigits17_nonempty _ Hd)). }
  split; [unfold jsOr; intros Hn; by rewrite !Hn|].
  split; [unfold jsOr; intros Ha; by rewrite !Ha|]. split.
  { destruct (buildSteamUrl_cases (field player "steamUrl") (field player "steamId"))
      as [Hn|[Ht Hh]]; subst normalizedUrl.
    - left. by rewrite Hn.
    - right. unfold jsOr. by rewrite Ht. }
  split.
  { intros k Hk. rewrite !lookup_insert_ne; [done|set_solver..]. }
  split.
  { intros Hv Hn Ha. rewrite Hv, Hn, Ha in Hcomplete. discriminate Hcomplete. }
  intros Hchanged. apply orb_false_iff in Hchanged as [Hchanged Hc].
  apply orb_false_iff in Hchanged as [Ha Hb].
  apply negb_false_iff, bool_decide_eq_true in Ha, Hb, Hc. done.
Qed.
End HydrateFacts.


(** ** The roster in the DELETE and the reorder routes *)

Lemma filter_sublist {A} (f : A -> bool) (l : list A) : sublist (List.filter f l) l.
Proof.
  induction l as [|x l IH]; simpl; [constructor|].
  destruct (f x); by constructor.
Qed.

Lemma filter_length_all {A} (f : A -> bool) (l : list A) :
  length (List.filter f l) = length l -> forall x, x ∈ l -> f x = true.
Proof.
  induction l as [|a l IH]; simpl; intros Hlen x Hx.
  - by apply elem_of_nil in Hx.
  - pose proof (sublist_length _ _ (filter_sublist f l)) as Hle.
    destruct (f a) eqn:Ha; simpl in Hlen; [|lia].
    apply elem_of_cons in Hx as [->|Hx]; [done|]. apply IH; [lia|done].
Qed.

Lemma filter_length_lt {A} (f : A -> bool) (l : list A) :
  length (List.filter f l) <> length l ->
  length (List.filter f l) < length l /\
  exists i x, l !! i = Some x /\ find (fun y => negb (f y)) l = Some x /\ f x = false /\
              forall j y, j < i -> l !! j = Some y -> f y = true.
Proof.
  induction l as [|a l IH]; simpl; intros Hlen; [done|].
  pose proof (sublist_length _ _ (filter_sublist f l)) as Hle.
  destruct (f a) eqn:Ha; simpl in *.
  - destruct IH as (Hlt & i & x & Hi & Hfind & Hx & Hfirst); [lia|].
    split; [lia|]. exists (S i), x. repeat split; auto.
    intros [|j] y Hj Hy; simpl in Hy; [congruence|]. apply (Hfirst j); [lia|done].
  - split; [lia|]. exists 0, a. repeat split; auto. intros j y Hj. lia.
Qed.

Section RosterFacts.
Variable urlPathname : string -> option string.
Variable integerOf : string -> option Z.

(** X13. The DELETE route leaves the roster untouched only when no player is
    targeted, its key [steamId || steamIdFromUrl(steamUrl)] being neither
    the id of the request nor the last path segment of its steamUrl.
    Otherwise it removes players and names one of the roster as removed:
    with [byIndex] and an index within the roster, the player at that index
    and no other; in every other case all the targeted players, of which
    the first is the one named.  The players that stay keep their
    order. *)
Theorem removeFromRoster_outcome
    (steamId : string) (steamUrl : jsval) (byIndex : bool) (players : list jsobj) :
  let targets :=
    List.filter truthy [JStr steamId; steamIdFromUrl urlPathname steamUrl] in
  let targeted (p : jsobj) := derivedId urlPathname p ∈ targets in
  match removeFromRoster urlPathname integerOf steamId steamUrl byIndex players with
  | NothingRemoved kept =>
      kept = players /\ forall p, p ∈ players -> ~ targeted p
  | PlayerRemoved kept removed =>
      exists r,
        removed = Some r /\ r ∈ players /\
        length kept < length players /\ sublist kept players /\
        ((exists index,
            byIndex = true /\ integerOf steamId = Some (Z.of_nat index) /\
            players !! index = Some r /\ kept = delete index players) \/
         (targeted r /\
          (forall p, p ∈ kept <-> p ∈ players /\ ~ targeted p) /\
          exists i, players !! i = Some r /\
                    forall j p, j < i -> players !! j = Some p -> ~ targeted p))
  end.
Proof.
  intros targets targeted. unfold removeFromRoster. fold targets.
  destruct (if byIndex then _ else None) as [[index r]|] eqn:Hat.
  - destruct byIndex; [|done].
    destruct (integerOf steamId) as [z|] eqn:Hz; [|done].
    destruct ((0 <=? z)%Z && (z <? Z.of_nat (length players))%Z) eqn:Hrange; [|done].
    apply andb_true_iff in Hrange as [H0 _]. apply Z.leb_le in H0.
    destruct (players !! Z.to_nat z) as [r'|] eqn:Hr; [|done].
    simpl in Hat. injection Hat as <- <-.
    exists r'. split; [done|]. split; [by eapply list_elem_of_lookup_2|].
    split; [|split; [apply sublist_delete|]].
    + rewrite length_delete by eauto. apply lookup_lt_Some in Hr. lia.
    + left. exists (Z.to_nat z). rewrite Z2Nat.id by done. done.
  - clear Hat.
    set (keep := fun p : jsobj => negb (bool_decide (derivedId urlPathname p ∈ targets))).
    destruct (length (List.filter keep players) =? length players)%nat eqn:Hlen.
    + apply Nat.eqb_eq in Hlen. split; [done|]. intros p Hp Ht.
      pose proof (filter_length_all keep players Hlen p Hp) as Hk.
      unfold keep in Hk. by rewrite bool_decide_eq_true_2 in Hk.
    + apply Nat.eqb_neq in Hlen.
      destruct (filter_length_lt keep players Hlen)
        as (Hlt & i & r & Hi & Hfind & Hr & Hfirst).
      exists r. split.
      { rewrite <- Hfind. clear. induction players as [|a l IH]; simpl; [done|].
        unfold keep. rewrite negb_involutive.
        destruct (bool_decide _); [done|exact IH]. }
      split; [by eapply list_elem_of_lookup_2|]. split; [done|].
      split; [apply filter_sublist|]. right.
      assert (forall p, keep p = true <-> ~ targeted p) as Hkeep.
      { intros p. unfold keep, targeted.
        rewrite negb_true_iff, bool_decide_eq_false. done. }
      split; [|split].
      * apply dec_stable. intros Hn. apply Hkeep in Hn. congruence.
      * intros p. rewrite list_elem_of_In, filter_In, <- list_elem_of_In.
        by rewrite Hkeep.
      * exists i. split; [done|]. intros j p Hj Hp. apply Hkeep. by apply (Hfirst j).
Qed.

End RosterFacts.

(** *** Reordering *)

Section ReorderFacts.
Variable urlPathname : string -> option string.

Lemma indexByOrderId_snoc (items : list jsobj) (x : jsobj) :
  indexByOrderId urlPathname (items ++ [x]) =
  match filedUnder urlPathname x with
  | Some id => <[id := x]> (indexByOrderId urlPathname items)
  | None => indexByOrderId urlPathname items
  end.
Proof.
  unfold indexByOrderId, filedUnder. rewrite foldl_app. simpl.
  by destruct (truthy (orderId urlPathname x)).
Qed.

(** The [Map] of the reorder route holds under an id an item that is filed
    under it, and holds one under every id some item is filed under. *)
Lemma indexByOrderId_lookup (items : list jsobj) (id : string) :
  (forall x, indexByOrderId urlPathname items !! id = Some x ->
             x ∈ items /\ filedUnder urlPathname x = Some id) /\
  (forall x, x ∈ items -> filedUnder urlPathname x = Some id ->
             is_Some (indexByOrderId urlPathname items !! id)).
Proof.
  induction items as [|y items [IH1 IH2]] using rev_ind.
  - split; [|by intros x Hx%elem_of_nil].
    intros x. unfold indexByOrderId. simpl. by rewrite lookup_empty.
  - rewrite indexByOrderId_snoc. split.
    + intros x Hx. destruct (filedUnder urlPathname y) as [k|] eqn:Hy.
      * destruct (decide (k = id)) as [->|Hne].
        -- rewrite lookup_insert_eq in Hx. injection Hx as <-.
           split; [set_solver|done].
        -- rewrite lookup_insert_ne in Hx by done.
           destruct (IH1 x Hx). split; [set_solver|done].
      * destruct (IH1 x Hx). split; [set_solver|done].
    + intros x Hx Hid. apply elem_of_app in Hx as [Hx|Hx].
      * destruct (filedUnder urlPathname y) as [k|]; [|by eapply IH2].
        destruct (decide (k = id)) as [->|Hne].
        -- rewrite lookup_insert_eq. eauto.
        -- rewrite lookup_insert_ne by done. by eapply IH2.
      * apply list_elem_of_singleton in Hx as ->. rewrite Hid.
        rewrite lookup_insert_eq. eauto.
Qed.

Lemma NoDup_omap_same {A B} (f : A -> option B) (l : list A) (x y : A) (k : B) :
  NoDup (omap f l) -> x ∈ l -> y ∈ l -> f x = Some k -> f y = Some k -> x = y.
Proof.
  induction l as [|a l IH]; simpl; intros Hnd Hx Hy Hfx Hfy.
  - by apply elem_of_nil in Hx.
  - assert (forall z, z ∈ l -> f z = Some k -> k ∈ omap f l) as Hin.
    { intros z Hz Hfz. apply list_elem_of_omap. eauto. }
    destruct (f a) as [ka|] eqn:Hfa.
    + apply NoDup_cons in Hnd as [Hka Hnd].
      apply elem_of_cons in Hx as [->|Hx]; apply elem_of_cons in Hy as [->|Hy].
      * done.
      * exfalso. apply Hka. assert (ka = k) as -> by congruence. by eapply Hin.
      * exfalso. apply Hka. assert (ka = k) as -> by congruence. by eapply Hin.
      * by apply IH.
    + apply elem_of_cons in Hx as [->|Hx]; [congruence|].
      apply elem_of_cons in Hy as [->|Hy]; [congruence|]. by apply IH.
Qed.

Lemma NoDup_omap_filter {A B} (f : A -> option B) (g : A -> bool) (l : list A) :
  NoDup (omap f l) -> (forall x, x ∈ l -> g x = true -> is_Some (f x)) ->
  NoDup (List.filter g l).
Proof.
  induction l as [|a l IH]; simpl; intros Hnd Hsome; [constructor|].
  assert (NoDup (List.filter g l)) as Hrest.
  { apply IH.
    - destruct (f a); [by apply NoDup_cons in Hnd as [_ ?]|done].
    - intros x Hx. apply Hsome. by right. }
  destruct (g a) eqn:Hga; [|done].
  destruct (Hsome a ltac:(left) Hga) as [k Hk]. rewrite Hk in Hnd.
  apply NoDup_cons in Hnd as [Hka _]. apply NoDup_cons. split; [|done].
  intros Hin. apply list_elem_of_In, filter_In in Hin as [Hin%list_elem_of_In _].
  apply Hka. apply list_elem_of_omap. eauto.
Qed.

Lemma NoDup_omap_inj {A B} (f : A -> option B) (l : list A) :
  NoDup l -> (forall x y z, f x = Some z -> f y = Some z -> x = y) ->
  NoDup (omap f l).
Proof.
  intros Hnd Hinj. induction Hnd as [|a l Ha Hnd IH]; simpl; [constructor|].
  destruct (f a) as [z|] eqn:Hfa; [|done]. apply NoDup_cons. split; [|done].
  intros (y & Hy & Hfy)%list_elem_of_omap.
  assert (a = y) as -> by (by eapply Hinj). done.
Qed.

Lemma filter_partition {A} (f : A -> bool) (l : list A) :
  List.filter f l ++ List.filter (fun x => negb (f x)) l ≡ₚ l.
Proof.
  induction l as [|a l IH]; simpl; [done|].
  destruct (f a); simpl.
  - by rewrite IH.
  - by rewrite <- Permutation_middle, IH.
Qed.

(** X14. The reorder route puts first, in the order of the request, the items
    filed under an id of the request, an item being filed under
    [String(steamId)] or else under the last path segment of its steamUrl,
    and then the other items in the order they had.  When the request
    names no id twice, no two items are filed under the same id, and no
    item without an id is taken for one the request names (the text [null],
    which is what the missing id of such an item stringifies to, is not
    among the ids of the request), the outcome is a rearrangement of the
    items: none is lost and none is doubled. *)
Theorem reorderByIds_rearranges (order : list string) (items : list jsobj) :
  NoDup order ->
  NoDup (omap (filedUnder urlPathname) items) ->
  (forall item, item ∈ items -> filedUnder urlPathname item = None ->
                toStr (orderId urlPathname item) ∉ order) ->
  reorderByIds urlPathname order items ≡ₚ items /\
  exists ordered remainder,
    reorderByIds urlPathname order items = ordered ++ remainder /\
    filedUnder urlPathname <$> ordered =
      Some <$> List.filter
                 (fun id => bool_decide (id ∈ omap (filedUnder urlPathname) items))
                 order /\
    sublist remainder items /\
    forall item, item ∈ remainder <->
                 item ∈ items /\ toStr (orderId urlPathname item) ∉ order.
Proof.
  intros Horder Hkeys Hnull. unfold reorderByIds.
  set (byId := indexByOrderId urlPathname items).
  set (named := fun item : jsobj =>
                  bool_decide (toStr (orderId urlPathname item) ∈ order)).
  assert (forall item, named item = true -> item ∈ items ->
            filedUnder urlPathname item = Some (toStr (orderId urlPathname item)))
    as Hfiled.
  { intros item Hn Hin. apply bool_decide_eq_true in Hn.
    destruct (filedUnder urlPathname item) as [k|] eqn:Hk.
    - unfold filedUnder in Hk. destruct (truthy _); congruence.
    - by destruct (Hnull item Hin Hk). }
  split.
  - rewrite <- (filter_partition named items) at 2.
    apply Permutation_app_tail. apply NoDup_Permutation.
    + apply NoDup_omap_inj; [done|]. intros id1 id2 x H1 H2.
      destruct (proj1 (indexByOrderId_lookup items id1) x H1) as [_ Hf1].
      destruct (proj1 (indexByOrderId_lookup items id2) x H2) as [_ Hf2]. congruence.
    + apply (NoDup_omap_filter (filedUnder urlPathname)); [done|].
      intros x Hx Hn. rewrite (Hfiled x Hn Hx). eauto.
    + intros x. rewrite list_elem_of_omap, list_elem_of_In, filter_In, <- list_elem_of_In.
      split.
      * intros (id & Hid & Hx).
        destruct (proj1 (indexByOrderId_lookup items id) x Hx) as [Hin Hf].
        split; [done|]. unfold named. apply bool_decide_eq_true.
        unfold filedUnder in Hf. destruct (truthy _); [|done]. by injection Hf as ->.
      * intros [Hin Hn]. exists (toStr (orderId urlPathname x)).
        split; [by apply bool_decide_eq_true in Hn|].
        pose proof (Hfiled x Hn Hin) as Hf.
        destruct (proj2 (indexByOrderId_lookup items _) x Hin Hf) as [y Hy].
        fold byId in Hy. rewrite Hy. f_equal.
        destruct (proj1 (indexByOrderId_lookup items _) y Hy) as [Hyin Hyf].
        by eapply (NoDup_omap_same (filedUnder urlPathname) items).
  - eexists _, _. split; [reflexivity|]. split; [|split; [apply filter_sublist|]].
    + clear Horder Hnull Hfiled. induction order as [|id order IH]; simpl; [done|].
      destruct (byId !! id) as [x|] eqn:Hx.
      * destruct (proj1 (indexByOrderId_lookup items id) x Hx) as [Hin Hf].
        rewrite bool_decide_eq_true_2 by (apply list_elem_of_omap; eauto).
        simpl. rewrite Hf. f_equal. exact IH.
      * rewrite bool_decide_eq_false_2; [exact IH|].
        intros (x & Hin & Hf)%list_elem_of_omap.
        destruct (proj2 (indexByOrderId_lookup items id) x Hin Hf) as [y Hy].
        fold byId in Hy. congruence.
    + intros item. rewrite list_elem_of_In, filter_In, <- list_elem_of_In.
      by rewrite negb_true_iff, bool_decide_eq_false.
Qed.
End ReorderFacts.

Lemma reorderByIds_rearranges_witness :
  let ann : jsobj := {[ "steamId" := JStr "76561198000000001" ]} in
  let bob : jsobj := {[ "steamUrl" := JStr "https://steamcommunity.com/id/bob" ]} in
  let cat : jsobj := {[ "displayName" := JStr "Cat" ]} in
  reorderByIds plainHttpPathname ["bob"; "76561198000000001"] [ann; bob; cat]
    ≡ₚ [ann; bob; cat].
Proof.
  intros ann bob cat.
  apply (reorderByIds_rearranges plainHttpPathname
           ["bob"; "76561198000000001"] [ann; bob; cat]).
  - apply NoDup_cons. split; [|apply NoDup_singleton].
    intros H%list_elem_of_singleton. discriminate H.
  - change (NoDup ["76561198000000001"; "bob"]).
    apply NoDup_cons. split; [|apply NoDup_singleton].
    intros H%list_elem_of_singleton. discriminate H.
  - intros item Hin Hnone.
    apply elem_of_cons in Hin as [->|Hin]; [discriminate Hnone|].
    apply elem_of_cons in Hin as [->|Hin]; [discriminate Hnone|].
    apply list_elem_of_singleton in Hin as ->.
    change (toStr (orderId plainHttpPathname cat)) with "null".
    intros Hin. apply elem_of_cons in Hin as [H|Hin]; [discriminate H|].
    apply list_elem_of_singleton in Hin. discriminate Hin.
Defined.


(** ** The retry envelope with any options *)

Lemma waitMsFor_nonzero (backoffs : list Z) (attempt : nat) :
  waitMsFor backoffs attempt <> 0%Z.
Proof.
  unfold waitMsFor.
  destruct (orMs (backoffs !! (attempt - 1)) (last backoffs)) as [ms|] eqn:Hms; simpl.
  - destruct (ms =? 0)%Z eqn:Hz; simpl; [done|]. by apply Z.eqb_neq.
  - done.
Qed.

Section RetryBounds.
Context {W A : Type}.
Variable delayMs : Z -> W -> W.
Variable warn : string -> W -> W.
Variable action : W -> W * completion A.

(** How the loop ends: never with the [undefined] of a loop that ran out,
    and with an error before the last attempt only when that error is not
    a transient one. *)
Lemma retryLoop_result (options : RetryOptions) (fuel attempt : nat) (w : W) :
  fuel + attempt = attempts options + 1 -> 1 <= fuel ->
  let run := retryLoop delayMs warn action options fuel attempt w in
  run_result run <> Return None /\
  (forall err, run_result run = Throw err -> run_calls run < fuel ->
               isRetryableDetachError err = false) /\
  (forall a, run_result run = Return (Some a) ->
             exists w0, (action w0).2 = Return a) /\
  (forall err, run_result run = Throw err -> exists w0, (action w0).2 = Throw err).
Proof.
  revert attempt w. induction fuel as [|fuel IH]; intros attempt w Hfuel Hpos; [lia|].
  simpl. destruct (action w) as [w1 [a|err]] eqn:Hact; simpl.
  - split; [done|]. split; [done|]. split; [|done].
    intros a' [= <-]. exists w. by rewrite Hact.
  - destruct (isRetryableDetachError err) eqn:Hretry; simpl.
    + destruct (attempt =? attempts options)%nat eqn:Hlast; simpl.
      * apply Nat.eqb_eq in Hlast. split; [done|]. split; [intros; lia|].
        split; [done|]. intros err' [= <-]. exists w. by rewrite Hact.
      * apply Nat.eqb_neq in Hlast.
        destruct (IH (S attempt)
                     (delayMs (waitMsFor (backoffs options) attempt)
                              (warn (retryMessage options attempt) w1)))
          as (Hnone & Hthrow & Hret & Herr); [lia..|].
        split; [done|]. split; [|split; [done|done]].
        intros err' He Hcalls. apply Hthrow; [done|lia].
    + split; [done|]. split; [by intros err' [= <-]|]. split; [done|].
      intros err' [= <-]. exists w. by rewrite Hact.
Qed.

(** X15. With any options, [withDetachRetry] calls the action at most [attempts]
    times, and at least once unless [attempts] is 0, in which case it calls
    nothing and gives [undefined].  Between two calls it waits for the
    backoff of the attempt that failed, which is never 0 ms: a missing or
    zero entry falls back to the last entry and then to 250.  It gives what
    a call of the action gave, a result or an error; an error given before
    the attempts are used up is not a transient one. *)
Theorem withDetachRetry_bounds (options : RetryOptions) (w : W) :
  let run := withDetachRetry delayMs warn action options w in
  (attempts options = 0 -> run = mkRun w 0 [] (Return None)) /\
  (1 <= attempts options ->
   1 <= run_calls run <= attempts options /\ run_result run <> Return None) /\
  run_waits run =
    map (waitMsFor (backoffs options)) (seq 1 (run_calls run - 1)) /\
  (forall ms, ms ∈ run_waits run -> ms <> 0%Z) /\
  (forall a, run_result run = Return (Some a) -> exists w0, (action w0).2 = Return a) /\
  (forall err, run_result run = Throw err ->
     (exists w0, (action w0).2 = Throw err) /\
     (run_calls run < attempts options -> isRetryableDetachError err = false)).
Proof.
  intros run. subst run. unfold withDetachRetry.
  destruct (attempts options) as [|n] eqn:Hn.
  - simpl. split; [done|]. split; [lia|]. split; [done|].
    split; [by intros ms Hms%elem_of_nil|]. split; [done|done].
  - pose proof (retryLoop_bounds delayMs warn action options (S n) 1 w) as Hb.
    pose proof (retryLoop_result options (S n) 1 w) as Hr.
    rewrite Hn in Hb, Hr. cbv zeta in Hb, Hr.
    destruct Hb as [Hcalls Hwaits]; [lia..|].
    destruct Hr as (Hnone & Hthrow & Hret & Herr); [lia..|].
    split; [done|]. split; [done|]. split; [done|]. split.
    { rewrite Hwaits. intros ms (attempt & -> & _)%list_elem_of_fmap.
      apply waitMsFor_nonzero. }
    split; [done|]. intros err He. split; [by apply Herr | by apply Hthrow].
Qed.
End RetryBounds.


(** ** [extractStatsFromRow]: the labels read *)

Lemma headshotPercent_zero (shotsHit : num) :
  fltb fzero shotsHit = true -> headshotPercent fzero shotsHit = fzero.
Proof.
  destruct shotsHit as [s|[]| |[] m e]; try discriminate; intros _; reflexivity.
Qed.

Section ExtractLabels.
Variable Page : Type.
Variable getNumeric : nat -> Page -> Page * completion num.
Variable getTooltipNumber : nat -> string -> Page -> Page * option num.

Abbreviation getColOf := (getCol Page getNumeric getTooltipNumber).
Abbreviation readLabelsOf := (readLabels Page getNumeric getTooltipNumber).

(** A label without a column reads 0 and leaves the page alone, unless it
    is 'Headshot %' and 'Headshots' has a column. *)
Lemma getCol_unmapped (columnMap : ColumnMap) (label : string) (page : Page) :
  colIndex columnMap label = None ->
  label <> "Headshot %" \/ colIndex columnMap "Headshots" = None ->
  getColOf columnMap label page = (page, Return fzero).
Proof.
  intros Hnone Hor. unfold getCol. rewrite Hnone.
  destruct (String.eqb label "Headshot %") eqn:He; [|done].
  apply String.eqb_eq in He. destruct Hor as [Hne|Hh]; [done|]. by rewrite Hh.
Qed.

Lemma getCol_throws (columnMap : ColumnMap) (label : string) (page page1 : Page)
    (err : JsError) :
  getColOf columnMap label page = (page1, Throw err) ->
  exists idx p, (getNumeric idx p).2 = Throw err.
Proof.
  unfold getCol. destruct (colIndex columnMap label) as [idx|].
  - destruct (String.eqb label "Headshot %").
    + destruct (getTooltipNumber idx label page) as [p [v|]]; [done|].
      intros H. exists idx, p. by rewrite H.
    + intros H. exists idx, page. by rewrite H.
  - destruct (if String.eqb label "Headshot %" then _ else None) as [idx|]; [|done].
    by destruct (getTooltipNumber idx label page).
Qed.

Lemma readLabels_facts (columnMap : ColumnMap) (labels : list string) :
  forall (acc : PlayerStats) (page : Page),
  match readLabelsOf columnMap labels acc page with
  | (page1, Return raw) =>
      dom raw = dom acc ∪ list_to_set labels /\
      (forall label,
         colIndex columnMap label = None ->
         label <> "Headshot %" \/ colIndex columnMap "Headshots" = None ->
         label ∈ labels \/ acc !! label = Some fzero -> raw !! label = Some fzero) /\
      (columnMap = [] -> page1 = page)
  | (page1, Throw err) => exists idx p, (getNumeric idx p).2 = Throw err
  end.
Proof.
  induction labels as [|l labels IH]; intros acc page; simpl.
  - split; [set_solver|]. split; [|done].
    intros label _ _ [Hin|Hacc]; [by apply elem_of_nil in Hin | done].
  - destruct (getColOf columnMap l page) as [p1 [v|err]] eqn:Hcol.
    + specialize (IH (<[l := v]> acc) p1).
      destruct (readLabelsOf columnMap labels (<[l := v]> acc) p1) as [p2 [raw|err]];
        [|exact IH].
      destruct IH as (Hdom & Hzero & Hpage). split; [|split].
      * rewrite Hdom, dom_insert_L. set_solver.
      * intros label Hnone Hor Hin. apply Hzero; [done..|].
        destruct (decide (l = label)) as [->|Hne].
        -- right. rewrite getCol_unmapped in Hcol by done.
           injection Hcol as _ <-. by rewrite lookup_insert_eq.
        -- rewrite lookup_insert_ne by done.
           destruct Hin as [Hin|Hacc]; [|by right].
           apply elem_of_cons in Hin as [->|Hin]; [done|by left].
      * intros ->. rewrite Hpage by done.
        rewrite (getCol_unmapped [] l page eq_refl (or_intror eq_refl)) in Hcol.
        by injection Hcol as ->.
    + by eapply getCol_throws.
Qed.

(** X16. When [extractStatsFromRow] returns, the record has a value under every
    label asked for and under no other key.  A label that has no column
    reads 0 ('Headshot %' only when 'Headshots' has no column either, the
    tooltip of that cell being tried otherwise); with an empty column map
    every label reads 0 and the page is not touched.  When it throws, the
    error is one that reading the text of a cell threw. *)
Theorem extractStatsFromRow_reads_labels
    (columnMap : ColumnMap) (metricLabels : option (list string)) (page : Page) :
  let labels :=
    match metricLabels with
    | Some (label :: rest) => label :: rest
    | _ => map fst columnMap
    end in
  match extractStatsFromRow Page getNumeric getTooltipNumber columnMap metricLabels page with
  | (page1, Return final) =>
      dom final = list_to_set labels /\
      (forall label,
         label ∈ labels -> colIndex columnMap label = None ->
         label <> "Headshot %" \/ colIndex columnMap "Headshots" = None ->
         final !! label = Some fzero) /\
      (columnMap = [] ->
       page1 = page /\ forall label, label ∈ labels -> final !! label = Some fzero)
  | (page1, Throw err) => exists idx p, (getNumeric idx p).2 = Throw err
  end.
Proof.
  intros labels. unfold extractStatsFromRow. fold labels.
  pose proof (readLabels_facts columnMap labels ∅ page) as Hread.
  destruct (readLabelsOf columnMap labels ∅ page) as [page1 [raw|err]]; [|exact Hread].
  destruct Hread as (Hdom & Hzero & Hpage).
  rewrite dom_empty_L, (left_id_L ∅ (∪)) in Hdom.
  assert (forall label,
            label ∈ labels -> colIndex columnMap label = None ->
            label <> "Headshot %" \/ colIndex columnMap "Headshots" = None ->
            recomputeHeadshotPercent labels raw !! label = Some fzero) as Hfinal.
  { intros label Hin Hnone Hor.
    pose proof (Hzero label Hnone Hor (or_introl Hin)) as Hraw.
    destruct (decide (label = "Headshot %")) as [->|Hne];
      [|by rewrite recomputeHeadshotPercent_other].
    destruct Hor as [Hne|Hh]; [done|].
    unfold recomputeHeadshotPercent.
    destruct (bool_decide ("Headshot %" ∈ labels) && gtZero (raw !! "Shots Hit") &&
              geZero (raw !! "Headshots")) eqn:Hguard; [|done].
    destruct (raw !! "Headshots") as [h|] eqn:Hhead; [|done].
    destruct (raw !! "Shots Hit") as [s|] eqn:Hs; [|done].
    rewrite lookup_insert_eq. f_equal.
    apply andb_true_iff in Hguard as [[_ Hgt]%andb_true_iff _]. simpl in Hgt.
    assert (h = fzero) as ->.
    { assert ("Headshots" ∈ labels) as Hl.
      { assert ("Headshots" ∈ dom raw) as Hd by (apply elem_of_dom; eauto).
        rewrite Hdom in Hd. by apply elem_of_list_to_set in Hd. }
      pose proof (Hzero "Headshots" Hh (or_intror Hh) (or_introl Hl)) as H0.
      congruence. }
    by apply headshotPercent_zero. }
  split; [|split].
  - rewrite <- Hdom. unfold recomputeHeadshotPercent.
    destruct (bool_decide ("Headshot %" ∈ labels) && _ && _) eqn:Hguard; [|done].
    destruct (raw !! "Headshots"), (raw !! "Shots Hit"); try done.
    rewrite dom_insert_L. apply andb_true_iff in Hguard as [[Hin _]%andb_true_iff _].
    apply bool_decide_eq_true in Hin.
    assert ("Headshot %" ∈ dom raw) by (rewrite Hdom; by apply elem_of_list_to_set).
    set_solver.
  - exact Hfinal.
  - intros ->. split; [by apply Hpage|]. intros label Hin. apply Hfinal; [done..|by right].
Qed.
End ExtractLabels.


(** ** [escapeForAttrContains] *)

Lemma string_app_nil_l (s : string) : "" +:+ s = s.
Proof. reflexivity. Qed.

Lemma replaceEach_app (c : ascii) (by_ a b : string) :
  replaceEach c by_ (a +:+ b) = replaceEach c by_ a +:+ replaceEach c by_ b.
Proof.
  induction a as [|x a IH]; [done|].
  rewrite string_app_cons. simpl. by rewrite IH, string_app_assoc.
Qed.

Lemma escapeForAttrContains_cons (x : ascii) (s : string) :
  escapeForAttrContains (JStr (String x s)) =
  (if Ascii.eqb x backslashChar
   then String backslashChar (String backslashChar EmptyString)
   else if Ascii.eqb x quoteChar
   then String backslashChar (String quoteChar EmptyString)
   else String x EmptyString) +:+ escapeForAttrContains (JStr s).
Proof.
  unfold escapeForAttrContains. simpl. rewrite replaceEach_app. f_equal.
  destruct (Ascii.eqb x backslashChar) eqn:Hb; [reflexivity|].
  simpl. destruct (Ascii.eqb x quoteChar); reflexivity.
Qed.

(** X17. [escapeForAttrContains] puts a backslash before every backslash and
    every double quote of the text and changes nothing else: read back, the
    escaped text is the text itself, so no quote of the key ends the
    attribute value of the selector it is put into, and a text without
    backslash and quote is left as it is. *)
Theorem escapeForAttrContains_reads_back (value : jsval) :
  unescapeAttr (escapeForAttrContains value) = Some (toStr value) /\
  (plainAttrText (toStr value) = true -> escapeForAttrContains value = toStr value).
Proof.
  change (escapeForAttrContains value) with (escapeForAttrContains (JStr (toStr value))).
  induction (toStr value) as [|x s [IH1 IH2]]; [done|].
  rewrite escapeForAttrContains_cons. simpl.
  destruct (Ascii.eqb x backslashChar) eqn:Hb.
  - apply Ascii.eqb_eq in Hb as ->. split; [|done].
    rewrite !string_app_cons, string_app_nil_l. simpl. by rewrite IH1.
  - destruct (Ascii.eqb x quoteChar) eqn:Hq.
    + apply Ascii.eqb_eq in Hq as ->. split; [|done].
      rewrite !string_app_cons, string_app_nil_l. simpl. by rewrite IH1.
    + split.
      * rewrite string_app_cons, string_app_nil_l. simpl. rewrite Hb, Hq. by rewrite IH1.
      * simpl. intros Hplain. rewrite string_app_cons, string_app_nil_l. f_equal. by apply IH2.
Qed.


(** ** Mapping the columns of a tab *)

Lemma colIndex_assignColumn (columnMap : ColumnMap) (label label' : string) (idx : nat) :
  colIndex (assignColumn label idx columnMap) label' =
  if String.eqb label label' then Some idx else colIndex columnMap label'.
Proof.
  unfold colIndex. induction columnMap as [|[k v] rest IH]; simpl.
  - destruct (String.eqb label label'); done.
  - destruct (String.eqb k label) eqn:Hk; simpl.
    + apply String.eqb_eq in Hk as ->. by destruct (String.eqb label label').
    + destruct (String.eqb k label') eqn:Hk'; simpl; [|exact IH].
      apply String.eqb_eq in Hk' as ->. rewrite String.eqb_sym in Hk. by rewrite Hk.
Qed.

Lemma lastIndexWhere_snoc {A} (p : A -> bool) (l : list A) (x : A) :
  lastIndexWhere p (l ++ [x]) =
  if p x then Some (length l) else lastIndexWhere p l.
Proof.
  unfold lastIndexWhere. rewrite imap_app, foldl_app. simpl.
  by rewrite Nat.add_0_r.
Qed.

Lemma lastIndexWhere_Some {A} (p : A -> bool) (l : list A) (idx : nat) :
  lastIndexWhere p l = Some idx ->
  exists x, l !! idx = Some x /\ p x = true /\
            forall j y, idx < j -> l !! j = Some y -> p y = false.
Proof.
  revert idx. induction l as [|x l IH] using rev_ind; intros idx.
  - discriminate.
  - rewrite lastIndexWhere_snoc. destruct (p x) eqn:Hx.
    + intros [= <-]. exists x. split; [by rewrite lookup_app_r, Nat.sub_diag|].
      split; [done|]. intros j y Hj Hy. apply lookup_lt_Some in Hy.
      rewrite length_app in Hy. simpl in Hy. lia.
    + intros (y & Hy & Hp & Hlast)%IH. exists y.
      split; [rewrite lookup_app_l; [done|by eapply lookup_lt_Some]|].
      split; [done|]. intros j z Hj Hz.
      apply lookup_app_Some in Hz as [Hz|[_ Hz]]; [by eapply Hlast|].
      apply list_lookup_singleton_Some in Hz as [_ <-]. done.
Qed.

Lemma findIndex_lt {A} (p : A -> bool) (l : list A) (idx : nat) :
  findIndex p l = Some idx -> idx < length l.
Proof. intros (x & Hx & _)%findIndex_Some. by eapply lookup_lt_Some. Qed.

Section ColumnFacts.
Variable Page : Type.
Variable tableHeaders : Page -> Page * completion (list string).
Variable norm : string -> string.
Variable toLowerCase : string -> string.
Variable test : string -> string -> bool.

Abbreviation columnsOf := (columnsOfHeaders norm toLowerCase test).

(** The header a label's patterns find: the first that one of them
    matches. *)
Abbreviation foundBy headers patterns :=
  (findIndex (fun h => existsb (fun re => test re (norm h)) patterns) headers).

Lemma patternColumns_other (headers : list string)
    (patterns : list (string * list string)) (columnMap : ColumnMap) (label : string) :
  label ∉ map fst patterns ->
  colIndex
    (foldl (fun columnMap entry =>
              match foundBy headers entry.2 with
              | Some idx => assignColumn entry.1 idx columnMap
              | None => columnMap
              end) columnMap patterns) label
  = colIndex columnMap label.
Proof.
  revert columnMap. induction patterns as [|[l ps] rest IH]; intros columnMap Hnot; simpl.
  - done.
  - rewrite IH by set_solver. simpl. destruct (foundBy headers ps); [|done].
    rewrite colIndex_assignColumn.
    destruct (String.eqb l label) eqn:He; [|done].
    apply String.eqb_eq in He as ->. set_solver.
Qed.

Lemma patternColumns_lookup (headers : list string)
    (patterns : list (string * list string)) (columnMap : ColumnMap)
    (label : string) (ps : list string) :
  NoDup (map fst patterns) -> (label, ps) ∈ patterns ->
  colIndex
    (foldl (fun columnMap entry =>
              match foundBy headers entry.2 with
              | Some idx => assignColumn entry.1 idx columnMap
              | None => columnMap
              end) columnMap patterns) label
  = match foundBy headers ps with
    | Some idx => Some idx
    | None => colIndex columnMap label
    end.
Proof.
  revert columnMap. induction patterns as [|[l qs] rest IH]; intros columnMap Hnd Hin.
  - by apply elem_of_nil in Hin.
  - simpl in Hnd. apply NoDup_cons in Hnd as [Hl Hnd].
    apply elem_of_cons in Hin as [[= <- <-]|Hin]; simpl.
    + rewrite patternColumns_other by done.
      destruct (foundBy headers ps); [|done].
      by rewrite colIndex_assignColumn, String.eqb_refl.
    + rewrite IH by done. destruct (foundBy headers ps); [done|].
      destruct (foundBy headers qs); [|done].
      rewrite colIndex_assignColumn.
      destruct (String.eqb l label) eqn:He; [|done].
      apply String.eqb_eq in He as ->. exfalso. apply Hl.
      apply list_elem_of_fmap. by exists (label, ps).
Qed.

(** The header cells a generic tab keeps as metrics. *)
Abbreviation keptHeader label :=
  (negb (String.eqb label "") && negb (bool_decide (toLowerCase label ∈ SKIPPED_HEADERS))).

Lemma genericColumns_lookup (headers : list string) (label : string) :
  let mapped := columnsOf headers None in
  mapped.2 = List.filter (fun l => keptHeader l) (map norm headers) /\
  colIndex mapped.1 label =
    if keptHeader label
    then lastIndexWhere (fun h => String.eqb (norm h) label) headers
    else None.
Proof.
  simpl. induction headers as [|h headers [IHm IHc]] using rev_ind.
  - split; [done|]. by destruct (keptHeader label).
  - rewrite imap_app, List.filter_app, map_app, foldl_app, map_app, List.filter_app.
    rewrite IHm, lastIndexWhere_snoc. simpl. rewrite Nat.add_0_r.
    destruct (keptHeader (norm h)) eqn:Hkept; simpl.
    + split; [done|]. rewrite colIndex_assignColumn, IHc.
      destruct (String.eqb (norm h) label) eqn:He; [|done].
      apply String.eqb_eq in He as <-. by rewrite Hkept.
    + split; [by rewrite app_nil_r|]. rewrite IHc.
      destruct (String.eqb (norm h) label) eqn:He; [|done].
      apply String.eqb_eq in He as <-. by rewrite Hkept.
Qed.

(** With patterns, the metrics are the labels of the patterns, and no other
    label has a column. *)
Lemma mapTableColumns_patterns (patterns : list (string * list string))
    (page page1 : Page) (columnMap : ColumnMap) (metrics : list string) :
  mapTableColumns Page tableHeaders norm toLowerCase test (Some patterns) page
    = (page1, Return (columnMap, metrics)) ->
  metrics = map fst patterns /\
  forall label, label ∉ metrics -> colIndex columnMap label = None.
Proof.
  unfold mapTableColumns.
  destruct (tableHeaders page) as [page2 [headers|err]]; [|done].
  simpl. intros [= _ <- <-]. split; [done|].
  intros label Hnot. by rewrite patternColumns_other.
Qed.

(** X18. [mapTableColumns] throws only when the wait for the header cells does.
    With the patterns of a tab, its metrics are all the labels of the
    pattern object, whatever headers the table has, and a label is mapped
    to the first header that one of its patterns matches, normalised; a
    label no header matches is a metric without a column.  Without
    patterns, the metrics are the normalised headers that are not empty and
    not one of player, name, steamid and steam id, and each is mapped to the
    last header with that text.  A column index is always that of a header
    of the table. *)
Theorem mapTableColumns_maps_headers
    (columnPatterns : option (list (string * list string))) (page : Page) :
  match mapTableColumns Page tableHeaders norm toLowerCase test columnPatterns page with
  | (page1, Return (columnMap, metrics)) =>
      exists headers,
        tableHeaders page = (page1, Return headers) /\
        (forall label idx, colIndex columnMap label = Some idx -> idx < length headers) /\
        match columnPatterns with
        | Some patterns =>
            metrics = map fst patterns /\
            (forall label, label ∉ metrics -> colIndex columnMap label = None) /\
            (NoDup (map fst patterns) ->
             forall label ps, (label, ps) ∈ patterns ->
               colIndex columnMap label = foundBy headers ps)
        | None =>
            metrics = List.filter (fun l => keptHeader l) (map norm headers) /\
            forall label,
              colIndex columnMap label =
                if keptHeader label
                then lastIndexWhere (fun h => String.eqb (norm h) label) headers
                else None
        end
  | (page1, Throw err) => tableHeaders page = (page1, Throw err)
  end.
Proof.
  unfold mapTableColumns.
  destruct (tableHeaders page) as [page1 [headers|err]]; [|done].
  destruct (columnsOf headers columnPatterns) as [columnMap metrics] eqn:Hmapped.
  exists headers. split; [done|].
  destruct columnPatterns as [patterns|].
  - simpl in Hmapped. injection Hmapped as <- <-.
    assert (forall label, label ∉ map fst patterns ->
              colIndex (foldl (fun columnMap entry =>
                                 match foundBy headers entry.2 with
                                 | Some idx => assignColumn entry.1 idx columnMap
                                 | None => columnMap
                                 end) [] patterns) label = None) as Hother.
    { intros label Hnot. by rewrite patternColumns_other. }
    split; [|split; [done|split; [done|]]].
    + intros label idx. clear Hother.
      assert (forall columnMap : ColumnMap,
                (forall l i, colIndex columnMap l = Some i -> i < length headers) ->
                colIndex (foldl (fun columnMap entry =>
                                   match foundBy headers entry.2 with
                                   | Some idx => assignColumn entry.1 idx columnMap
                                   | None => columnMap
                                   end) columnMap patterns) label = Some idx ->
                idx < length headers) as Hlt.
      { induction patterns as [|[l ps] rest IH]; intros columnMap Hcm; simpl.
        - apply Hcm.
        - apply IH. intros l' i. destruct (foundBy headers ps) as [j|] eqn:Hj; [|apply Hcm].
          rewrite colIndex_assignColumn. destruct (String.eqb l l'); [|apply Hcm].
          intros [= <-]. by eapply findIndex_lt. }
      apply (Hlt []). intros l i. discriminate.
    + intros Hnd label ps Hin. rewrite (patternColumns_lookup _ _ _ _ ps) by done.
      by destruct (foundBy headers ps).
  - destruct (genericColumns_lookup headers "") as [Hm _].
    assert (metrics = (columnsOf headers None).2) as -> by (by rewrite Hmapped).
    assert (columnMap = (columnsOf headers None).1) as -> by (by rewrite Hmapped).
    split; [|split; [exact Hm|]].
    + intros label idx. destruct (genericColumns_lookup headers label) as [_ ->].
      destruct (keptHeader label); [|done].
      intros (x & Hx & _)%lastIndexWhere_Some. by eapply lookup_lt_Some.
    + intros label. by destruct (genericColumns_lookup headers label) as [_ ->].
Qed.
End ColumnFacts.


(** ** Preparing a tab *)

Section PrepareFacts.
Variable Page : Type.
Variable tableHeaders : Page -> Page * completion (list string).
Variable norm : string -> string.
Variable toLowerCase : string -> string.
Variable test : string -> string -> bool.
Variable selectStatsTab : string -> Page -> Page * completion unit.
Variable headersAppear : list string -> Page -> Page * bool.
Variable resetTableSearch : Page -> Page * completion unit.
Variable waitForRow : Page -> Page * completion unit.

Abbreviation mapColumns := (mapTableColumns Page tableHeaders norm toLowerCase test).
Abbreviation mapByLabel := (mapColumnsByLabel Page tableHeaders norm toLowerCase).

Lemma headerMap_lookup (headers : list string) (key : string) :
  foldl (fun (acc : gmap string nat) h => <[toLowerCase (norm h.2) := h.1]> acc) ∅
        (imap (fun idx h => (idx, h)) headers) !! key
  = lastIndexWhere (fun h => String.eqb (toLowerCase (norm h)) key) headers.
Proof.
  induction headers as [|h headers IH] using rev_ind; [done|].
  rewrite imap_app, foldl_app, lastIndexWhere_snoc. simpl. rewrite Nat.add_0_r.
  destruct (String.eqb (toLowerCase (norm h)) key) eqn:He.
  - apply String.eqb_eq in He as ->. by rewrite lookup_insert_eq.
  - apply String.eqb_neq in He. by rewrite lookup_insert_ne.
Qed.

Lemma labelColumns_lookup (headerMap : gmap string nat) (labels : list string)
    (columnMap : ColumnMap) (label : string) :
  colIndex
    (foldl (fun columnMap label =>
              match headerMap !! toLowerCase (norm label) with
              | Some idx => assignColumn label idx columnMap
              | None => columnMap
              end) columnMap labels) label
  = if bool_decide (label ∈ labels)
    then match headerMap !! toLowerCase (norm label) with
         | Some idx => Some idx
         | None => colIndex columnMap label
         end
    else colIndex columnMap label.
Proof.
  revert columnMap. induction labels as [|l labels IH]; intros columnMap; simpl.
  - done.
  - rewrite IH. destruct (decide (l = label)) as [->|Hne].
    + rewrite (bool_decide_eq_true_2 (label ∈ label :: labels)) by (by left).
      destruct (headerMap !! toLowerCase (norm label)) as [idx|] eqn:Hh.
      * rewrite colIndex_assignColumn, String.eqb_refl. by destruct (bool_decide _).
      * by destruct (bool_decide _).
    + assert (bool_decide (label ∈ l :: labels) = bool_decide (label ∈ labels)) as ->.
      { apply bool_decide_ext. set_solver. }
      destruct (headerMap !! toLowerCase (norm l)) as [idx|]; [|done].
      rewrite colIndex_assignColumn.
      by rewrite (proj2 (String.eqb_neq _ _) Hne).
Qed.

(** What [mapColumnsByLabel] gives. *)
Lemma mapColumnsByLabel_maps (labels : list string) (page : Page) :
  match mapByLabel labels page with
  | (page1, Return (columnMap, metrics)) =>
      metrics = labels /\
      (labels = [] -> page1 = page /\ columnMap = []) /\
      (labels <> [] ->
       exists headers,
         tableHeaders page = (page1, Return headers) /\
         forall label,
           colIndex columnMap label =
             if bool_decide (label ∈ labels)
             then lastIndexWhere
                    (fun h => String.eqb (toLowerCase (norm h)) (toLowerCase (norm label)))
                    headers
             else None)
  | (page1, Throw err) => tableHeaders page = (page1, Throw err) /\ labels <> []
  end.
Proof.
  unfold mapColumnsByLabel. destruct labels as [|l labels]; [done|].
  destruct (tableHeaders page) as [page1 [headers|err]]; [|done].
  split; [done|]. split; [done|]. intros _. exists headers. split; [done|].
  intros label. rewrite labelColumns_lookup, headerMap_lookup.
  destruct (bool_decide _); [|done].
  by destruct (lastIndexWhere _ headers).
Qed.

Abbreviation prepare :=
  (prepareTab Page tableHeaders norm toLowerCase test selectStatsTab headersAppear
     resetTableSearch waitForRow).

(** What the preparation of a tab that has patterns returns. *)
Lemma prepareTab_pattern_metrics
    (tabKey : string) (patterns : list (string * list string))
    (page page1 : Page) (columnMap : ColumnMap) (metrics : list string) :
  entryOf TAB_DEFS tabKey ≫= tab_patterns = Some patterns ->
  prepare tabKey page = (page1, Return (columnMap, metrics)) ->
  metrics = map fst patterns /\
  forall label idx, colIndex columnMap label = Some idx -> label ∈ metrics.
Proof.
  intros Hpatterns Hrun.
  unfold prepareTab, andThen in Hrun. rewrite Hpatterns in Hrun. simpl in Hrun.
  destruct (selectStatsTab tabKey page) as [p1 [[]|e]]; [|done].
  destruct (resetTableSearch _) as [p2 [[]|e]]; [|done].
  destruct (waitForRow p2) as [p3 [[]|e]]; [|done].
  destruct (mapColumns (Some patterns) p3) as [p4 [[cm1 ms1]|e]] eqn:Hmap1; [|done].
  destruct (mapTableColumns_patterns Page tableHeaders norm toLowerCase test
              patterns p3 p4 cm1 ms1 Hmap1) as [Hms1 Hother1].
  assert (forall (stage : Page * completion (ColumnMap * list string))
            cm ms p,
            stage = (p, Return (cm, ms)) ->
            ms = map fst patterns ->
            (forall label, label ∉ ms -> colIndex cm label = None) ->
            (let '(page2, r) := stage in
             match r with
             | Return second =>
                 (if match second.1 with [] => true | _ :: _ => false end
                  then mapByLabel (map fst patterns)
                  else fun page' => (page', Return second)) page2
             | Throw err => (page2, Throw err)
             end) = (page1, Return (columnMap, metrics)) ->
            metrics = map fst patterns /\
            forall label, label ∉ metrics -> colIndex columnMap label = None)
    as Hlast.
  { intros stage cm ms p -> Hms Hother. simpl. destruct cm as [|kv cm].
    - intros Hby. pose proof (mapColumnsByLabel_maps (map fst patterns) p) as Hl.
      rewrite Hby in Hl. destruct Hl as (-> & Hnil & Hsome). split; [done|].
      intros label Hnot. destruct (map fst patterns) as [|l ls] eqn:Hp.
      + by destruct (Hnil eq_refl) as [_ ->].
      + destruct (Hsome ltac:(done)) as (hs & _ & ->).
        by rewrite bool_decide_eq_false_2.
    - intros [= <- <- <-]. done. }
  assert (forall label idx cm ms,
            ms = map fst patterns ->
            (forall label, label ∉ ms -> colIndex cm label = None) ->
            colIndex cm label = Some idx -> label ∈ ms) as Hin.
  { intros label idx cm ms Hms Hother Hsome.
    destruct (decide (label ∈ ms)) as [|Hnot]; [done|].
    rewrite Hother in Hsome by done. discriminate Hsome. }
  destruct cm1 as [|kv cm1]; simpl in Hrun.
  - destruct (selectStatsTab tabKey p4) as [p5 [[]|e]]; [|done].
    destruct (waitForRow _) as [p6 [[]|e]]; [|done].
    destruct (mapColumns (Some patterns) p6) as [p7 [[cm2 ms2]|e]] eqn:Hmap2; [|done].
    destruct (mapTableColumns_patterns Page tableHeaders norm toLowerCase test
                patterns p6 p7 cm2 ms2 Hmap2) as [Hms2 Hother2].
    destruct (Hlast _ cm2 ms2 p7 eq_refl Hms2 Hother2 Hrun) as [Hm Hother].
    split; [done|]. intros label idx. by apply Hin.
  - destruct (Hlast _ (kv :: cm1) ms1 p4 eq_refl Hms1 Hother1 Hrun) as [Hm Hother].
    split; [done|]. intros label idx. by apply Hin.
Qed.

(** X19. For a tab that has patterns (pvp, pve, resources), whenever the
    preparation of the tab returns, its metrics are all the labels of the
    tab's pattern object in their order, whatever the page shows: so for
    pvp the eight of KDR to Headshot %.  Every key of the column map is one
    of these labels. *)
Theorem prepareTab_metrics_of_patterns
    (tabKey : string) (patterns : list (string * list string))
    (page page1 : Page) (columnMap : ColumnMap) (metrics : list string) :
  entryOf TAB_DEFS tabKey ≫= tab_patterns = Some patterns ->
  prepare tabKey page = (page1, Return (columnMap, metrics)) ->
  metrics = map fst patterns /\
  (forall label idx, colIndex columnMap label = Some idx -> label ∈ metrics) /\
  (tabKey = "pvp" ->
   metrics = ["KDR"; "PvP Kills"; "PvP Deaths"; "Suicides"; "Shots Fired";
              "Shots Hit"; "Headshots"; "Headshot %"]).
Proof.
  intros Hpatterns Hrun.
  destruct (prepareTab_pattern_metrics tabKey patterns page page1 columnMap metrics
              Hpatterns Hrun) as [Hm Hkeys].
  split; [done|]. split; [done|]. intros ->. rewrite Hm.
  injection Hpatterns as <-. reflexivity.
Qed.
End PrepareFacts.

Lemma prepareTab_metrics_of_patterns_witness :
  let tableHeaders (page : nat) : nat * completion (list string) :=
    (S page, Return ["Player"; "KDR"; "PvP  Kills"]) in
  let test (re s : string) : bool := String.eqb re "^kdr$" && String.eqb s "KDR" in
  let step (page : nat) : nat * completion unit := (S page, Return tt) in
  exists page1 columnMap,
    prepareTab nat tableHeaders (fun s => s) (fun s => s) test
      (fun _ => step) (fun _ page => (page, true)) step step "pvp" 0
    = (page1, Return (columnMap,
         ["KDR"; "PvP Kills"; "PvP Deaths"; "Suicides"; "Shots Fired";
          "Shots Hit"; "Headshots"; "Headshot %"])) /\
    colIndex columnMap "KDR" = Some 1.
Proof.
  intros tableHeaders test step.
  destruct (prepareTab nat tableHeaders (fun s => s) (fun s => s) test
              (fun _ => step) (fun _ page => (page, true)) step step "pvp" 0)
    as [page1 [[columnMap metrics]|err]] eqn:Hrun; [|discriminate Hrun].
  destruct (prepareTab_metrics_of_patterns nat tableHeaders (fun s => s) (fun s => s)
              test (fun _ => step) (fun _ page => (page, true)) step step
              "pvp" COLUMN_PATTERNS 0 page1 columnMap metrics eq_refl Hrun)
    as (_ & _ & Hpvp).
  exists page1, columnMap. rewrite (Hpvp eq_refl). split; [reflexivity|].
  vm_compute in Hrun. injection Hrun as _ <- _. reflexivity.
Defined.


(** ** A pass of the scraper, with or without the pvp tab *)

Section PassFacts.
Variable Page : Type.
Variable prepareTab : string -> Page -> Page * completion (ColumnMap * list string).
Variable resetTable : Page -> Page * completion unit.
Variable getPlayerStats :
  jsobj -> ColumnMap -> list string -> Page -> Page * completion PlayerStats.
Variable tabEntries : list string.
Variable profiles : list jsobj.

Abbreviation PState := (ScrapeState Page).
Abbreviation facts := (passFacts Page prepareTab tabEntries (length profiles)).
Abbreviation fromPage := (thrownByPage Page prepareTab resetTable).

(** A loop of a pass: the invariant holds at its end when it returns, and
    what a throwing turn establishes holds when it throws. *)
Lemma forEach_outcome {X} (body : X -> M Page unit)
    (I : list X -> PState -> Prop) (Q : PState -> JsError -> Prop) (whole : list X) :
  (forall done x rest st st' r,
     whole = done ++ x :: rest -> I done st -> body x st = (st', r) ->
     match r with
     | Return _ => I (done ++ [x]) st'
     | Throw err => Q st' err
     end) ->
  forall rest done st st' r,
    whole = done ++ rest -> I done st ->
    forEach Page rest body st = (st', r) ->
    match r with
    | Return _ => I whole st'
    | Throw err => Q st' err
    end.
Proof.
  intros Hstep. induction rest as [|x rest IH]; intros done st st' r Hwhole HI Hrun.
  - simpl in Hrun. injection Hrun as <- <-. by rewrite Hwhole, app_nil_r.
  - simpl in Hrun. unfold bind in Hrun.
    destruct (body x st) as [st1 [[]|err]] eqn:Hbody.
    + apply (IH (done ++ [x]) st1 st' r); [by rewrite <- app_assoc| |done].
      apply (Hstep done x rest st st1 (Return tt) Hwhole HI Hbody).
    + injection Hrun as <- <-.
      apply (Hstep done x rest st st1 (Throw err) Hwhole HI Hbody).
Qed.

Lemma facts_initial (p : Page) : facts (initialState Page p).
Proof.
  split; simpl.
  - constructor.
  - intros l Hl. by apply elem_of_nil in Hl.
  - intros k ready. by rewrite lookup_empty.
  - intros k tab. by rewrite lookup_empty.
Qed.

(** [ensureTabReady] makes no call of [getPlayerStats]; what it returns has
    been prepared, and what it throws, preparing the tab threw. *)
Lemma ensureTabReady_facts (tabKey : string) (st : PState) :
  tabKey ∈ tabEntries -> facts st ->
  match ensureTabReady Page prepareTab tabKey st with
  | (st1, Return ready) =>
      facts st1 /\ lookups Page st1 = lookups Page st /\
      preparedAs Page prepareTab tabKey ready
  | (st1, Throw err) =>
      facts st1 /\ lookups Page st1 = lookups Page st /\ fromPage err
  end.
Proof.
  intros Hkey [Honce Hbounds Hcache Htabs]. unfold ensureTabReady.
  destruct (tabCache Page st !! tabKey) as [cached|] eqn:Hc.
  - split; [done|]. split; [done|]. by eapply Hcache.
  - destruct (prepareTab tabKey (page Page st)) as [p [[columnMap ms]|err]] eqn:Hprep.
    + assert (preparedAs Page prepareTab tabKey (columnMap, ms)) as Hready.
      { by exists (page Page st), p. }
      split; [|done]. split; simpl; [done|done| |].
      * intros k ready. destruct (decide (tabKey = k)) as [<-|Hne].
        -- rewrite lookup_insert_eq. by intros [= <-].
        -- rewrite lookup_insert_ne by done. apply Hcache.
      * intros k tab. destruct (decide (tabKey = k)) as [<-|Hne].
        -- rewrite lookup_insert_eq. intros [= <-]. split; [done|].
           by exists (columnMap, ms).
        -- rewrite lookup_insert_ne by done. apply Htabs.
    + split; [done|]. split; [done|]. left. exists tabKey, (page Page st).
      by rewrite Hprep.
Qed.

(** One more call of [getPlayerStats], for a tab and a player not looked up
    before. *)
Lemma facts_lookup (st st' : PState) (tabKey : string) (j : nat)
    (r : completion PlayerStats) :
  facts st -> tabKey ∈ tabEntries -> j < length profiles ->
  (tabKey, j) ∉ lookupKey <$> lookups Page st ->
  lookups Page st' = lookups Page st ++ [mkLookup tabKey j r] ->
  tabCache Page st' = tabCache Page st ->
  (forall k tab', tabs Page st' !! k = Some tab' ->
     exists tab, tabs Page st !! k = Some tab /\
                 metrics tab' = metrics tab /\ columnMap tab' = columnMap tab) ->
  facts st'.
Proof.
  intros [Honce Hbounds Hcache Htabs] Hkey Hj Hnew Hl Hc Ht. split.
  - rewrite Hl, fmap_app. simpl. apply NoDup_app. split; [done|]. split.
    + intros k Hk Hin. apply list_elem_of_singleton in Hin as ->. done.
    + apply NoDup_singleton.
  - intros l. rewrite Hl, elem_of_app, list_elem_of_singleton.
    intros [Hin| ->]; [by apply Hbounds | done].
  - intros k ready. rewrite Hc. apply Hcache.
  - intros k tab' Hk. destruct (Ht k tab' Hk) as (tab & Htab & -> & ->).
    by apply Htabs.
Qed.

(** The inner loop of the per-tab traversal calls [getPlayerStats] for
    players of the list only, each at most once, and leaves [tabs] and
    [tabCache] alone. *)
Lemma perTabPlayers_lookups (scrapePvp : bool) (tabKey : string)
    (columnMap : ColumnMap) (metricLabels : list string) (rest : list (nat * jsobj)) :
  forall (found : gmap string PlayerStats) (st st' : PState)
         (found' : gmap string PlayerStats),
  perTabPlayers Page getPlayerStats scrapePvp tabKey columnMap metricLabels rest found st
    = (st', found') ->
  tabs Page st' = tabs Page st /\ tabCache Page st' = tabCache Page st /\
  exists new,
    lookups Page st' = lookups Page st ++ new /\
    Forall (fun l => l_tab l = tabKey) new /\
    sublist (l_index <$> new) (rest.*1).
Proof.
  induction rest as [|[j p] rest IH]; intros found st st' found' Hrun; simpl in Hrun.
  - injection Hrun as <- <-. split; [done|]. split; [done|]. exists [].
    rewrite app_nil_r. split; [done|]. split; constructor.
  - destruct (skipped Page scrapePvp j tabKey st).
    + destruct (IH _ _ _ _ Hrun) as (Ht & Hc & new & Hl & Hall & Hsub).
      split; [done|]. split; [done|]. exists new. split; [done|]. split; [done|].
      simpl. by constructor.
    + destruct (tryPlayer Page getPlayerStats tabKey j p columnMap metricLabels _ found st)
        as [st1 found1] eqn:Htry.
      apply tryPlayer_cases in Htry as (pg & r & Htry).
      destruct (IH _ _ _ _ Hrun) as (Ht & Hc & new & Hl & Hall & Hsub).
      assert (tabs Page st1 = tabs Page st /\ tabCache Page st1 = tabCache Page st /\
              lookups Page st1 = lookups Page st ++ [mkLookup tabKey j r])
        as (Ht1 & Hc1 & Hl1).
      { destruct r as [v|err]; simpl in Htry.
        - by injection Htry as <- _.
        - by destruct Htry as [_ ->]. }
      split; [congruence|]. split; [congruence|].
      exists (mkLookup tabKey j r :: new). split.
      { rewrite Hl, Hl1. by rewrite <- app_assoc. }
      split; [by constructor|]. simpl. by constructor.
Qed.

Lemma indexed_seq (l : list jsobj) :
  (imap (fun i q => (i, q)) l).*1 = seq 0 (length l).
Proof.
  apply list_eq. intros i. rewrite list_lookup_fmap, list_lookup_imap.
  destruct (l !! i) as [q|] eqn:Hq; simpl.
  - symmetry. apply lookup_seq. split; [done|]. by eapply lookup_lt_Some.
  - symmetry. apply lookup_seq_ge. by apply lookup_ge_None.
Qed.

Lemma indexed_position (l done rest : list (nat * jsobj)) (x : nat * jsobj) :
  l = imap (fun i q => (i, q)) profiles -> l = done ++ x :: rest ->
  x.1 = length done /\ length done < length profiles.
Proof.
  intros Hl Hsplit.
  assert (l !! length done = Some x) as Hx.
  { rewrite Hsplit. by rewrite lookup_app_r, Nat.sub_diag. }
  rewrite Hl, list_lookup_imap in Hx.
  destruct (profiles !! length done) as [q|] eqn:Hq; [|done].
  injection Hx as <-. split; [done|]. by eapply lookup_lt_Some.
Qed.

Lemma facts_page (st : PState) (p : Page) :
  facts st ->
  facts (mkState Page p (tabs Page st) (missing Page st) (missingIndexes Page st)
           (tabCache Page st) (lookups Page st)).
Proof. intros [? ? ? ?]. by split. Qed.

(** One tab of the per-tab traversal. *)
Lemma perTabStep_facts (scrapePvp : bool) (tabKey : string) (doneTabs : list string)
    (st st' : PState) (r : completion unit) :
  tabKey ∈ tabEntries -> tabKey ∉ doneTabs -> facts st ->
  (forall l, l ∈ lookups Page st -> l_tab l ∈ doneTabs) ->
  perTabStep Page prepareTab getPlayerStats scrapePvp profiles tabKey st = (st', r) ->
  match r with
  | Return _ =>
      facts st' /\ forall l, l ∈ lookups Page st' -> l_tab l ∈ doneTabs ++ [tabKey]
  | Throw err => facts st' /\ fromPage err
  end.
Proof.
  intros Hkey Hnew Hfacts Hdone. unfold perTabStep, bind.
  pose proof (ensureTabReady_facts tabKey st Hkey Hfacts) as Hready.
  destruct (ensureTabReady Page prepareTab tabKey st) as [st1 [ready|err]].
  2:{ intros [= <- <-]. by destruct Hready as (? & _ & ?). }
  destruct Hready as (Hf1 & Hl1 & Hprep).
  destruct (perTabPlayers Page getPlayerStats scrapePvp tabKey ready.1 ready.2 _ ∅ st1)
    as [st2 found] eqn:Hplayers.
  intros [= <- <-].
  apply perTabPlayers_lookups in Hplayers as (Ht & Hc & new & Hl & Hall & Hsub).
  rewrite indexed_seq in Hsub.
  destruct Hf1 as [Honce Hbounds Hcache Htabs].
  assert (forall l, l ∈ new -> l_tab l = tabKey /\ l_index l < length profiles) as Hnewl.
  { intros l Hin. split; [by eapply Forall_forall in Hall|].
    assert (l_index l ∈ seq 0 (length profiles)) as Hs.
    { eapply elem_of_sublist; [|exact Hsub]. apply list_elem_of_fmap. eauto. }
    apply elem_of_seq in Hs. lia. }
  split; [split|]; simpl.
  - rewrite Hl, fmap_app. apply NoDup_app. split; [done|]. split.
    + intros k Hk Hin. apply list_elem_of_fmap in Hk as (l & -> & Hl0).
      apply list_elem_of_fmap in Hin as (l' & Hkey' & Hl').
      rewrite Hl1 in Hl0. apply Hdone in Hl0.
      destruct (Hnewl l' Hl') as [Ht' _]. unfold lookupKey in Hkey'.
      injection Hkey' as Htab _. rewrite Htab, Ht' in Hl0. done.
    + assert (lookupKey <$> new = (fun j => (tabKey, j)) <$> (l_index <$> new)) as ->.
      { clear -Hall. induction Hall as [|l new Hl _ IH]; [done|].
        rewrite !fmap_cons, IH. unfold lookupKey. by rewrite Hl. }
      apply NoDup_fmap_2; [by intros ? ? [= ?]|].
      apply (sublist_NoDup _ _ (NoDup_seq _ _) Hsub).
  - intros l. rewrite Hl, elem_of_app. intros [Hin|Hin]; [by apply Hbounds|].
    destruct (Hnewl l Hin) as [-> ?]. done.
  - intros k rdy. rewrite Hc. apply Hcache.
  - intros k tab. destruct (decide (tabKey = k)) as [<-|Hne].
    + rewrite lookup_insert_eq. intros [= <-]. split; [done|]. by exists ready.
    + rewrite lookup_insert_ne by done. rewrite Ht. apply Htabs.
  - intros l. rewrite Hl, elem_of_app, Hl1. intros [Hin|Hin].
    + apply elem_of_app. left. by apply Hdone.
    + apply elem_of_app. right. destruct (Hnewl l Hin) as [-> _].
      by apply list_elem_of_singleton.
Qed.

Lemma perTab_facts (scrapePvp : bool) (p : Page) (st' : PState) (r : completion unit) :
  NoDup tabEntries ->
  perTab Page prepareTab getPlayerStats scrapePvp profiles tabEntries (initialState Page p)
    = (st', r) ->
  facts st' /\ match r with Return _ => True | Throw err => fromPage err end.
Proof.
  intros Hnd Hrun. unfold perTab in Hrun.
  assert (match r with
          | Return _ =>
              facts st' /\ forall l, l ∈ lookups Page st' -> l_tab l ∈ tabEntries
          | Throw err => facts st' /\ fromPage err
          end) as Hloop.
  { apply (forEach_outcome
             (perTabStep Page prepareTab getPlayerStats scrapePvp profiles)
             (fun seen st => facts st /\ forall l, l ∈ lookups Page st -> l_tab l ∈ seen)
             (fun st err => facts st /\ fromPage err) tabEntries)
      with (rest := tabEntries) (done := []) (st := initialState Page p); [|done| |done].
    - intros seen x rest st st1 r1 Hwhole [Hf Hd] Hbody.
      apply (perTabStep_facts scrapePvp x seen st st1 r1); [| |done|done|done].
      + rewrite Hwhole. set_solver.
      + rewrite Hwhole in Hnd. apply NoDup_app in Hnd as (_ & Hnd & _).
        intros Hin. apply (Hnd x Hin). by left.
    - split; [apply facts_initial|]. intros l Hl. by apply elem_of_nil in Hl. }
  destruct r as [[]|err]; [by destruct Hloop|done].
Qed.
(** One tab of one player of the per-player traversal. *)
Lemma perPlayerStep_facts (scrapePvp : bool) (i : nat) (profile : jsobj)
    (tabKey : string) (seen : list string) (st st' : PState) (r : completion unit) :
  tabKey ∈ tabEntries -> tabKey ∉ seen -> i < length profiles -> facts st ->
  (forall l, l ∈ lookups Page st ->
     l_index l < i \/ (l_index l = i /\ l_tab l ∈ seen)) ->
  perPlayerStep Page prepareTab resetTable getPlayerStats scrapePvp i profile tabKey st
    = (st', r) ->
  match r with
  | Return _ =>
      facts st' /\
      forall l, l ∈ lookups Page st' ->
        l_index l < i \/ (l_index l = i /\ l_tab l ∈ seen ++ [tabKey])
  | Throw err => facts st' /\ fromPage err
  end.
Proof.
  intros Hkey Hnew Hi Hfacts Hseen. unfold perPlayerStep.
  destruct (skipped Page scrapePvp i tabKey st).
  { intros [= <- <-]. split; [done|]. intros l Hl.
    destruct (Hseen l Hl) as [?|[? ?]]; [by left|right]. split; [done|].
    apply elem_of_app. by left. }
  unfold bind.
  pose proof (ensureTabReady_facts tabKey st Hkey Hfacts) as Hready.
  destruct (ensureTabReady Page prepareTab tabKey st) as [st1 [ready|err]].
  2:{ intros [= <- <-]. by destruct Hready as (? & _ & ?). }
  destruct Hready as (Hf1 & Hl1 & Hprep). unfold onPage.
  destruct (resetTable (page Page st1)) as [p2 [[]|err]] eqn:Hreset.
  2:{ intros [= <- <-]. split; [by apply facts_page|]. right.
      exists (page Page st1). by rewrite Hreset. }
  pose proof (facts_page st1 p2 Hf1) as Hf2.
  set (st2 := mkState Page p2 _ _ _ _ _) in *.
  destruct (tryPlayer Page getPlayerStats tabKey i profile ready.1 ready.2 _ tt st2)
    as [st3 []] eqn:Htry.
  intros [= <- <-].
  apply tryPlayer_cases in Htry as (pg & r0 & Htry).
  assert (lookups Page st3 = lookups Page st ++ [mkLookup tabKey i r0] /\
          tabCache Page st3 = tabCache Page st1 /\
          forall k tab', tabs Page st3 !! k = Some tab' ->
            exists tab, tabs Page st1 !! k = Some tab /\
                        metrics tab' = metrics tab /\ columnMap tab' = columnMap tab)
    as (Hl3 & Hc3 & Ht3).
  { destruct r0 as [v|err]; simpl in Htry.
    - injection Htry as <-. unfold setStat. simpl. rewrite Hl1.
      split; [done|]. split; [done|]. intros k tab'.
      destruct (decide (tabKey = k)) as [<-|Hne].
      + rewrite lookup_alter_eq. destruct (tabs Page st1 !! tabKey) as [tab|]; [|done].
        simpl. intros [= <-]. by exists tab.
      + rewrite lookup_alter_ne by done. intros Hk. by exists tab'.
    - destruct Htry as [_ ->]. simpl. rewrite Hl1.
      split; [done|]. split; [done|]. intros k tab' Hk. by exists tab'. }
  assert ((tabKey, i) ∉ lookupKey <$> lookups Page st2) as Hfresh.
  { simpl. rewrite Hl1. intros Hin. apply list_elem_of_fmap in Hin as (l & Hk & Hl).
    unfold lookupKey in Hk. injection Hk as Htab Hidx.
    destruct (Hseen l Hl) as [?|[_ Hin]]; [lia|]. by rewrite <- Htab in Hin. }
  split.
  - apply (facts_lookup st2 st3 tabKey i r0); try done.
    subst st2. simpl. by rewrite Hl1.
  - intros l. rewrite Hl3, elem_of_app, list_elem_of_singleton.
    intros [Hl| ->].
    + destruct (Hseen l Hl) as [?|[? ?]]; [by left|right]. split; [done|].
      apply elem_of_app. by left.
    + right. split; [done|]. apply elem_of_app. right. by apply list_elem_of_singleton.
Qed.

(** All the tabs of one player of the per-player traversal. *)
Lemma perPlayerTabs_facts (scrapePvp : bool) (i : nat) (profile : jsobj)
    (st st' : PState) (r : completion unit) :
  NoDup tabEntries -> i < length profiles -> facts st ->
  (forall l, l ∈ lookups Page st -> l_index l < i) ->
  forEach Page tabEntries
    (perPlayerStep Page prepareTab resetTable getPlayerStats scrapePvp i profile) st
    = (st', r) ->
  match r with
  | Return _ => facts st' /\ forall l, l ∈ lookups Page st' -> l_index l < S i
  | Throw err => facts st' /\ fromPage err
  end.
Proof.
  intros Hnd Hi Hfacts Hbefore Hrun.
  assert (match r with
          | Return _ =>
              facts st' /\
              forall l, l ∈ lookups Page st' ->
                l_index l < i \/ (l_index l = i /\ l_tab l ∈ tabEntries)
          | Throw err => facts st' /\ fromPage err
          end) as Hloop.
  { apply (forEach_outcome
             (perPlayerStep Page prepareTab resetTable getPlayerStats scrapePvp i profile)
             (fun seen st => facts st /\
                forall l, l ∈ lookups Page st ->
                  l_index l < i \/ (l_index l = i /\ l_tab l ∈ seen))
             (fun st err => facts st /\ fromPage err) tabEntries)
      with (rest := tabEntries) (done := []) (st := st); [|done| |done].
    - intros seen x rest s s1 r1 Hwhole [Hf Hd] Hbody.
      apply (perPlayerStep_facts scrapePvp i profile x seen s s1 r1);
        [| |done|done|done|done].
      + rewrite Hwhole. set_solver.
      + rewrite Hwhole in Hnd. apply NoDup_app in Hnd as (_ & Hnd & _).
        intros Hin. apply (Hnd x Hin). by left.
    - split; [done|]. intros l Hl. left. by apply Hbefore. }
  destruct r as [[]|err]; [|done].
  destruct Hloop as [Hf Hl]. split; [done|]. intros l Hin.
  destruct (Hl l Hin) as [?|[? _]]; lia.
Qed.

Lemma perPlayer_facts (scrapePvp : bool) (p : Page) (st' : PState) (r : completion unit) :
  NoDup tabEntries ->
  perPlayer Page prepareTab resetTable getPlayerStats scrapePvp profiles tabEntries
    (initialState Page p) = (st', r) ->
  facts st' /\ match r with Return _ => True | Throw err => fromPage err end.
Proof.
  intros Hnd Hrun. unfold perPlayer in Hrun.
  assert (match r with
          | Return _ =>
              facts st' /\
              forall l, l ∈ lookups Page st' ->
                l_index l < length (imap (fun i q => (i, q)) profiles)
          | Throw err => facts st' /\ fromPage err
          end) as Hloop.
  { apply (forEach_outcome
             (fun ip : nat * jsobj =>
                forEach Page tabEntries
                  (perPlayerStep Page prepareTab resetTable getPlayerStats scrapePvp
                     ip.1 ip.2))
             (fun seen st => facts st /\
                forall l, l ∈ lookups Page st -> l_index l < length seen)
             (fun st err => facts st /\ fromPage err)
             (imap (fun i q => (i, q)) profiles))
      with (rest := imap (fun i q => (i, q)) profiles) (done := [])
           (st := initialState Page p); [| |split|done].
    - intros seen x rest s s1 r1 Hwhole [Hf Hd] Hbody.
      destruct (indexed_position _ seen rest x eq_refl Hwhole) as [Hx Hlt].
      pose proof (perPlayerTabs_facts scrapePvp x.1 x.2 s s1 r1 Hnd) as Hstep.
      rewrite Hx in Hstep. rewrite Hx in Hbody.
      specialize (Hstep Hlt Hf Hd Hbody).
      destruct r1 as [[]|err]; [|done].
      destruct Hstep as [? Hb]. split; [done|]. intros l Hl.
      rewrite length_app. simpl. specialize (Hb l Hl). lia.
    - done.
    - apply facts_initial.
    - intros l Hl. by apply elem_of_nil in Hl. }
  destruct r as [[]|err]; [by destruct Hloop|done].
Qed.
End PassFacts.

(** ** What a pass returns *)

Lemma NoDup_tabEntriesOf (tabsOption : option (list string)) :
  NoDup (tabEntriesOf tabsOption).
Proof.
  assert (NoDup TAB_KEYS) as Hkeys.
  { unfold TAB_KEYS. repeat (apply NoDup_cons; split; [set_solver|]). apply NoDup_nil_2. }
  unfold tabEntriesOf. destruct tabsOption as [[|t ts]|]; try done.
  apply NoDup_ListNoDup, List.NoDup_filter. by apply NoDup_ListNoDup.
Qed.

Lemma colIndex_list_to_map (columnMap : ColumnMap) (label : string) :
  (list_to_map columnMap : gmap string nat) !! label = colIndex columnMap label.
Proof.
  unfold colIndex. induction columnMap as [|[k v] rest IH]; simpl; [done|].
  destruct (String.eqb k label) eqn:Hk.
  - apply String.eqb_eq in Hk as ->. by rewrite lookup_insert_eq.
  - apply String.eqb_neq in Hk. by rewrite lookup_insert_ne.
Qed.

Section ScrapeResults.
Variable Page : Type.
Variable prepareTab : string -> Page -> Page * completion (ColumnMap * list string).
Variable resetTable : Page -> Page * completion unit.
Variable getPlayerStats :
  jsobj -> ColumnMap -> list string -> Page -> Page * completion PlayerStats.

Abbreviation scrape := (scrapePlayers Page prepareTab resetTable getPlayerStats).

(** The variables of a pass at its end. *)
Lemma scrapePlayers_facts (strategy : jsval) (tabsOption : option (list string))
    (profiles : list jsobj) (p : Page) :
  exists st,
    passFacts Page prepareTab (tabEntriesOf tabsOption) (length profiles) st /\
    (scrape strategy tabsOption profiles p).1.2 = lookups Page st /\
    match (scrape strategy tabsOption profiles p).2 with
    | Return res => res_tabs res = tabs Page st
    | Throw err => thrownByPage Page prepareTab resetTable err
    end.
Proof.
  pose proof (NoDup_tabEntriesOf tabsOption) as Hnd. unfold scrapePlayers.
  destruct (strategyOf strategy).
  - destruct (perPlayer _ _ _ _ _ _ _ _) as [st r] eqn:Hrun. exists st.
    apply perPlayer_facts in Hrun as [Hf Hr]; [|done].
    split; [done|]. split; [done|]. by destruct r.
  - destruct (perTab _ _ _ _ _ _ _) as [st r] eqn:Hrun. exists st.
    apply (perTab_facts Page prepareTab resetTable) in Hrun as [Hf Hr]; [|done].
    split; [done|]. split; [done|]. by destruct r.
Qed.

(** A tab of the per-tab traversal that returns has filed the tab, and
    leaves the tabs filed before. *)
Lemma perTabStep_reports (scrapePvp : bool) (profiles : list jsobj)
    (tabKey : string) (st st' : ScrapeState Page) :
  perTabStep Page prepareTab getPlayerStats scrapePvp profiles tabKey st
    = (st', Return tt) ->
  is_Some (tabs Page st' !! tabKey) /\
  forall k, is_Some (tabs Page st !! k) -> is_Some (tabs Page st' !! k).
Proof.
  unfold perTabStep, bind.
  destruct (ensureTabReady Page prepareTab tabKey st) as [st1 [ready|err]] eqn:Hready;
    [|done].
  destruct (perTabPlayers Page getPlayerStats scrapePvp tabKey ready.1 ready.2 _ ∅ st1)
    as [st2 found] eqn:Hplayers.
  apply perTabPlayers_lookups in Hplayers as (Ht & _).
  intros [= <-]. simpl. split; [by rewrite lookup_insert_eq|].
  intros k Hk. destruct (decide (tabKey = k)) as [<-|Hne].
  { by rewrite lookup_insert_eq. }
  rewrite lookup_insert_ne, Ht by done.
  unfold ensureTabReady in Hready.
  destruct (tabCache Page st !! tabKey); [by injection Hready as <- _|].
  destruct (prepareTab tabKey (page Page st)) as [p1 [[cm ms]|err]]; [|done].
  injection Hready as <- _. simpl. by rewrite lookup_insert_ne.
Qed.

Lemma perTab_reports (scrapePvp : bool) (profiles : list jsobj)
    (tabEntries : list string) (st st' : ScrapeState Page) :
  perTab Page prepareTab getPlayerStats scrapePvp profiles tabEntries st
    = (st', Return tt) ->
  forall k, k ∈ tabEntries -> is_Some (tabs Page st' !! k).
Proof.
  intros Hrun.
  apply (forEach_outcome Page
           (perTabStep Page prepareTab getPlayerStats scrapePvp profiles)
           (fun seen s => forall k, k ∈ seen -> is_Some (tabs Page s !! k))
           (fun _ _ => True) tabEntries)
    with (rest := tabEntries) (done := []) (st := st) (st' := st') (r := Return tt);
    [|done| |exact Hrun].
  - intros seen x rest s s1 r _ Hseen Hbody. destruct r as [[]|err]; [|done].
    apply perTabStep_reports in Hbody as [Hx Hkeep].
    intros k [Hk| ->%list_elem_of_singleton]%elem_of_app; [|done].
    by apply Hkeep, Hseen.
  - intros k Hk. by apply elem_of_nil in Hk.
Qed.

(** X20. In a pass, whatever the strategy and whether it returns or throws, the
    calls of [getPlayerStats] are for selected tabs and for players of the
    list, and no player is looked up twice on the same tab. *)
Theorem scrapePlayers_looks_up_once (strategy : jsval)
    (tabsOption : option (list string)) (profiles : list jsobj) (p : Page) :
  let calls := (scrape strategy tabsOption profiles p).1.2 in
  NoDup ((fun l => (l_tab l, l_index l)) <$> calls) /\
  forall l, l ∈ calls ->
    l_tab l ∈ tabEntriesOf tabsOption /\ l_index l < length profiles.
Proof.
  destruct (scrapePlayers_facts strategy tabsOption profiles p)
    as (st & [Honce Hbounds _ _] & Hcalls & _).
  simpl. rewrite Hcalls. split; [exact Honce|exact Hbounds].
Qed.

(** X22. A per-tab pass that returns reports every selected tab and no other,
    also for an empty list of players. *)
Theorem scrapePlayers_perTab_reports_selected (strategy : jsval)
    (tabsOption : option (list string)) (profiles : list jsobj) (p : Page)
    (res : ScrapeResult) :
  strategy <> JStr "perPlayer" ->
  (scrape strategy tabsOption profiles p).2 = Return res ->
  forall tabKey,
    tabKey ∈ tabEntriesOf tabsOption <-> is_Some (res_tabs res !! tabKey).
Proof.
  intros Hstrategy Hres tabKey. split.
  - revert Hres. unfold scrapePlayers, strategyOf.
    rewrite decide_False by done.
    destruct (perTab _ _ _ _ _ _ _) as [st [[]|err]] eqn:Hrun; [|done].
    simpl. intros [= <-]. simpl. by eapply perTab_reports.
  - intros [tab Htab].
    destruct (scrapePlayers_facts strategy tabsOption profiles p)
      as (st & [_ _ _ Htabs] & _ & Hr).
    rewrite Hres in Hr. rewrite Hr in Htab. by destruct (Htabs tabKey tab Htab).
Qed.
End ScrapeResults.

Lemma scrapePlayers_perTab_reports_selected_witness :
  let prepareTab (tabKey : string) (p : nat) : nat * completion (ColumnMap * list string) :=
    (S p, Return ([("KDR", 1)], ["KDR"])) in
  let resetTable (p : nat) : nat * completion unit := (S p, Return tt) in
  let getPlayerStats (profile : jsobj) (columnMap : ColumnMap) (labels : list string)
      (p : nat) : nat * completion PlayerStats :=
    (S p, Throw {| err_name := "Error"; err_message := "Player row not found" |}) in
  exists res,
    (scrapePlayers nat prepareTab resetTable getPlayerStats (JStr "perTab")
       (Some ["pve"; "pvp"; "raids"]) [] 0).2 = Return res /\
    is_Some (res_tabs res !! "pve") /\ ~ is_Some (res_tabs res !! "farming").
Proof.
  intros prepareTab resetTable getPlayerStats.
  eexists. split; [reflexivity|].
  pose proof (scrapePlayers_perTab_reports_selected nat prepareTab resetTable
                getPlayerStats (JStr "perTab") (Some ["pve"; "pvp"; "raids"]) [] 0 _
                ltac:(discriminate) eq_refl) as Hiff.
  split.
  - apply Hiff. vm_compute. set_solver.
  - intros Hsome. apply Hiff in Hsome. vm_compute in Hsome. set_solver.
Defined.

(** ** The tabs of a pass, with [ensureTabReady] as the scraper has it *)

Section ScrapeTabs.
Variable Page : Type.
Variable tableHeaders : Page -> Page * completion (list string).
Variable norm : string -> string.
Variable toLowerCase : string -> string.
Variable test : string -> string -> bool.
Variable selectStatsTab : string -> Page -> Page * completion unit.
Variable headersAppear : list string -> Page -> Page * bool.
Variable resetTableSearch : Page -> Page * completion unit.
Variable waitForRow : Page -> Page * completion unit.
Variable getPlayerStats :
  jsobj -> ColumnMap -> list string -> Page -> Page * completion PlayerStats.

(** X23. Whenever a pass returns, a tab of its result is a selected tab, and if
    the tab has patterns (pvp, pve, resources) its metrics are all the
    labels of its pattern object in their order, whatever the page showed
    and whoever was found, and every key of its column map is one of
    them. *)
Theorem scrapePlayers_pattern_tab_metrics (strategy : jsval)
    (tabsOption : option (list string)) (profiles : list jsobj) (p : Page)
    (res : ScrapeResult) (tabKey : string) (tab : Tab)
    (patterns : list (string * list string)) :
  (scrapePlayers Page
     (prepareTab Page tableHeaders norm toLowerCase test selectStatsTab headersAppear
        resetTableSearch waitForRow)
     (andThen Page resetTableSearch (fun _ => waitForRow))
     getPlayerStats strategy tabsOption profiles p).2 = Return res ->
  res_tabs res !! tabKey = Some tab ->
  entryOf TAB_DEFS tabKey ≫= tab_patterns = Some patterns ->
  tabKey ∈ tabEntriesOf tabsOption /\
  metrics tab = Some (map fst patterns) /\
  exists columns,
    columnMap tab = Some columns /\
    forall label idx, columns !! label = Some idx -> label ∈ map fst patterns.
Proof.
  intros Hres Htab Hpatterns.
  destruct (scrapePlayers_facts Page
              (prepareTab Page tableHeaders norm toLowerCase test selectStatsTab
                 headersAppear resetTableSearch waitForRow)
              (andThen Page resetTableSearch (fun _ => waitForRow))
              getPlayerStats strategy tabsOption profiles p)
    as (st & [_ _ _ Htabs] & _ & Hr).
  rewrite Hres in Hr. rewrite Hr in Htab.
  destruct (Htabs tabKey tab Htab)
    as (Hkey & [cm ms] & (p1 & p2 & Hprep) & Hmetrics & Hcolumns).
  destruct (prepareTab_pattern_metrics Page tableHeaders norm toLowerCase test
              selectStatsTab headersAppear resetTableSearch waitForRow
              tabKey patterns p1 p2 cm ms Hpatterns Hprep) as [-> Hkeys].
  split; [done|]. split; [done|]. exists (list_to_map cm). split; [done|].
  intros label idx. rewrite colIndex_list_to_map. apply Hkeys.
Qed.
End ScrapeTabs.

Lemma scrapePlayers_pattern_tab_metrics_witness :
  let tableHeaders (page : nat) : nat * completion (list string) :=
    (S page, Return ["Player"; "KDR"; "PvP  Kills"]) in
  let test (re s : string) : bool := String.eqb re "^kdr$" && String.eqb s "KDR" in
  let step (page : nat) : nat * completion unit := (S page, Return tt) in
  let getPlayerStats (profile : jsobj) (columnMap : ColumnMap) (labels : list string)
      (page : nat) : nat * completion PlayerStats :=
    (S page, Throw {| err_name := "Error"; err_message := "Player row not found" |}) in
  exists res tab,
    (scrapePlayers nat
       (prepareTab nat tableHeaders (fun s => s) (fun s => s) test
          (fun _ => step) (fun _ page => (page, true)) step step)
       (andThen nat step (fun _ => step))
       getPlayerStats (JStr "perPlayer") (Some ["pvp"]) [∅] 0).2 = Return res /\
    res_tabs res !! "pvp" = Some tab /\
    metrics tab = Some ["KDR"; "PvP Kills"; "PvP Deaths"; "Suicides"; "Shots Fired";
                        "Shots Hit"; "Headshots"; "Headshot %"].
Proof.
  intros tableHeaders test step getPlayerStats.
  eexists _, _. split; [reflexivity|]. split; [reflexivity|].
  eapply (scrapePlayers_pattern_tab_metrics nat tableHeaders (fun s => s) (fun s => s)
            test (fun _ => step) (fun _ page => (page, true)) step step getPlayerStats
            (JStr "perPlayer") (Some ["pvp"]) [∅] 0 _ "pvp" _ COLUMN_PATTERNS);
    reflexivity.
Defined.

(** ** Loading the profiles of a pass *)

Lemma numericId_cases (v : jsval) :
  (truthy v && isDigits17 (toStr v) = true /\ numericId v = JStr (toStr v) /\
   truthy (numericId v) = true) \/
  (truthy v && isDigits17 (toStr v) = false /\ numericId v = JNull).
Proof.
  unfold numericId. destruct (truthy v && isDigits17 (toStr v)) eqn:Hv; [left|by right].
  split; [done|]. split; [done|]. simpl.
  apply andb_true_iff in Hv as [_ Hd].
  destruct (toStr v); [by vm_compute in Hd|done].
Qed.

Lemma jsOr_truthy (a b : jsval) : truthy a = true -> jsOr a b = a.
Proof. intros Ha. unfold jsOr. by rewrite Ha. Qed.

Lemma jsOr_falsy (a b : jsval) : truthy a = false -> jsOr a b = b.
Proof. intros Ha. unfold jsOr. by rewrite Ha. Qed.

Section ProfileFacts.
Variable Page : Type.
Variable urlPathname : string -> option string.
Variable fetchSteamProfile : jsval -> jsval -> Page -> Page * jsobj.

(** X24. A player whose steamId has 17 digits comes out of the loading with a
    steamId that is a string of 17 digits, whatever was fetched for it, and
    that id is its search key.  The colour of a profile is never falsy.  A
    player with a name, an avatar, a colour and such a steamId is loaded
    without touching the page, with its own name, avatar, colour and
    steamUrl, the steamId as a string, and its [fallbackName] if it has
    one, else its name. *)
Theorem loadProfile_keeps_stored_id (p : jsobj) (page : Page) :
  let load := loadProfile Page urlPathname fetchSteamProfile in
  let profile := (load p page).2 in
  let stored := truthy (field p "steamId") && isDigits17 (toStr (field p "steamId")) in
  (stored = true ->
   (exists digits, field profile "steamId" = JStr digits /\ isDigits17 digits = true) /\
   field profile "searchKey" = field profile "steamId") /\
  truthy (field profile "color") = true /\
  (needsProfile p = false ->
   load p page = (page, profile) /\
   field profile "steamId" = JStr (toStr (field p "steamId")) /\
   field profile "displayName" = field p "displayName" /\
   field profile "avatarUrl" = field p "avatarUrl" /\
   field profile "color" = field p "color" /\
   field profile "steamUrl" = field p "steamUrl" /\
   field profile "fallbackName" = jsOr (field p "fallbackName") (field p "displayName")).
Proof.
  intros load profile stored. subst load profile. unfold loadProfile.
  destruct (if needsProfile p then _ else _) as [page1 sp] eqn:Hsp. simpl.
  rewrite !field_insert_eq.
  repeat (rewrite field_insert_ne by done; rewrite ?field_insert_eq).
  split; [|split].
  - intros Hstored. subst stored.
    destruct (numericId_cases (field p "steamId")) as [(_ & Hs & Hts)|[Hs _]];
      [|congruence].
    assert (exists digits,
              jsOr (numericId (field sp "steamId")) (numericId (field p "steamId"))
                = JStr digits /\ isDigits17 digits = true) as (digits & Hd & Hd17).
    { destruct (numericId_cases (field sp "steamId")) as [(Hf & Hn & Htf)|[_ Hn]].
      - exists (toStr (field sp "steamId")). unfold jsOr. rewrite Htf, Hn.
        split; [done|]. by apply andb_true_iff in Hf as [_ ?].
      - exists (toStr (field p "steamId")). rewrite Hn, Hs. split; [done|].
        by apply andb_true_iff in Hstored as [_ ?]. }
    assert (truthy (JStr digits) = true) as Htd.
    { simpl. destruct digits; [by vm_compute in Hd17|done]. }
    assert (forall v, jsOr (JStr digits) v = JStr digits) as Hor.
    { intros v. unfold jsOr. by rewrite Htd. }
    rewrite Hd, !Hor. split; [by exists digits|done].
  - unfold jsOr. by repeat (case_match; try done).
  - intros Hneeds. rewrite Hneeds in Hsp. injection Hsp as <- <-.
    unfold needsProfile in Hneeds.
    repeat (apply orb_false_iff in Hneeds as [Hneeds ?]).
    repeat match goal with H : negb _ = false |- _ => apply negb_false_iff in H end.
    unfold storedProfile.
    repeat (rewrite ?field_insert_eq; rewrite ?field_insert_ne by done).
    destruct (numericId_cases (field p "steamId")) as [(_ & Hs & Hts)|[Hs _]].
    2:{ rewrite andb_false_iff in Hs. destruct Hs; congruence. }
    rewrite Hs in Hts |- *.
    assert (forall v, jsOr (JStr (toStr (field p "steamId"))) v
                      = JStr (toStr (field p "steamId"))) as Hor.
    { intros v. unfold jsOr. by rewrite Hts. }
    rewrite !Hor. split; [reflexivity|]. simpl.
    repeat (rewrite ?field_insert_eq; rewrite ?field_insert_ne by done).
    assert (forall (b : bool) (v : jsval), (if b then v else v) = v) as Hif
      by (by intros []).
    rewrite !Hif.
    split_and!; try done.
    + by rewrite (jsOr_truthy (field p "color")), !(jsOr_truthy (field p "color")).
    + destruct (truthy (field p "fallbackName")) eqn:Hfb.
      * by rewrite !(jsOr_truthy (field p "fallbackName")).
      * by rewrite (jsOr_falsy (field p "fallbackName")),
                   !(jsOr_truthy (field p "displayName")).
Qed.
End ProfileFacts.


(** * Part IV: the roster in the response, the cache keys of the routes, and a whole scrape *)

(** ** The roster players [buildResponseFromCache] leaves out *)

(** A profile [mergeCachedProfiles] keeps stems from a cached profile and a
    roster player that share a truthy steamId or steamUrl, and has the
    player's steamId and steamUrl where they are truthy. *)
Lemma mergeCachedProfiles_origin (profiles : option (list jsobj))
    (players : list jsobj) (q : jsobj) :
  q ∈ mergeCachedProfiles profiles players ->
  exists c player,
    c ∈ default [] profiles /\ player ∈ players /\ sameIdentity c player = true /\
    field q "steamId" = jsOr (field player "steamId") (field c "steamId") /\
    field q "steamUrl" = jsOr (field player "steamUrl") (field c "steamUrl").
Proof.
  unfold mergeCachedProfiles. rewrite !indexPlayers_indexPlayersAt.
  intros Hq. apply list_elem_of_In, filter_In in Hq as [Hq Hkept].
  apply in_map_iff in Hq as (c & Hc & Hin). apply list_elem_of_In in Hin.
  rewrite lookupBoth_fmap in Hc.
  pose proof (lookupBoth_indexPlayersAt c players) as Hfound.
  unfold lookupBoth in Hc, Hfound.
  destruct (if truthy (field c "steamId") then _ else None) as [[n player]|] eqn:Hid.
  - simpl in Hc. destruct Hfound as [Hn Hmatch].
    exists c, player. split; [done|]. split; [by eapply list_elem_of_lookup_2|].
    split.
    + rewrite sameIdentity_sharesKey. apply orb_true_iff.
      destruct Hmatch as [(x & Hx & Hs & _)|[_ (x & Hx & Hs & _)]];
        rewrite Hn in Hx; injection Hx as <-; auto.
    + subst q. split.
      * rewrite !field_insert_ne by done. apply field_insert_eq.
      * rewrite !field_insert_ne by done. apply field_insert_eq.
  - destruct (if truthy (field c "steamUrl") then _ else None) as [[n player]|] eqn:Hurl.
    + simpl in Hc. destruct Hfound as [Hn Hmatch].
      exists c, player. split; [done|]. split; [by eapply list_elem_of_lookup_2|].
      split.
      * rewrite sameIdentity_sharesKey. apply orb_true_iff.
        destruct Hmatch as [(x & Hx & Hs & _)|[_ (x & Hx & Hs & _)]];
          rewrite Hn in Hx; injection Hx as <-; auto.
      * subst q. split.
        -- rewrite !field_insert_ne by done. apply field_insert_eq.
        -- rewrite !field_insert_ne by done. apply field_insert_eq.
    + simpl in Hc. subst q. exfalso.
      by rewrite (absent_key_false _ _ Hid), (absent_key_false _ _ Hurl) in Hkept.
Qed.

Lemma sameIdentity_fields_both (a a' b : jsobj) :
  field a "steamId" = field a' "steamId" ->
  field a "steamUrl" = field a' "steamUrl" ->
  sameIdentity a b = sameIdentity a' b.
Proof. unfold sameIdentity. by intros -> ->. Qed.

Section OmittedPlayers.
Variable urlPathname : string -> option string.

Lemma derivedId_falsy (p : jsobj) :
  truthy (derivedId urlPathname p) = false -> truthy (field p "steamId") = false.
Proof.
  unfold derivedId, jsOr. destruct (truthy (field p "steamId")) eqn:Hs; [|done].
  by rewrite Hs.
Qed.

(** A profile of the response has the steamId and the steamUrl of a merged
    cache profile or of a roster player from which an id can be derived. *)
Lemma response_profile_origin (cache : ServerCache) (players : list jsobj)
    (response : Response) (q : jsobj) :
  buildResponseFromCache urlPathname (Some cache) players = Some response ->
  q ∈ resp_profiles response ->
  exists x,
    field q "steamId" = field x "steamId" /\ field q "steamUrl" = field x "steamUrl" /\
    (x ∈ mergeCachedProfiles (Some (default [] (c_profiles cache))) players \/
     exists player, player ∈ players /\ truthy (derivedId urlPathname player) = true /\
                    x = placeholder player).
Proof.
  intros [= <-]. simpl. intros Hq.
  apply decorated_profiles in Hq as (x & Hx & ->). exists x.
  assert (forall k, k = "steamId" \/ k = "steamUrl" ->
            field (withNeedsSteam64
                     match lookupBoth (indexPlayersAt "steamId" players)
                                      (indexPlayersAt "steamUrl" players) x with
                     | Some (index, player) =>
                         <["storedSteamId" := jsOr (field player "steamId") JNull]>
                         (<["storedSteamUrl" := jsOr (field player "steamUrl") JNull]>
                         (<["playerId" := JNum (Z.of_nat index)]> x))
                     | None => x
                     end) k = field x k) as Hfields.
  { intros k Hk. unfold withNeedsSteam64.
    rewrite field_insert_ne by (destruct Hk as [-> | ->]; done).
    destruct (lookupBoth _ _ x) as [[index player]|]; [|done].
    rewrite !field_insert_ne by (destruct Hk as [-> | ->]; done). done. }
  split; [apply Hfields; auto|]. split; [apply Hfields; auto|].
  apply elem_of_app in Hx as [Hx|Hx]; [by left|right].
  unfold missingProfiles in Hx. apply list_elem_of_In, in_map_iff in Hx.
  destruct Hx as (player & <- & Hplayer). apply filter_In in Hplayer as [Hin Hid].
  exists player. split; [by apply list_elem_of_In|]. split; [|done].
  by apply andb_true_iff in Hid as [? _].
Qed.

(** C4, what the code does: a roster player from which no id can be
    derived (no truthy steamId, and a steamUrl whose parsing gives no path
    segment) that shares no truthy steamId or steamUrl with a cached
    profile has no profile in the
    response built from the cache: none of the profiles has its steamUrl,
    provided no roster player with an id has that steamUrl too.
    [buildFallbackResponse], for the same roster, has a profile with the
    steamUrl and steamId of that player. *)
Theorem response_omits_unidentified_player
    (cache : ServerCache) (players : list jsobj) (player : jsobj)
    (serverName : string) :
  player ∈ players ->
  truthy (derivedId urlPathname player) = false ->
  (forall c, c ∈ default [] (c_profiles cache) -> sameIdentity c player = false) ->
  (forall other, other ∈ players -> truthy (derivedId urlPathname other) = true ->
                 sameIdentity other player = false) ->
  (exists response,
     buildResponseFromCache urlPathname (Some cache) players = Some response /\
     forall q, q ∈ resp_profiles response -> sameIdentity q player = false) /\
  (exists q,
     q ∈ resp_profiles (fb_response (buildFallbackResponse serverName players)) /\
     field q "steamUrl" = field player "steamUrl" /\
     field q "steamId" = field player "steamId").
Proof.
  intros Hin Hnoid Hcache Hothers.
  pose proof (derivedId_falsy player Hnoid) as Hsid.
  split.
  - eexists. split; [reflexivity|]. intros q Hq.
    destruct (response_profile_origin cache players _ q eq_refl Hq)
      as (x & Hi & Hu & Hx).
    rewrite (sameIdentity_fields_both q x player Hi Hu).
    destruct Hx as [Hx|(other & Hother & Hid & ->)].
    + apply mergeCachedProfiles_origin in Hx as (c & r & Hc & Hr & Hcr & Hxi & Hxu).
      simpl in Hc.
      destruct (sameIdentity x player) eqn:Hsame; [|done]. exfalso.
      rewrite sameIdentity_sharesKey in Hsame. apply orb_true_iff in Hsame.
      destruct Hsame as [Hs|Hs]; apply sharesKey_true in Hs as (Htx & Htp & Heq);
        [congruence|].
      rewrite Hxu in Htx, Heq. unfold jsOr in Htx, Heq.
      destruct (truthy (field r "steamUrl")) eqn:Htr.
      * assert (sameIdentity r player = true) as Hrp.
        { rewrite sameIdentity_sharesKey. apply orb_true_iff. right.
          by apply sharesKey_true. }
        destruct (truthy (derivedId urlPathname r)) eqn:Hrid.
        { by rewrite (Hothers r Hr Hrid) in Hrp. }
        pose proof (derivedId_falsy r Hrid) as Hrs.
        rewrite sameIdentity_sharesKey in Hcr. apply orb_true_iff in Hcr.
        destruct Hcr as [Hs|Hs]; apply sharesKey_true in Hs as (Htc & Htr' & Heq');
          [congruence|].
        assert (sameIdentity c player = true) as Hcp.
        { rewrite sameIdentity_sharesKey. apply orb_true_iff. right.
          apply sharesKey_true. split; [done|]. split; [done|]. congruence. }
        by rewrite (Hcache c Hc) in Hcp.
      * assert (sameIdentity c player = true) as Hcp.
        { rewrite sameIdentity_sharesKey. apply orb_true_iff. right.
          by apply sharesKey_true. }
        by rewrite (Hcache c Hc) in Hcp.
    + destruct (placeholder_fields other) as (Hpu & Hpi & _).
      rewrite (sameIdentity_fields_both (placeholder other) other player Hpi Hpu).
      by apply Hothers.
  - simpl. unfold attachPlayerIds.
    set (attach := fun profile : jsobj => match lookupBoth _ _ profile with
                                          | Some (index, found) => _
                                          | None => profile
                                          end).
    exists (attach (fallbackProfile player)). split.
    + apply list_elem_of_fmap. exists (fallbackProfile player). split; [done|].
      apply list_elem_of_fmap. eauto.
    + destruct (fallbackProfile_fields player) as (Hu & Hi & _).
      unfold attach. destruct (lookupBoth _ _ _) as [[index found]|]; [|done].
      by rewrite !field_insert_ne.
Qed.
End OmittedPlayers.

Lemma response_omits_unidentified_player_witness :
  let bob : jsobj := {[ "steamId" := JStr "76561198000000002"; "steamUrl" := JStr "https://steamcommunity.com/profiles/76561198000000002"; "displayName" := JStr "Bob"; "avatarUrl" := JStr "https://avatars.example/bob.jpg" ]} in
  let ann : jsobj := {[ "steamUrl" := JStr "ann"; "steamId" := JNull; "displayName" := JNull; "avatarUrl" := JNull ]} in
  let cache := mkCache (JStr SERVER_NAME) (Some [bob]) (Some ∅) (Some []) None (Some 5%Z) in
  (exists response,
     buildResponseFromCache plainHttpPathname (Some cache) [bob; ann] = Some response /\
     forall q, q ∈ resp_profiles response -> sameIdentity q ann = false) /\
  (exists q,
     q ∈ resp_profiles (fb_response (buildFallbackResponse SERVER_NAME [bob; ann])) /\
     field q "steamUrl" = field ann "steamUrl" /\
     field q "steamId" = field ann "steamId").
Proof.
  intros bob ann cache.
  apply (response_omits_unidentified_player plainHttpPathname cache [bob; ann] ann
           SERVER_NAME).
  - set_solver.
  - vm_compute. reflexivity.
  - intros c Hc. apply list_elem_of_singleton in Hc as ->. vm_compute. reflexivity.
  - intros other Hother Hid.
    apply elem_of_cons in Hother as [->|Hother]; [vm_compute; reflexivity|].
    apply list_elem_of_singleton in Hother as ->. vm_compute in Hid. discriminate Hid.
Defined.

(** At that roster the response built from the cache has one profile, and
    the fallback response two. *)
Example response_omits_unidentified_player_sizes :
  let bob : jsobj := {[ "steamId" := JStr "76561198000000002"; "steamUrl" := JStr "https://steamcommunity.com/profiles/76561198000000002"; "displayName" := JStr "Bob"; "avatarUrl" := JStr "https://avatars.example/bob.jpg" ]} in
  let ann : jsobj := {[ "steamUrl" := JStr "ann"; "steamId" := JNull; "displayName" := JNull; "avatarUrl" := JNull ]} in
  let cache := mkCache (JStr SERVER_NAME) (Some [bob]) (Some ∅) (Some []) None (Some 5%Z) in
  (length ∘ resp_profiles <$> buildResponseFromCache plainHttpPathname (Some cache) [bob; ann])
    = Some 1 /\
  length (resp_profiles (fb_response (buildFallbackResponse SERVER_NAME [bob; ann]))) = 2.
Proof. split; vm_compute; reflexivity. Qed.

(** ** The keys of the per-server caches in the routes *)

Section RouteFacts.
Variable trim : string -> string.
Variable toLowerCase : string -> string.
Variable urlPathname : string -> option string.
Variable integerOf : string -> option Z.
Variable raw : option CacheFile.
Variable players : list jsobj.
Variable clock : string -> Z.

Abbreviation keysOk key := (key ∈ ALLOWED_SERVERS \/ key ∈ fileKeys raw).

(** The store a route loads has the keys of the document, or the one
    normalised name of the old layout. *)
Lemma loadedStore_keys (key : string) :
  key ∈ dom (loadedStore trim toLowerCase raw) -> keysOk key.
Proof.
  unfold loadedStore, loadCacheStore, fileKeys.
  destruct raw as [file|]; simpl; [|set_solver].
  destruct (file_servers file) as [servers|]; simpl; [by right|].
  destruct (truthy _); [|set_solver].
  rewrite dom_singleton_L, elem_of_singleton. intros ->. left.
  apply normalizeServerName_allowed.
Qed.

Lemma serverOf_keys (serverName : jsval) : keysOk (serverOf trim toLowerCase serverName).
Proof. left. apply normalizeServerName_allowed. Qed.


Lemma setServerCache_keys (serverName : jsval) (cache : ServerCache) (key : string) :
  key ∈ dom (setServerCache (Some (loadedStore trim toLowerCase raw))
               (serverOf trim toLowerCase serverName) cache) ->
  keysOk key.
Proof.
  unfold setServerCache. simpl. rewrite dom_insert_L, elem_of_union, elem_of_singleton.
  intros [->|Hin]; [apply serverOf_keys | by apply loadedStore_keys].
Qed.


End RouteFacts.


(** ** What ends a run of [scrapePlayers] *)

Section ScrapeRunFacts.
Variable Page : Type.
Variable launch : Page -> Page * completion unit.
Variable goto : Page -> Page * completion unit.
Variable selectServer : string -> Page -> Page * completion unit.
Variable closeBrowser : Page -> Page * completion unit.
Variable urlPathname : string -> option string.
Variable fetchSteamProfile : jsval -> jsval -> Page -> Page * jsobj.
Variable prepareTab : string -> Page -> Page * completion (ColumnMap * list string).
Variable resetTable : Page -> Page * completion unit.
Variable getPlayerStats :
  jsobj -> ColumnMap -> list string -> Page -> Page * completion PlayerStats.

End ScrapeRunFacts.

